(** * A Modbus-TCP master: shallow embedding of [modbus_poll.py]

    The Python program builds request frames with [struct.pack], sends them
    over a socket, receives a response and prints what it decodes.  The
    embedding keeps that shape: every method is a computation that appends to
    a log of observable events (frames sent, lines printed) and either
    returns or raises a Python exception. *)

From Stdlib Require Import ZArith String Ascii DecimalString List Lia Bool.
From Stdlib.Strings Require Import Byte.
Import ListNotations.
Open Scope Z_scope.

(** ** Python runtime: exceptions, output, sequencing *)

(** The exceptions the program can end with: the generic [Exception(msg)] it
    raises itself, and the built-in ones raised by indexing, by
    [struct.pack] and by [int]. *)
Inductive exn : Type :=
| Exception (msg : string)
| IndexError
| StructError
| ValueError.

Inductive result (A : Type) : Type :=
| Ok (a : A)
| Raise (e : exn).
Arguments Ok {A} a.
Arguments Raise {A} e.

(** A [bytes] object: indexing it yields an int in 0..255. *)
Definition bytes := list byte.

(** What the outside world sees: a frame handed to [socket.send], and the
    lines written by [print]. *)
Inductive event : Type :=
| Send (data : bytes)
| PrintField (label : string) (value : Z)
| PrintRegister (number : Z) (value : Z)
| PrintSuccess.

Definition io (A : Type) : Type := (list event * result A)%type.

Definition ret {A} (a : A) : io A := ([], Ok a).
Definition raise {A} (e : exn) : io A := ([], Raise e).
Definition emit (e : event) : io unit := ([e], Ok tt).

Definition bind {A B} (m : io A) (k : A -> io B) : io B :=
  match m with
  | (t, Ok a) => let (t', r) := k a in (t ++ t', r)
  | (t, Raise e) => (t, Raise e)
  end.

Notation "x <- m ;; k" := (bind m (fun x => k))
  (at level 61, m at next level, right associativity).
Notation "m ;;; k" := (bind m (fun _ => k))
  (at level 61, right associativity).

(** The events logged and the way the computation ended. *)
Definition trace {A} (m : io A) : list event := fst m.
Definition outcome {A} (m : io A) : result A := snd m.

(** [seq[i]]: negative indices count from the end, anything outside the
    sequence raises [IndexError]. *)
Definition getitem {A} (l : list A) (i : Z) : io A :=
  let j := if i <? 0 then i + Z.of_nat (length l) else i in
  if j <? 0 then raise IndexError
  else match nth_error l (Z.to_nat j) with
       | Some a => ret a
       | None => raise IndexError
       end.

(** [seq[a:b]] for constant non-negative bounds: never raises, clips. *)
Definition slice {A} (l : list A) (a b : nat) : list A :=
  firstn (b - a) (skipn a l).

Definition int_of_byte (b : byte) : Z := Z.of_N (Byte.to_N b).
Definition ints (bs : bytes) : list Z := map int_of_byte bs.

(** [for i in range(start, stop, step)] with a positive step, threading the
    variables the body assigns. *)
Definition range_len (start stop step : Z) : nat :=
  Z.to_nat ((stop - start + step - 1) / step).

Fixpoint for_range {S} (n : nat) (i step : Z) (body : Z -> S -> io S) (s : S)
  : io S :=
  match n with
  | O => ret s
  | Datatypes.S n' => s' <- body i s ;; for_range n' (i + step) step body s'
  end.

Definition for_in_range {S} (start stop step : Z) (body : Z -> S -> io S)
  (s : S) : io S :=
  for_range (range_len start stop step) start step body s.

(** [struct.pack("nB", ...)]: exactly [n] arguments, each of them in
    0..255, otherwise [struct.error]. *)
Definition byte_of_int (z : Z) : option byte :=
  if (0 <=? z) && (z <=? 255) then Byte.of_N (Z.to_N z) else None.

Fixpoint pack_bytes (args : list Z) : option bytes :=
  match args with
  | [] => Some []
  | z :: rest =>
      match byte_of_int z, pack_bytes rest with
      | Some b, Some bs => Some (b :: bs)
      | _, _ => None
      end
  end.

Definition struct_pack (n : nat) (args : list Z) : io bytes :=
  if Nat.eqb (length args) n then
    match pack_bytes args with
    | Some bs => ret bs
    | None => raise StructError
    end
  else raise StructError.

(** [str(n)] for an int, ['{0:b}'.format(n)], [s.zfill(w)], [s.ljust(w, '0')]
    and [int(c)] for a one-character string; a Python [str] is a list of
    characters. *)
Definition str (z : Z) : list ascii :=
  list_ascii_of_string (NilZero.string_of_int (Z.to_int z)).

Fixpoint bin_digits (p : positive) : list ascii :=
  match p with
  | xH => ["1"%char]
  | xO q => bin_digits q ++ ["0"%char]
  | xI q => bin_digits q ++ ["1"%char]
  end.

Definition format_b (z : Z) : list ascii :=
  match z with
  | Z0 => ["0"%char]
  | Zpos p => bin_digits p
  | Zneg p => "-"%char :: bin_digits p
  end.

Definition is_sign (c : ascii) : bool :=
  Ascii.eqb c "-"%char || Ascii.eqb c "+"%char.

Definition zfill (width : nat) (s : list ascii) : list ascii :=
  let pad := repeat "0"%char (width - length s) in
  match s with
  | c :: rest => if is_sign c then c :: pad ++ rest else pad ++ s
  | [] => pad
  end.

Definition ljust (width : Z) (fill : ascii) (s : list ascii) : list ascii :=
  s ++ repeat fill (Z.to_nat width - length s).

Definition int_of_char (c : ascii) : io Z :=
  let n := nat_of_ascii c in
  if (Nat.leb 48 n && Nat.leb n 57)%bool then ret (Z.of_nat (n - 48))
  else raise ValueError.

(** [ceil(count / 8)] on the length of a list: the float quotient by a power
    of two is exact for every length a list can have. *)
Definition ceil_div8 (count : Z) : Z := (count + 7) / 8.

(** ** Module-level constants and helpers *)

Definition READ_COILS : Z := 0x01.
Definition READ_DISCRETE_INPUTS : Z := 0x02.
Definition READ_HOLDING_REGISTERS : Z := 0x03.
Definition READ_INPUT_REGISTERS : Z := 0x04.
Definition WRITE_SINGLE_COIL : Z := 0x05.
Definition WRITE_SINGLE_REGISTER : Z := 0x06.
Definition WRITE_MULTIPLE_COILS : Z := 0x0F.
Definition WRITE_MULTIPLE_REGISTERS : Z := 0x10.

Definition ILLEGAL_FUNCTION : Z := 0x01.
Definition ILLEGAL_DATA_ADDRESS : Z := 0x02.
Definition ILLEGAL_DATA_VALUE : Z := 0x03.
Definition SERVER_DEVICE_FAILURE : Z := 0x04.

Definition decimal_to_bytes (num : Z) : Z * Z :=
  let byte_1 := num / 16 ^ 2 in
  let byte_2 := num - byte_1 * 16 ^ 2 in
  (byte_1, byte_2).

Definition bytes_to_dec (byte : list Z) : io Z :=
  b0 <- getitem byte 0 ;;
  b1 <- getitem byte 1 ;;
  ret (b0 * 16 ^ 2 + b1).

(** ** class ModbusMaster

    The methods take no [self]: the socket is the log of frames sent and the
    [received] argument of the methods that wait for a response. *)

Module ModbusMaster.

Definition _error_display (exception_code : Z) : io unit :=
  if exception_code =? ILLEGAL_FUNCTION then
    raise (Exception "Illegal function")
  else if exception_code =? ILLEGAL_DATA_ADDRESS then
    raise (Exception "Illegal data address")
  else if exception_code =? ILLEGAL_DATA_VALUE then
    raise (Exception "Illegal data value")
  else if exception_code =? SERVER_DEVICE_FAILURE then
    raise (Exception "Server device failure")
  else
    raise (Exception "Unknown exception").

Definition _send_packet (data : bytes) : io unit := emit (Send data).

(** [received] is what [socket.recv(1028)] hands back. *)
Definition _recv_packet (received : bytes) : io bytes :=
  match received with
  | [] => raise (Exception "Connection closed")
  | _ => ret received
  end.

Definition _build_packet_reading
  (address transaction_id function_code id count : Z) : io unit :=
  let '(trans_byte_1, trans_byte_2) := decimal_to_bytes transaction_id in
  let '(addr_byte_1, addr_byte_2) := decimal_to_bytes address in
  let '(count_byte_1, count_byte_2) := decimal_to_bytes count in
  packet <- struct_pack 12
              [trans_byte_1; trans_byte_2;
               0; 0;
               0; 6;
               id;
               function_code;
               addr_byte_1; addr_byte_2;
               count_byte_1; count_byte_2] ;;
  _send_packet packet.

(** [value if value > -1 else value + 65536] *)
Definition wrap_negative (value : Z) : Z :=
  if value >? -1 then value else value + 65536.

(** The body of [for value in values] of the multiple-register branch. *)
Fixpoint append_registers (values : list Z) (packet : bytes) : io bytes :=
  match values with
  | [] => ret packet
  | value :: rest =>
      let '(data_byte_1, data_byte_2) :=
        decimal_to_bytes (wrap_negative value) in
      two <- struct_pack 2 [data_byte_1; data_byte_2] ;;
      append_registers rest (packet ++ two)
  end.

(** The inner loop [for j in range(4)] of the coil branch, on the pair
    [(byte_1, byte_2)]. *)
Definition nibble_step (value : list ascii) (i j : Z) (acc : Z * Z)
  : io (Z * Z) :=
  let '(byte_1, byte_2) := acc in
  c_lo <- getitem value (i + j) ;;
  d_lo <- int_of_char c_lo ;;
  let byte_2 := byte_2 + d_lo * 2 ^ j in
  c_hi <- getitem value (i + j + 4) ;;
  d_hi <- int_of_char c_hi ;;
  let byte_1 := byte_1 + d_hi * 2 ^ j in
  ret (byte_1, byte_2).

(** The body of [for i in range(0, len(value), 8)]. *)
Definition coil_byte_step (value : list ascii) (i : Z) (packet : bytes)
  : io bytes :=
  acc <- for_in_range 0 4 1 (nibble_step value i) (0, 0) ;;
  let '(byte_1, byte_2) := acc in
  one <- struct_pack 1 [byte_1 * 16 + byte_2] ;;
  ret (packet ++ one).

Definition append_coils (values : list Z) (count_byte : Z) (packet : bytes)
  : io bytes :=
  let value := ljust (count_byte * 8) "0"%char (concat (map str values)) in
  for_in_range 0 (Z.of_nat (length value)) 8 (coil_byte_step value) packet.

Definition _build_packet_writing
  (address transaction_id function_code id : Z) (values : list Z) : io unit :=
  let '(trans_byte_1, trans_byte_2) := decimal_to_bytes transaction_id in
  let '(addr_byte_1, addr_byte_2) := decimal_to_bytes address in
  packet <-
    (if function_code =? WRITE_SINGLE_REGISTER then
       v0 <- getitem values 0 ;;
       let '(data_byte_1, data_byte_2) :=
         decimal_to_bytes (wrap_negative v0) in
       struct_pack 12
         [trans_byte_1; trans_byte_2;
          0; 0;
          0; 6;
          id;
          function_code;
          addr_byte_1; addr_byte_2;
          data_byte_1; data_byte_2]
     else if function_code =? WRITE_MULTIPLE_REGISTERS then
       let count := Z.of_nat (length values) in
       let '(count_byte_1, count_byte_2) := decimal_to_bytes count in
       packet <- struct_pack 13
                   [trans_byte_1; trans_byte_2;
                    0; 0;
                    0; 7 + count * 2;
                    id;
                    function_code;
                    addr_byte_1; addr_byte_2;
                    count_byte_1; count_byte_2;
                    count * 2] ;;
       append_registers values packet
     else if function_code =? WRITE_SINGLE_COIL then
       v0 <- getitem values 0 ;;
       struct_pack 12
         [trans_byte_1; trans_byte_2;
          0; 0;
          0; 6;
          id;
          function_code;
          addr_byte_1; addr_byte_2;
          v0 * 255;
          0]
     else
       let count := Z.of_nat (length values) in
       let '(count_byte_1, count_byte_2) := decimal_to_bytes count in
       let count_byte := ceil_div8 count in
       packet <- struct_pack 13
                   [trans_byte_1; trans_byte_2;
                    0; 0;
                    0; 7 + count_byte;
                    id;
                    function_code;
                    addr_byte_1; addr_byte_2;
                    count_byte_1; count_byte_2;
                    count_byte] ;;
       append_coils values count_byte packet) ;;
  _send_packet packet.

(** The header lines are the same text in the four read methods; they are
    shared here. *)
Definition print_header (response : bytes) : io Z :=
  tid <- bytes_to_dec (ints (slice response 0 2)) ;;
  emit (PrintField "Transaction Identifier:" tid) ;;;
  pid <- bytes_to_dec (ints (slice response 2 4)) ;;
  emit (PrintField "Protocol Identifier:" pid) ;;;
  len <- bytes_to_dec (ints (slice response 4 6)) ;;
  emit (PrintField "Response length:" len) ;;;
  unit_id <- getitem response 6 ;;
  emit (PrintField "Unit identifier:" (int_of_byte unit_id)) ;;;
  fc <- getitem response 7 ;;
  emit (PrintField "Function code:" (int_of_byte fc)) ;;;
  bc <- getitem response 8 ;;
  let byte_count := int_of_byte bc in
  emit (PrintField "Byte count:" byte_count) ;;;
  ret byte_count.

(** [coils.append(1) if value[i] == '1' else coils.append(0)], for every
    character of [value]. *)
Definition bit_of_char (c : ascii) : Z :=
  if Ascii.eqb c "1"%char then 1 else 0.

(** The body of [for i in range(byte_count)] of the bit-space methods. *)
Definition unpack_step (response : bytes) (i : Z) (coils : list Z)
  : io (list Z) :=
  b <- getitem response (9 + i) ;;
  let value := rev (zfill 8 (format_b (int_of_byte b))) in
  ret (coils ++ map bit_of_char value).

Definition unpack_coils (response : bytes) (byte_count : Z) : io (list Z) :=
  for_in_range 0 byte_count 1 (unpack_step response) [].

(** The body of [for i in range(0, byte_count, 2)] of the register-space
    methods. *)
Definition register_step (response : bytes) (i : Z) (regs : list Z)
  : io (list Z) :=
  hi <- getitem response (9 + i) ;;
  let value_1 := int_of_byte hi * 16 ^ 2 in
  lo <- getitem response (9 + i + 1) ;;
  let value_2 := int_of_byte lo in
  let value := value_1 + value_2 in
  ret (regs ++ [if value <? 32768 then value else value - 65536]).

Definition decode_registers (response : bytes) (byte_count : Z)
  : io (list Z) :=
  for_in_range 0 byte_count 2 (register_step response) [].

(** [for num, x in enumerate(xs): print(...); if num == count - 1: break] *)
Fixpoint print_registers (address count num : Z) (xs : list Z) : io unit :=
  match xs with
  | [] => ret tt
  | x :: rest =>
      emit (PrintRegister (address + num) x) ;;;
      if num =? count - 1 then ret tt
      else print_registers address count (num + 1) rest
  end.

Definition read_discrete_inputs
  (address transaction_id count : Z) (received : bytes) : io unit :=
  _build_packet_reading address transaction_id READ_DISCRETE_INPUTS 1 count ;;;
  response <- _recv_packet received ;;
  r1 <- getitem response 1 ;;
  if negb (Z.land (int_of_byte r1) 0x80 =? 0) then
    r2 <- getitem response 2 ;;
    _error_display (int_of_byte r2)
  else
    byte_count <- print_header response ;;
    coils <- unpack_coils response byte_count ;;
    print_registers address count 0 coils.

Definition read_coils
  (address transaction_id count : Z) (received : bytes) : io unit :=
  _build_packet_reading address transaction_id READ_COILS 1 count ;;;
  response <- _recv_packet received ;;
  r1 <- getitem response 1 ;;
  if negb (Z.land (int_of_byte r1) 0x80 =? 0) then
    r2 <- getitem response 2 ;;
    _error_display (int_of_byte r2)
  else
    byte_count <- print_header response ;;
    coils <- unpack_coils response byte_count ;;
    print_registers address count 0 coils.

Definition read_holding_registers
  (address transaction_id count : Z) (received : bytes) : io unit :=
  _build_packet_reading address transaction_id READ_HOLDING_REGISTERS 1 count ;;;
  response <- _recv_packet received ;;
  r1 <- getitem response 1 ;;
  if negb (Z.land (int_of_byte r1) 0x80 =? 0) then
    r2 <- getitem response 2 ;;
    _error_display (int_of_byte r2)
  else
    byte_count <- print_header response ;;
    regs <- decode_registers response byte_count ;;
    print_registers address count 0 regs.

Definition read_input_registers
  (address transaction_id count : Z) (received : bytes) : io unit :=
  _build_packet_reading address transaction_id READ_INPUT_REGISTERS 1 count ;;;
  response <- _recv_packet received ;;
  r1 <- getitem response 1 ;;
  if negb (Z.land (int_of_byte r1) 0x80 =? 0) then
    r2 <- getitem response 2 ;;
    _error_display (int_of_byte r2)
  else
    byte_count <- print_header response ;;
    regs <- decode_registers response byte_count ;;
    print_registers address count 0 regs.

(** What the four write methods do with the response. *)
Definition write_reply (received : bytes) : io unit :=
  response <- _recv_packet received ;;
  r1 <- getitem response 1 ;;
  if negb (Z.land (int_of_byte r1) 0x80 =? 0) then
    r2 <- getitem response 2 ;;
    _error_display (int_of_byte r2)
  else
    emit PrintSuccess.

Definition write_single_register
  (address transaction_id : Z) (value : list Z) (received : bytes) : io unit :=
  _build_packet_writing address transaction_id WRITE_SINGLE_REGISTER 1 value ;;;
  write_reply received.

Definition write_multiple_registers
  (address transaction_id : Z) (values : list Z) (received : bytes) : io unit :=
  _build_packet_writing address transaction_id WRITE_MULTIPLE_REGISTERS 1 values ;;;
  write_reply received.

Definition write_single_coil
  (address transaction_id : Z) (value : list Z) (received : bytes) : io unit :=
  _build_packet_writing address transaction_id WRITE_SINGLE_COIL 1 value ;;;
  write_reply received.

Definition write_multiple_coils
  (address transaction_id : Z) (values : list Z) (received : bytes) : io unit :=
  _build_packet_writing address transaction_id WRITE_MULTIPLE_COILS 1 values ;;;
  write_reply received.

End ModbusMaster.

Import ModbusMaster.

(** * Vocabulary of the statements *)

Definition in_byte_range (z : Z) : Prop := 0 <= z <= 255.

(** The MBAP header followed by the function code, as a list of ints; the
    high byte of the length is always written as 0 by the program. *)
Definition mbap (transaction_id len unit_id function_code : Z) : list Z :=
  [transaction_id / 256; transaction_id mod 256; 0; 0; 0; len; unit_id;
   function_code].

Definition u16 (z : Z) : Prop := 0 <= z <= 65535.

(** A computation that fails before anything reaches the socket. *)
Definition rejected {A} (m : io A) : Prop :=
  trace m = [] /\ exists e, outcome m = Raise e.

Definition read_function_code (fc : Z) : Prop :=
  fc = READ_COILS \/ fc = READ_DISCRETE_INPUTS \/
  fc = READ_HOLDING_REGISTERS \/ fc = READ_INPUT_REGISTERS.

(** The two bytes of a 16-bit quantity, high byte first. *)
Definition be16 (z : Z) : list Z := [z / 256; z mod 256].

Definition int16 (v : Z) : Prop := -32768 <= v <= 32767.

Definition is_bit (v : Z) : Prop := v = 0 \/ v = 1.

Definition char_of_bit (v : Z) : ascii :=
  if v =? 1 then "1"%char else "0"%char.

(** The value at index [i] of a coil sequence extended by zeros. *)
Definition bit_at (bits : list Z) (i : Z) : Z := nth (Z.to_nat i) bits 0.

(** The int packed for the group of eight starting at index [i]. *)
Definition group_value (bits : list Z) (i : Z) : Z :=
  bit_at bits i + 2 * bit_at bits (i + 1) + 4 * bit_at bits (i + 2) +
  8 * bit_at bits (i + 3) + 16 * bit_at bits (i + 4) +
  32 * bit_at bits (i + 5) + 64 * bit_at bits (i + 6) +
  128 * bit_at bits (i + 7).

(** Least-significant-bit-first packing, in the words of the format: the
    sequence is extended by zeros to a multiple of 8 and cut into
    ceil(count / 8) bytes; bit [b] of byte [i] is the value at index
    [8 * i + b]. *)
Definition lsb_first_packing (values : list Z) (packed : bytes) : Prop :=
  Z.of_nat (length packed) = ceil_div8 (Z.of_nat (length values)) /\
  forall i b, (i < length packed)%nat -> (b < 8)%nat ->
    Z.testbit (int_of_byte (nth i packed x00)) (Z.of_nat b) =
    (nth (8 * i + b) values 0 =? 1).

(** The int at offset [i] of a response. *)
Definition byte_at (response : bytes) (i : nat) : Z :=
  int_of_byte (nth i response x00).

Definition header_lines (response : bytes) : list event :=
  [PrintField "Transaction Identifier:"
     (byte_at response 0 * 256 + byte_at response 1);
   PrintField "Protocol Identifier:"
     (byte_at response 2 * 256 + byte_at response 3);
   PrintField "Response length:"
     (byte_at response 4 * 256 + byte_at response 5);
   PrintField "Unit identifier:" (byte_at response 6);
   PrintField "Function code:" (byte_at response 7);
   PrintField "Byte count:" (byte_at response 8)].

(** The eight bits of a byte, least significant first, as 0/1 ints. *)
Definition byte_bits (b : byte) : list Z :=
  map (fun j => Z.b2z (Z.testbit (int_of_byte b) j)) [0; 1; 2; 3; 4; 5; 6; 7].

(** The lines [print_registers] writes for a list, numbered from [num]. *)
Fixpoint register_lines (address num : Z) (xs : list Z) : list event :=
  match xs with
  | [] => []
  | x :: rest =>
      PrintRegister (address + num) x :: register_lines address (num + 1) rest
  end.

(** What the [break] at [num == count - 1] lets through. *)
Definition shown (count : Z) (xs : list Z) : list Z :=
  if 1 <=? count then firstn (Z.to_nat count) xs else xs.

(** A 16-bit pattern read as a signed number: patterns from 32768 on stand
    for the pattern minus 65536. *)
Definition sign_extend16 (value : Z) : Z :=
  if 32768 <=? value then value - 65536 else value.

(** The register decoded from the [k]-th byte pair of the payload. *)
Definition register_at (response : bytes) (k : nat) : Z :=
  sign_extend16
    (byte_at response (9 + 2 * k) * 256 + byte_at response (9 + 2 * k + 1)).

(** The exception test of the program: bit 0x80 of [response[1]]. *)
Definition exception_flagged (response : bytes) : bool :=
  negb (Z.land (byte_at response 1) 0x80 =? 0).

(** What each read method does once the request is sent; [decode] is the
    loop of the method's address space. *)
Definition reply (decode : bytes -> Z -> io (list Z))
  (address count : Z) (received : bytes) : io unit :=
  response <- _recv_packet received ;;
  r1 <- getitem response 1 ;;
  if negb (Z.land (int_of_byte r1) 0x80 =? 0) then
    r2 <- getitem response 2 ;;
    _error_display (int_of_byte r2)
  else
    byte_count <- print_header response ;;
    xs <- decode response byte_count ;;
    print_registers address count 0 xs.

(** Bit [k] of the payload of a bit-space response, read least significant
    bit first. *)
Definition coil_at (response : bytes) (k : nat) : Z :=
  Z.b2z (Z.testbit (byte_at response (9 + k / 8)) (Z.of_nat (k mod 8))).

(** The length a frame declares, bytes 4 and 5 read big-endian. *)
Definition declared_length (packet : bytes) : io Z :=
  bytes_to_dec (ints (slice packet 4 6)).

(** The log holds one frame, whose declared length is [len] and is the
    number of bytes after the length field. *)
Definition length_field_exact (t : list event) (len : Z) : Prop :=
  exists packet,
    t = [Send packet] /\
    declared_length packet = ret len /\
    Z.of_nat (length packet) - 6 = len.

(** The exceptions raised by Python itself, as opposed to the program's
    own [Exception(msg)]. *)
Definition builtin_error (e : exn) : Prop :=
  e = IndexError \/ e = StructError \/ e = ValueError.

(** A computation that logs nothing and can only end normally or with a
    built-in exception. *)
Definition quiet {A} (m : io A) : Prop :=
  trace m = [] /\ forall e, outcome m = Raise e -> builtin_error e.

(** A quiet computation whose result, if any, satisfies [P]. *)
Definition builds {A} (P : A -> Prop) (m : io A) : Prop :=
  quiet m /\ forall a, outcome m = Ok a -> P a.

(** A packet that still begins with [header]. *)
Definition extends (header : bytes) (packet : bytes) : Prop :=
  exists bs, packet = header ++ bs.

(** How a write method, having sent [packet], ends for each kind of
    response. *)
Definition handles_reply (method : bytes -> io unit) (packet : bytes) : Prop :=
  method [] = ([Send packet], Raise (Exception "Connection closed")) /\
  (forall received,
     (2 <= length received)%nat -> exception_flagged received = false ->
     method received = ([Send packet; PrintSuccess], Ok tt)) /\
  (forall received,
     (3 <= length received)%nat -> exception_flagged received = true ->
     method received =
       ([Send packet], outcome (_error_display (byte_at received 2)))) /\
  (forall received,
     length received = 1%nat \/
     (length received = 2%nat /\ exception_flagged received = true) ->
     method received = ([Send packet], Raise IndexError)).

(** How a read method, having sent [request], ends when the response is
    empty, is taken for an exception report, or is too short to tell. *)
Definition handles_failure (method : bytes -> io unit) (request : bytes)
  : Prop :=
  method [] = ([Send request], Raise (Exception "Connection closed")) /\
  (forall received,
     (3 <= length received)%nat -> exception_flagged received = true ->
     method received =
       ([Send request], outcome (_error_display (byte_at received 2)))) /\
  (forall received,
     length received = 1%nat \/
     (length received = 2%nat /\ exception_flagged received = true) ->
     method received = ([Send request], Raise IndexError)).

(** The number of header lines a response of [len] bytes (2 to 8) lets the
    read methods print before an index runs past its end. *)
Definition fields_read (len : nat) : nat :=
  if (len <? 4)%nat then 1
  else if (len <? 6)%nat then 2
  else if (len <? 7)%nat then 3
  else if (len <? 8)%nat then 4
  else 5.

(** The number of values the print loop shows out of [available] ones. *)
Definition lines_shown (count : Z) (available : nat) : nat :=
  if 1 <=? count then Nat.min (Z.to_nat count) available else available.

(** ** The interactive loop ([__main__])

    The loop talks to a terminal and to the device.  What it writes and
    asks is logged; the lines typed are [stdin], read one at a time; [int]
    is Python's own parser, taken as given ([None] for a [ValueError]);
    [peer] gives what the socket returns after the request with a given
    transaction number.  A line is always there to be read: the end of
    the input ([EOFError]) and the opening of the socket are outside the
    model. *)

Inductive console : Type :=
| Print (line : string)
| Input (prompt : string)
| Method (e : event).

(** A step of the loop reads [stdin] from a position and moves it on. *)
Definition mio (A : Type) : Type := nat -> list console * result (A * nat).

Definition mret {A} (a : A) : mio A := fun pos => ([], Ok (a, pos)).
Definition mraise {A} (e : exn) : mio A := fun _ => ([], Raise e).

Definition mbind {A B} (m : mio A) (k : A -> mio B) : mio B :=
  fun pos =>
    match m pos with
    | (t, Ok (a, pos')) => let (t', r) := k a pos' in (t ++ t', r)
    | (t, Raise e) => (t, Raise e)
    end.

Notation "x <~ m ;; k" := (mbind m (fun x => k))
  (at level 61, m at next level, right associativity).
Notation "m ;;~ k" := (mbind m (fun _ => k))
  (at level 61, right associativity).

(** [s.split(' ')]: every single space separates, so that an empty line
    gives one empty item and two spaces in a row give an empty item. *)
Fixpoint split_on (sep : ascii) (s : list ascii) : list (list ascii) :=
  match s with
  | [] => [[]]
  | ch :: rest =>
      if Ascii.eqb ch sep then [] :: split_on sep rest
      else match split_on sep rest with
           | w :: ws => (ch :: w) :: ws
           | [] => [[ch]]
           end
  end.

(** [function_code == '1'] *)
Definition line_is (s : list ascii) (literal : string) : bool :=
  String.eqb (string_of_list_ascii s) literal.

Inductive flow : Type :=
| Break
| Continue (transaction_number : Z).

Definition menu : list string :=
  [String "010"%char "Function codes:";
   "---------------";
   " Read coils               = 1  |  Write single coil        = 5";
   " Read discrete inputs     = 2  |  Write single register    = 6";
   " Read holding registers   = 3  |  Write multiple coils     = 7";
   " Read input registers     = 4  |  Write multiple registers = 8";
   " Exit                     = 0" ++ String "010"%char ""]%string.

Section Main.

Variable py_int : list ascii -> option Z.
Variable stdin : nat -> list ascii.
Variable peer : Z -> bytes.

Definition input (prompt : string) : mio (list ascii) :=
  fun pos => ([Input prompt], Ok (stdin pos, S pos)).

Definition say (line : string) : mio unit :=
  fun pos => ([Print line], Ok (tt, pos)).

Definition int (s : list ascii) : mio Z :=
  match py_int s with
  | Some z => mret z
  | None => mraise ValueError
  end.

(** A call of a method of the master: its events go to the log, its
    exception, if any, is not caught. *)
Definition call (m : io unit) : mio unit :=
  fun pos =>
    (map Method (trace m),
     match outcome m with
     | Ok _ => Ok (tt, pos)
     | Raise e => Raise e
     end).

(** [for i, v in enumerate(values): values[i] = int(v)] *)
Fixpoint int_each (values : list (list ascii)) : mio (list Z) :=
  match values with
  | [] => mret []
  | v :: rest =>
      z <~ int v ;;
      zs <~ int_each rest ;;
      mret (z :: zs)
  end.

Fixpoint say_each (lines : list string) : mio unit :=
  match lines with
  | [] => mret tt
  | line :: rest => say line ;;~ say_each rest
  end.

(** What a turn of [while True] does with the function chosen. *)
Definition dispatch (transaction_number : Z) (function_code : list ascii)
  : mio flow :=
  if line_is function_code "0" then mret Break
  else
    a <~ input "Choose address: " ;;
    address <~ int a ;;
    if line_is function_code "1" then
      q <~ input "Choose quantity of coils: " ;;
      quantity <~ int q ;;
      let transaction_number := transaction_number + 1 in
      call (read_coils address transaction_number quantity
              (peer transaction_number)) ;;~
      mret (Continue transaction_number)
    else if line_is function_code "2" then
      q <~ input "Choose quantity of coils: " ;;
      quantity <~ int q ;;
      let transaction_number := transaction_number + 1 in
      call (read_discrete_inputs address transaction_number quantity
              (peer transaction_number)) ;;~
      mret (Continue transaction_number)
    else if line_is function_code "3" then
      q <~ input "Choose quantity of registers: " ;;
      quantity <~ int q ;;
      let transaction_number := transaction_number + 1 in
      call (read_holding_registers address transaction_number quantity
              (peer transaction_number)) ;;~
      mret (Continue transaction_number)
    else if line_is function_code "4" then
      q <~ input "Choose quantity of registers: " ;;
      quantity <~ int q ;;
      let transaction_number := transaction_number + 1 in
      call (read_input_registers address transaction_number quantity
              (peer transaction_number)) ;;~
      mret (Continue transaction_number)
    else if line_is function_code "5" then
      v <~ input "Set value 0 or 1: " ;;
      value <~ int v ;;
      let transaction_number := transaction_number + 1 in
      call (write_single_coil address transaction_number [value]
              (peer transaction_number)) ;;~
      mret (Continue transaction_number)
    else if line_is function_code "6" then
      v <~ input "Set value from -32768 to 32767: " ;;
      value <~ int v ;;
      let transaction_number := transaction_number + 1 in
      call (write_single_register address transaction_number [value]
              (peer transaction_number)) ;;~
      mret (Continue transaction_number)
    else if line_is function_code "7" then
      line <~ input "Set value 0 or 1 separately with SPACE: " ;;
      values <~ int_each (split_on " "%char line) ;;
      let transaction_number := transaction_number + 1 in
      call (write_multiple_coils address transaction_number values
              (peer transaction_number)) ;;~
      mret (Continue transaction_number)
    else if line_is function_code "8" then
      line <~ input "Set value -32768 to 32767 separately with SPACE: " ;;
      values <~ int_each (split_on " "%char line) ;;
      let transaction_number := transaction_number + 1 in
      call (write_multiple_registers address transaction_number values
              (peer transaction_number)) ;;~
      mret (Continue transaction_number)
    else
      say "Unknown command!" ;;~
      mret (Continue transaction_number).

(** One turn of [while True]. *)
Definition iteration (transaction_number : Z) : mio flow :=
  say_each menu ;;~
  function_code <~ input "Choose function: " ;;
  dispatch transaction_number function_code.

(** [while True] for at most [turns] turns; the result tells whether the
    loop was left through [break]. *)
Fixpoint loop (turns : nat) (transaction_number : Z) : mio bool :=
  match turns with
  | O => mret false
  | S turns' =>
      next <~ iteration transaction_number ;;
      match next with
      | Break => mret true
      | Continue transaction_number' => loop turns' transaction_number'
      end
  end.

(** [transaction_number = 0], then the loop. *)
Definition main (turns : nat) : mio bool := loop turns 0.

End Main.

(** The transaction ids of the frames sent, as bytes 0 and 1 of each frame
    say, in the order of sending. *)
Fixpoint frame_ids (log : list console) : list Z :=
  match log with
  | [] => []
  | Method (Send packet) :: rest =>
      (byte_at packet 0 * 256 + byte_at packet 1) :: frame_ids rest
  | _ :: rest => frame_ids rest
  end.

(** A plain decimal reading of a line, an instance of what [int] accepts:
    digits, with an optional minus sign in front. *)
Fixpoint digits_value (acc : Z) (s : list ascii) : option Z :=
  match s with
  | [] => Some acc
  | c :: rest =>
      let n := nat_of_ascii c in
      if (Nat.leb 48 n && Nat.leb n 57)%bool
      then digits_value (acc * 10 + Z.of_nat (n - 48)) rest
      else None
  end.

Definition decimal_int (s : list ascii) : option Z :=
  match s with
  | [] => None
  | c :: rest =>
      if Ascii.eqb c "-"%char then
        match rest with
        | [] => None
        | _ => option_map Z.opp (digits_value 0 rest)
        end
      else digits_value 0 s
  end.

(** The lines of a session, typed one after the other; nothing more is
    typed after them. *)
Definition typed (lines : list string) (pos : nat) : list ascii :=
  list_ascii_of_string (nth pos lines ""%string).

(** An event other than a frame being sent. *)
Definition printed (e : event) : Prop :=
  match e with
  | Send _ => False
  | _ => True
  end.

(** A computation that sends nothing. *)
Definition printing {A} (m : io A) : Prop := Forall printed (trace m).

(** A method call for transaction [tid]: either it raises with nothing
    logged, or the first thing it does is send one frame, which carries
    [tid] in bytes 0 and 1, and nothing else is sent. *)
Definition one_frame (tid : Z) (m : io unit) : Prop :=
  (trace m = [] /\ exists e, outcome m = Raise e) \/
  (exists packet rest,
     trace m = Send packet :: rest /\ Forall printed rest /\
     byte_at packet 0 * 256 + byte_at packet 1 = tid /\ u16 tid).

(** A step of the loop that sends nothing. *)
Definition frameless {A} (m : mio A) : Prop :=
  forall pos, frame_ids (fst (m pos)) = [].

(** A turn of the loop entered with counter [tn]: it sends no frame and
    leaves the counter alone, or it sends the frame numbered [tn + 1] and
    goes on with [tn + 1]. *)
Definition turn (tn : Z) (m : mio flow) : Prop :=
  forall pos,
    (frame_ids (fst (m pos)) = [] /\
     forall next pos', snd (m pos) = Ok (next, pos') ->
                       next = Break \/ next = Continue tn) \/
    (frame_ids (fst (m pos)) = [tn + 1] /\ u16 (tn + 1) /\
     forall next pos', snd (m pos) = Ok (next, pos') ->
                       next = Continue (tn + 1)).

(** The three lines of a complete command of the menu, 1 to 8, all of
    whose numbers [int] accepts. *)
Definition complete_command (py_int : list ascii -> option Z)
  (choice address argument : list ascii) : Prop :=
  py_int address <> None /\
  ((In choice (map list_ascii_of_string ["1"; "2"; "3"; "4"; "5"; "6"]%string)
    /\ py_int argument <> None) \/
   (In choice (map list_ascii_of_string ["7"; "8"]%string) /\
    Forall (fun item => py_int item <> None) (split_on " "%char argument))).

(** A line of values with an empty item in it: the empty line, or a space
    at the start, at the end or right after another space. *)
Definition has_empty_item (line : list ascii) : Prop :=
  line = [] \/
  exists pre post,
    line = pre ++ " "%char :: post /\
    (pre = [] \/ post = [] \/ exists post', post = " "%char :: post').

(** A step of the loop that can only go on, never leave the loop. *)
Definition continues (m : mio flow) : Prop :=
  forall pos next pos',
    snd (m pos) = Ok (next, pos') -> exists tn, next = Continue tn.

(** The header lines a read method prints for a response before an index
    runs past its end: none for a single byte, then one line for bytes 0-1,
    one for 2-3, one for 4-5 and one each for bytes 6, 7 and 8. *)
Definition header_read (response : bytes) : list event :=
  let len := length response in
  let complete :=
    if (len <? 2)%nat then 0%nat
    else if (len <? 4)%nat then 1%nat
    else if (len <? 6)%nat then 2%nat
    else if (len <? 7)%nat then 3%nat
    else if (len <? 8)%nat then 4%nat
    else if (len <? 9)%nat then 5%nat
    else 6%nat in
  firstn complete (header_lines response).

(** [''.join(map(str, values))], the text the coil bytes are packed from. *)
Definition coil_text (values : list Z) : list ascii := concat (map str values).

(** The number of data bytes a WriteMultipleCoils frame carries: one for
    every eight characters of the text, the text being first extended to
    the [8 * ceil(count / 8)] characters the length field reckons with. *)
Definition coil_data_bytes (values : list Z) : Z :=
  Z.max (ceil_div8 (Z.of_nat (length values)))
        (ceil_div8 (Z.of_nat (length (coil_text values)))).

(** * Properties *)

(** ** Sequencing *)

Lemma bind_ret {A B} (a : A) (k : A -> io B) : bind (ret a) k = k a.
Proof. unfold bind, ret. destruct (k a). reflexivity. Qed.

Lemma bind_raise {A B} (e : exn) (k : A -> io B) : bind (raise e) k = raise e.
Proof. reflexivity. Qed.

Lemma bind_emit {B} (ev : event) (k : unit -> io B) :
  bind (emit ev) k = (ev :: trace (k tt), outcome (k tt)).
Proof. unfold bind, emit, trace, outcome. destruct (k tt). reflexivity. Qed.

Lemma outcome_bind {A B} (m : io A) (k : A -> io B) :
  outcome (bind m k) =
  match outcome m with
  | Ok a => outcome (k a)
  | Raise e => Raise e
  end.
Proof.
  destruct m as [t [a | e]]; unfold bind, outcome; simpl; [|reflexivity].
  destruct (k a); reflexivity.
Qed.

(** ** Indexing *)

Lemma getitem_nth {A} (l : list A) (i : Z) (d : A) :
  0 <= i < Z.of_nat (length l) ->
  getitem l i = ret (nth (Z.to_nat i) l d).
Proof.
  intros H. unfold getitem.
  destruct (Z.ltb_spec i 0); [lia|].
  destruct (Z.ltb_spec i 0); [lia|].
  destruct (nth_error l (Z.to_nat i)) eqn:E.
  - rewrite (nth_error_nth _ _ d E). reflexivity.
  - apply nth_error_None in E. lia.
Qed.

Lemma getitem_beyond {A} (l : list A) (i : Z) :
  Z.of_nat (length l) <= i -> getitem l i = raise IndexError.
Proof.
  intros H. unfold getitem.
  destruct (Z.ltb_spec i 0); [lia|].
  destruct (Z.ltb_spec i 0); [lia|].
  destruct (nth_error l (Z.to_nat i)) eqn:E; [|reflexivity].
  assert (nth_error l (Z.to_nat i) = None) as E' by (apply nth_error_None; lia).
  congruence.
Qed.

(** ** Bytes and [struct.pack] *)

Lemma int_of_byte_range (b : byte) : 0 <= int_of_byte b <= 255.
Proof.
  unfold int_of_byte. pose proof (Byte.to_N_bounded b). lia.
Qed.

Lemma byte_of_int_some (z : Z) (b : byte) :
  byte_of_int z = Some b -> int_of_byte b = z /\ 0 <= z <= 255.
Proof.
  unfold byte_of_int.
  destruct (Z.leb_spec 0 z); [|discriminate].
  destruct (Z.leb_spec z 255); [|discriminate].
  simpl. intros E. apply Byte.to_of_N in E.
  unfold int_of_byte. rewrite E. lia.
Qed.

Lemma byte_of_int_in_range (z : Z) :
  0 <= z <= 255 -> exists b, byte_of_int z = Some b /\ int_of_byte b = z.
Proof.
  intros H. unfold byte_of_int.
  destruct (Z.leb_spec 0 z); [|lia].
  destruct (Z.leb_spec z 255); [|lia].
  simpl. destruct (Byte.of_N (Z.to_N z)) as [b|] eqn:E.
  - exists b. split; [reflexivity|].
    apply Byte.to_of_N in E. unfold int_of_byte. rewrite E. lia.
  - pose proof (Byte.to_of_N_option_map (Z.to_N z)) as M.
    rewrite E in M. simpl in M.
    destruct (N.leb_spec (Z.to_N z) 255); [discriminate | lia].
Qed.

Lemma byte_of_int_out_of_range (z : Z) :
  z < 0 \/ 255 < z -> byte_of_int z = None.
Proof.
  intros H. unfold byte_of_int.
  destruct (Z.leb_spec 0 z); [|reflexivity].
  destruct (Z.leb_spec z 255); [lia | reflexivity].
Qed.

Lemma pack_bytes_some (args : list Z) (bs : bytes) :
  pack_bytes args = Some bs -> ints bs = args /\ Forall in_byte_range args.
Proof.
  revert bs. induction args as [|z rest IH]; intros bs E; simpl in E.
  - inversion E. split; [reflexivity | constructor].
  - destruct (byte_of_int z) as [b|] eqn:Eb; [|discriminate].
    destruct (pack_bytes rest) as [bs'|] eqn:Er; [|discriminate].
    inversion E; subst. apply byte_of_int_some in Eb as [Eb Rb].
    destruct (IH bs' eq_refl) as [IH1 IH2].
    split; [simpl; congruence | constructor; assumption].
Qed.

Lemma pack_bytes_in_range (args : list Z) :
  Forall in_byte_range args ->
  exists bs, pack_bytes args = Some bs /\ ints bs = args.
Proof.
  induction 1 as [|z rest Hz _ IH].
  - exists []. split; reflexivity.
  - destruct IH as [bs [E1 E2]].
    destruct (byte_of_int_in_range z Hz) as [b [Eb Ib]].
    exists (b :: bs). simpl. rewrite Eb, E1. split; [reflexivity|].
    congruence.
Qed.

Lemma pack_bytes_out_of_range (args : list Z) :
  Exists (fun z => z < 0 \/ 255 < z) args -> pack_bytes args = None.
Proof.
  induction 1 as [z rest Hz | z rest _ IH]; simpl.
  - rewrite (byte_of_int_out_of_range z Hz). reflexivity.
  - rewrite IH. destruct (byte_of_int z); reflexivity.
Qed.

Lemma ints_length (bs : bytes) : length (ints bs) = length bs.
Proof. apply length_map. Qed.

Lemma struct_pack_ok (n : nat) (args : list Z) :
  length args = n -> Forall in_byte_range args ->
  exists bs, struct_pack n args = ret bs /\ ints bs = args.
Proof.
  intros L R. destruct (pack_bytes_in_range args R) as [bs [E I]].
  exists bs. unfold struct_pack. rewrite L, Nat.eqb_refl, E. auto.
Qed.

Lemma struct_pack_error (n : nat) (args : list Z) :
  Exists (fun z => z < 0 \/ 255 < z) args ->
  struct_pack n args = raise StructError.
Proof.
  intros H. unfold struct_pack. rewrite (pack_bytes_out_of_range args H).
  destruct (Nat.eqb (length args) n); reflexivity.
Qed.

Lemma struct_pack_inv (n : nat) (args : list Z) (t : list event) (bs : bytes) :
  struct_pack n args = (t, Ok bs) ->
  t = [] /\ ints bs = args /\ length bs = n /\ Forall in_byte_range args.
Proof.
  unfold struct_pack. destruct (Nat.eqb_spec (length args) n) as [L|L];
    [|discriminate].
  destruct (pack_bytes args) as [bs'|] eqn:E; [|discriminate].
  intros H. inversion H; subst. apply pack_bytes_some in E as [E R].
  repeat split; auto. rewrite <- ints_length, E. reflexivity.
Qed.

Lemma struct_pack_cases (n : nat) (args : list Z) :
  (exists bs, struct_pack n args = ret bs) \/
  struct_pack n args = raise StructError.
Proof.
  unfold struct_pack. destruct (Nat.eqb (length args) n); [|auto].
  destruct (pack_bytes args) as [bs|]; [left; eauto | auto].
Qed.

(** ** The 16-bit conversion helpers *)

Lemma decimal_to_bytes_eq (num : Z) :
  decimal_to_bytes num = (num / 256, num mod 256).
Proof.
  unfold decimal_to_bytes. change (16 ^ 2) with 256.
  f_equal. pose proof (Z.div_mod num 256). lia.
Qed.

Lemma decimal_to_bytes_range (num : Z) :
  0 <= num <= 65535 ->
  in_byte_range (num / 256) /\ in_byte_range (num mod 256).
Proof.
  intros H. unfold in_byte_range.
  pose proof (Z.mod_pos_bound num 256).
  assert (0 <= num / 256) by (apply Z.div_pos; lia).
  assert (num / 256 < 256) by (apply Z.div_lt_upper_bound; lia).
  lia.
Qed.

(** ** Request frames *)

(** Splits on the first [struct.pack] of the goal: its arguments are bytes,
    and then it returns the packed [bs]. *)
Ltac unfold_codes :=
  unfold READ_COILS, READ_DISCRETE_INPUTS, READ_HOLDING_REGISTERS,
    READ_INPUT_REGISTERS, WRITE_SINGLE_COIL, WRITE_SINGLE_REGISTER,
    WRITE_MULTIPLE_COILS, WRITE_MULTIPLE_REGISTERS in *.

Ltac all_bytes :=
  repeat (apply Forall_cons;
          [first [assumption
                 | unfold in_byte_range in *; unfold_codes; lia] |]);
  apply Forall_nil.

Ltac pack_succeeds bs E Hp :=
  match goal with
  | |- context [struct_pack ?n ?args] =>
      destruct (struct_pack_ok n args) as [bs [E Hp]];
      [reflexivity | | rewrite E]
  end.

Lemma build_reading_ok (address transaction_id function_code id count : Z) :
  u16 address -> u16 transaction_id -> u16 count ->
  in_byte_range function_code -> in_byte_range id ->
  exists packet,
    _build_packet_reading address transaction_id function_code id count =
      ([Send packet], Ok tt) /\
    ints packet =
      mbap transaction_id 6 id function_code ++
      [address / 256; address mod 256; count / 256; count mod 256].
Proof.
  intros Ha Ht Hc Hf Hi. unfold _build_packet_reading.
  rewrite !decimal_to_bytes_eq.
  destruct (decimal_to_bytes_range _ Ha), (decimal_to_bytes_range _ Ht),
    (decimal_to_bytes_range _ Hc).
  pack_succeeds packet E Hp.
  - all_bytes.
  - exists packet. rewrite bind_ret. split; [reflexivity | exact Hp].
Qed.

Lemma build_reading_error (address transaction_id function_code id count : Z) :
  count < 0 \/ 65535 < count ->
  _build_packet_reading address transaction_id function_code id count =
    ([], Raise StructError).
Proof.
  intros H. unfold _build_packet_reading. rewrite !decimal_to_bytes_eq.
  rewrite struct_pack_error; [reflexivity|].
  do 10 apply Exists_cons_tl. apply Exists_cons_hd.
  destruct H as [H | H].
  - left. apply Z.div_lt_upper_bound; lia.
  - right. assert (256 <= count / 256) by (apply Z.div_le_lower_bound; lia).
    lia.
Qed.

Create HintDb modbus.

Lemma read_coils_code : read_function_code READ_COILS.
Proof. left. reflexivity. Qed.

Lemma read_discrete_inputs_code : read_function_code READ_DISCRETE_INPUTS.
Proof. right; left. reflexivity. Qed.

Lemma read_holding_registers_code :
  read_function_code READ_HOLDING_REGISTERS.
Proof. right; right; left. reflexivity. Qed.

Lemma read_input_registers_code : read_function_code READ_INPUT_REGISTERS.
Proof. right; right; right. reflexivity. Qed.

#[local] Hint Resolve read_coils_code read_discrete_inputs_code
  read_holding_registers_code read_input_registers_code : modbus.

Lemma read_function_code_byte (fc : Z) :
  read_function_code fc -> in_byte_range fc.
Proof.
  unfold read_function_code, in_byte_range, READ_COILS, READ_DISCRETE_INPUTS,
    READ_HOLDING_REGISTERS, READ_INPUT_REGISTERS. lia.
Qed.

(** C10: for every num in [0, 65535], [decimal_to_bytes] returns the
    big-endian pair (num div 256, num mod 256), both halves are bytes, and
    [bytes_to_dec] applied to that pair gives num back. *)
Theorem decimal_bytes_roundtrip (num : Z) :
  0 <= num <= 65535 ->
  decimal_to_bytes num = (num / 256, num mod 256) /\
  0 <= fst (decimal_to_bytes num) <= 255 /\
  0 <= snd (decimal_to_bytes num) <= 255 /\
  bytes_to_dec [fst (decimal_to_bytes num); snd (decimal_to_bytes num)] =
    ret num.
Proof.
  intros H. rewrite decimal_to_bytes_eq. simpl fst; simpl snd.
  destruct (decimal_to_bytes_range num H) as [H1 H2].
  repeat split; try apply H1; try apply H2.
  unfold bytes_to_dec.
  rewrite (getitem_nth _ 0 0) by (simpl; lia).
  rewrite bind_ret.
  rewrite (getitem_nth _ 1 0) by (simpl; lia).
  rewrite bind_ret. simpl nth. change (16 ^ 2) with 256.
  f_equal. f_equal. pose proof (Z.div_mod num 256). lia.
Qed.

Lemma decimal_bytes_roundtrip_witness :
  decimal_to_bytes 43981 = (171, 205) /\
  bytes_to_dec [171; 205] = ret 43981.
Proof.
  destruct (decimal_bytes_roundtrip 43981) as [E [_ [_ R]]]; [lia|].
  split; [exact E | exact R].
Defined.

(** C2, as the program has it: a read request is encoded without any check
    of the count against the protocol maximum.  For each of the four read
    function codes every count in [0, 65535] (0, 2000, 2001, 125 and 126
    among them) gives the 12-byte frame with the count big-endian in its
    last two bytes, and that frame is sent; a count outside [0, 65535] is
    refused by the byte packing with [struct.error] before anything is
    sent. *)
Theorem read_request_count_unchecked
  (address transaction_id function_code count : Z) :
  u16 address -> u16 transaction_id -> read_function_code function_code ->
  (u16 count ->
   exists packet,
     _build_packet_reading address transaction_id function_code 1 count =
       ([Send packet], Ok tt) /\
     ints packet =
       mbap transaction_id 6 1 function_code ++
       [address / 256; address mod 256; count / 256; count mod 256]) /\
  (count < 0 \/ 65535 < count ->
   _build_packet_reading address transaction_id function_code 1 count =
     ([], Raise StructError)).
Proof.
  intros Ha Ht Hf. split.
  - intros Hc. apply build_reading_ok; auto.
    + apply read_function_code_byte; assumption.
    + unfold in_byte_range; lia.
  - apply build_reading_error.
Qed.

Lemma read_request_count_unchecked_witness :
  exists packet,
    _build_packet_reading 0 1 READ_COILS 1 2001 = ([Send packet], Ok tt) /\
    ints packet = [0; 1; 0; 0; 0; 6; 1; 1; 0; 0; 7; 209].
Proof.
  destruct (read_request_count_unchecked 0 1 READ_COILS 2001) as [H _].
  - unfold u16; lia.
  - unfold u16; lia.
  - left; reflexivity.
  - apply H. unfold u16; lia.
Defined.

(** C2, counterexample: requests for 0 coils, for 2001 coils and for 126
    holding registers are not rejected; each one is encoded and sent. *)
Lemma read_request_count_counterexample :
  _build_packet_reading 0 1 READ_COILS 1 0 =
    ([Send [x00; x01; x00; x00; x00; x06; x01; x01; x00; x00; x00; x00]],
     Ok tt) /\
  _build_packet_reading 0 1 READ_COILS 1 2001 =
    ([Send [x00; x01; x00; x00; x00; x06; x01; x01; x00; x00; x07; xd1]],
     Ok tt) /\
  _build_packet_reading 0 1 READ_HOLDING_REGISTERS 1 126 =
    ([Send [x00; x01; x00; x00; x00; x06; x01; x03; x00; x00; x00; x7e]],
     Ok tt) /\
  ~ rejected (_build_packet_reading 0 1 READ_COILS 1 0) /\
  ~ rejected (_build_packet_reading 0 1 READ_COILS 1 2001) /\
  ~ rejected (_build_packet_reading 0 1 READ_HOLDING_REGISTERS 1 126).
Proof.
  repeat split; try reflexivity;
    intros [T _]; vm_compute in T; discriminate.
Qed.

(** ** Write requests for one coil and for registers *)

Lemma wrap_negative_mod (v : Z) :
  -65536 <= v <= 65535 -> wrap_negative v = v mod 65536.
Proof.
  intros H. unfold wrap_negative. destruct (Z.gtb_spec v (-1)).
  - rewrite Z.mod_small; lia.
  - rewrite <- (Z_mod_plus_full v 1 65536). rewrite Z.mod_small; lia.
Qed.

Lemma wrap_negative_u16 (v : Z) : int16 v -> u16 (wrap_negative v).
Proof.
  unfold int16, u16, wrap_negative. intros H.
  destruct (Z.gtb_spec v (-1)); lia.
Qed.

Lemma append_registers_ok (values : list Z) (packet : bytes) :
  Forall int16 values ->
  exists bs,
    append_registers values packet = ret (packet ++ bs) /\
    ints bs = flat_map (fun v => be16 (v mod 65536)) values.
Proof.
  intros H. revert packet.
  induction H as [|v rest Hv _ IH]; intros packet.
  - exists []. rewrite app_nil_r. split; reflexivity.
  - cbn [append_registers]. rewrite decimal_to_bytes_eq.
    destruct (decimal_to_bytes_range _ (wrap_negative_u16 v Hv)).
    pack_succeeds two E Hp; [all_bytes|].
    rewrite bind_ret. destruct (IH (packet ++ two)) as [bs [E' Hp']].
    exists (two ++ bs). rewrite app_assoc. split; [exact E'|].
    unfold ints in *. rewrite map_app, Hp, Hp'. simpl.
    rewrite wrap_negative_mod by (unfold int16 in Hv; lia). reflexivity.
Qed.

Lemma build_single_coil (address transaction_id v : Z) (rest : list Z) :
  u16 address -> u16 transaction_id ->
  (in_byte_range (v * 255) ->
   exists packet,
     _build_packet_writing address transaction_id WRITE_SINGLE_COIL 1
       (v :: rest) = ([Send packet], Ok tt) /\
     ints packet =
       mbap transaction_id 6 1 WRITE_SINGLE_COIL ++
       [address / 256; address mod 256; v * 255; 0]) /\
  (v * 255 < 0 \/ 255 < v * 255 ->
   _build_packet_writing address transaction_id WRITE_SINGLE_COIL 1
     (v :: rest) = ([], Raise StructError)).
Proof.
  intros Ha Ht. unfold _build_packet_writing. rewrite !decimal_to_bytes_eq.
  destruct (decimal_to_bytes_range _ Ha), (decimal_to_bytes_range _ Ht).
  change (WRITE_SINGLE_COIL =? WRITE_SINGLE_REGISTER) with false.
  change (WRITE_SINGLE_COIL =? WRITE_MULTIPLE_REGISTERS) with false.
  change (WRITE_SINGLE_COIL =? WRITE_SINGLE_COIL) with true. cbv iota.
  rewrite (getitem_nth _ 0 0) by (simpl; lia). rewrite bind_ret.
  simpl nth. split.
  - intros Hv. pack_succeeds packet E Hp; [all_bytes|].
    rewrite bind_ret. exists packet. split; [reflexivity | exact Hp].
  - intros Hv. rewrite struct_pack_error; [reflexivity|].
    do 10 apply Exists_cons_tl. apply Exists_cons_hd. exact Hv.
Qed.

(** C7: WriteSingleCoil writes, after the two big-endian address bytes, the
    bytes 0xFF 0x00 for true (1) and 0x00 0x00 for false (0); address 5
    gives the payloads 00 05 FF 00 and 00 05 00 00.  Every other integer is
    rejected: the byte packing raises [struct.error] and nothing is sent. *)
Theorem write_single_coil_encoding
  (address transaction_id v : Z) (rest : list Z) :
  u16 address -> u16 transaction_id ->
  (v = 1 ->
   exists packet,
     _build_packet_writing address transaction_id WRITE_SINGLE_COIL 1
       (v :: rest) = ([Send packet], Ok tt) /\
     ints packet =
       mbap transaction_id 6 1 5 ++ [address / 256; address mod 256; 255; 0]) /\
  (v = 0 ->
   exists packet,
     _build_packet_writing address transaction_id WRITE_SINGLE_COIL 1
       (v :: rest) = ([Send packet], Ok tt) /\
     ints packet =
       mbap transaction_id 6 1 5 ++ [address / 256; address mod 256; 0; 0]) /\
  (v <> 0 -> v <> 1 ->
   rejected (_build_packet_writing address transaction_id WRITE_SINGLE_COIL 1
               (v :: rest)) /\
   outcome (_build_packet_writing address transaction_id WRITE_SINGLE_COIL 1
              (v :: rest)) = Raise StructError) /\
  _build_packet_writing 5 1 WRITE_SINGLE_COIL 1 [1] =
    ([Send [x00; x01; x00; x00; x00; x06; x01; x05; x00; x05; xff; x00]],
     Ok tt) /\
  _build_packet_writing 5 1 WRITE_SINGLE_COIL 1 [0] =
    ([Send [x00; x01; x00; x00; x00; x06; x01; x05; x00; x05; x00; x00]],
     Ok tt).
Proof.
  intros Ha Ht.
  destruct (build_single_coil address transaction_id v rest Ha Ht) as [Y N].
  repeat split.
  - intros ->. apply Y. unfold in_byte_range; lia.
  - intros ->. apply Y. unfold in_byte_range; lia.
  - rewrite N by lia. reflexivity.
  - rewrite N by lia. eexists; reflexivity.
  - rewrite N by lia. reflexivity.
Qed.

Lemma write_single_coil_encoding_witness :
  (exists packet,
     _build_packet_writing 5 260 WRITE_SINGLE_COIL 1 [1] =
       ([Send packet], Ok tt) /\
     ints packet = [1; 4; 0; 0; 0; 6; 1; 5; 0; 5; 255; 0]) /\
  outcome (_build_packet_writing 5 260 WRITE_SINGLE_COIL 1 [2]) =
    Raise StructError.
Proof.
  split.
  - destruct (write_single_coil_encoding 5 260 1 []) as [H _];
      [unfold u16; lia | unfold u16; lia |].
    exact (H eq_refl).
  - destruct (write_single_coil_encoding 5 260 2 []) as [_ [_ [H _]]];
      [unfold u16; lia | unfold u16; lia |].
    apply H; lia.
Defined.

Lemma build_single_register (address transaction_id v : Z) (rest : list Z) :
  u16 address -> u16 transaction_id -> int16 v ->
  exists packet,
    _build_packet_writing address transaction_id WRITE_SINGLE_REGISTER 1
      (v :: rest) = ([Send packet], Ok tt) /\
    ints packet =
      mbap transaction_id 6 1 WRITE_SINGLE_REGISTER ++
      [address / 256; address mod 256] ++ be16 (v mod 65536).
Proof.
  intros Ha Ht Hv. unfold _build_packet_writing. rewrite !decimal_to_bytes_eq.
  destruct (decimal_to_bytes_range _ Ha), (decimal_to_bytes_range _ Ht).
  change (WRITE_SINGLE_REGISTER =? WRITE_SINGLE_REGISTER) with true. cbv iota.
  rewrite (getitem_nth _ 0 0) by (simpl; lia). rewrite bind_ret.
  simpl nth. rewrite decimal_to_bytes_eq.
  destruct (decimal_to_bytes_range _ (wrap_negative_u16 v Hv)).
  pack_succeeds packet E Hp; [all_bytes|].
  rewrite bind_ret. exists packet. split; [reflexivity|].
  rewrite Hp. rewrite wrap_negative_mod by (unfold int16 in Hv; lia).
  reflexivity.
Qed.

Lemma build_multiple_registers (address transaction_id : Z) (values : list Z) :
  u16 address -> u16 transaction_id -> Forall int16 values ->
  (length values <= 124)%nat ->
  exists packet,
    _build_packet_writing address transaction_id WRITE_MULTIPLE_REGISTERS 1
      values = ([Send packet], Ok tt) /\
    ints packet =
      mbap transaction_id (7 + Z.of_nat (length values) * 2) 1
        WRITE_MULTIPLE_REGISTERS ++
      [address / 256; address mod 256] ++
      be16 (Z.of_nat (length values)) ++ [Z.of_nat (length values) * 2] ++
      flat_map (fun v => be16 (v mod 65536)) values.
Proof.
  intros Ha Ht Hv Hn. unfold _build_packet_writing.
  rewrite !decimal_to_bytes_eq.
  destruct (decimal_to_bytes_range _ Ha), (decimal_to_bytes_range _ Ht).
  change (WRITE_MULTIPLE_REGISTERS =? WRITE_SINGLE_REGISTER) with false.
  change (WRITE_MULTIPLE_REGISTERS =? WRITE_MULTIPLE_REGISTERS) with true.
  cbv iota.
  assert (u16 (Z.of_nat (length values))) as Hc by (unfold u16; lia).
  destruct (decimal_to_bytes_range _ Hc).
  pack_succeeds header E Hp; [all_bytes|].
  rewrite bind_ret.
  destruct (append_registers_ok values header Hv) as [bs [E' Hp']].
  rewrite E', bind_ret. exists (header ++ bs). split; [reflexivity|].
  unfold ints in *. rewrite map_app, Hp, Hp'. reflexivity.
Qed.

(** C8: for signed 16-bit values, WriteSingleRegister and
    WriteMultipleRegisters write each value as the two big-endian bytes of
    its 16-bit two's complement, value mod 65536, which for a negative value
    is value + 65536; -1 is written as FF FF. *)
Theorem register_write_encoding (address transaction_id : Z) :
  u16 address -> u16 transaction_id ->
  (forall v rest, int16 v ->
     exists packet,
       _build_packet_writing address transaction_id WRITE_SINGLE_REGISTER 1
         (v :: rest) = ([Send packet], Ok tt) /\
       ints packet =
         mbap transaction_id 6 1 6 ++
         [address / 256; address mod 256] ++ be16 (v mod 65536)) /\
  (forall values, Forall int16 values -> (length values <= 124)%nat ->
     exists packet,
       _build_packet_writing address transaction_id WRITE_MULTIPLE_REGISTERS 1
         values = ([Send packet], Ok tt) /\
       ints packet =
         mbap transaction_id (7 + Z.of_nat (length values) * 2) 1 16 ++
         [address / 256; address mod 256] ++
         be16 (Z.of_nat (length values)) ++ [Z.of_nat (length values) * 2] ++
         flat_map (fun v => be16 (v mod 65536)) values) /\
  (forall v, int16 v -> v < 0 -> v mod 65536 = v + 65536) /\
  (forall v, int16 v -> 0 <= v -> v mod 65536 = v) /\
  _build_packet_writing 5 1 WRITE_SINGLE_REGISTER 1 [-1] =
    ([Send [x00; x01; x00; x00; x00; x06; x01; x06; x00; x05; xff; xff]],
     Ok tt) /\
  _build_packet_writing 5 1 WRITE_MULTIPLE_REGISTERS 1 [-1; 32767; -32768] =
    ([Send [x00; x01; x00; x00; x00; x0d; x01; x10; x00; x05; x00; x03; x06;
            xff; xff; x7f; xff; x80; x00]],
     Ok tt).
Proof.
  intros Ha Ht. repeat split.
  - intros v rest Hv. apply build_single_register; assumption.
  - intros values Hv Hn. apply build_multiple_registers; assumption.
  - intros v Hv Hneg. unfold int16 in Hv.
    rewrite <- (Z_mod_plus_full v 1 65536). rewrite Z.mod_small; lia.
  - intros v Hv Hpos. unfold int16 in Hv. rewrite Z.mod_small; lia.
Qed.

Lemma register_write_encoding_witness :
  (exists packet,
     _build_packet_writing 5 1 WRITE_SINGLE_REGISTER 1 [-2] =
       ([Send packet], Ok tt) /\
     ints packet = [0; 1; 0; 0; 0; 6; 1; 6; 0; 5; 255; 254]) /\
  (exists packet,
     _build_packet_writing 5 1 WRITE_MULTIPLE_REGISTERS 1 [-2; 258] =
       ([Send packet], Ok tt) /\
     ints packet = [0; 1; 0; 0; 0; 11; 1; 16; 0; 5; 0; 2; 4; 255; 254; 1; 2]).
Proof.
  destruct (register_write_encoding 5 1) as [S [M _]];
    [unfold u16; lia | unfold u16; lia |].
  split.
  - apply (S (-2) []). unfold int16; lia.
  - apply (M [-2; 258]).
    + repeat constructor; unfold int16; lia.
    + simpl; lia.
Defined.

(** ** Packing coils *)

Lemma str_bit (v : Z) : is_bit v -> str v = [char_of_bit v].
Proof. intros [-> | ->]; reflexivity. Qed.

Lemma concat_str_bits (values : list Z) :
  Forall is_bit values -> concat (map str values) = map char_of_bit values.
Proof.
  induction 1 as [|v rest Hv _ IH]; [reflexivity|].
  simpl. rewrite (str_bit v Hv), IH. reflexivity.
Qed.

Lemma ljust_bits (width : Z) (values : list Z) :
  ljust width "0"%char (map char_of_bit values) =
  map char_of_bit (values ++ repeat 0 (Z.to_nat width - length values)).
Proof.
  unfold ljust. rewrite map_app, length_map. f_equal.
  induction (Z.to_nat width - length values)%nat as [|n IH];
    [reflexivity | simpl; rewrite IH; reflexivity].
Qed.

Lemma padded_bits (values : list Z) (n : nat) :
  Forall is_bit values -> Forall is_bit (values ++ repeat 0 n).
Proof.
  intros H. apply Forall_app. split; [assumption|].
  apply Forall_forall. intros x Hx. apply repeat_spec in Hx. left. exact Hx.
Qed.

Lemma bit_at_padded (values : list Z) (n : nat) (i : Z) :
  bit_at (values ++ repeat 0 n) i = bit_at values i.
Proof.
  unfold bit_at. destruct (Nat.lt_ge_cases (Z.to_nat i) (length values)).
  - apply app_nth1. assumption.
  - rewrite app_nth2 by assumption. rewrite nth_repeat.
    rewrite nth_overflow by assumption. reflexivity.
Qed.

Lemma bit_at_is_bit (bits : list Z) (i : Z) :
  Forall is_bit bits -> is_bit (bit_at bits i).
Proof.
  intros H. unfold bit_at.
  destruct (Nat.lt_ge_cases (Z.to_nat i) (length bits)) as [L | L].
  - rewrite Forall_forall in H. apply H. apply nth_In. exact L.
  - rewrite nth_overflow by assumption. left. reflexivity.
Qed.

Lemma int_of_char_bit (v : Z) : is_bit v -> int_of_char (char_of_bit v) = ret v.
Proof. intros [-> | ->]; reflexivity. Qed.

(** Reading one character of the digit string and converting it. *)
Lemma read_bit {B} (bits : list Z) (i : Z) (k : Z -> io B) :
  Forall is_bit bits -> 0 <= i < Z.of_nat (length bits) ->
  (c <- getitem (map char_of_bit bits) i ;; d <- int_of_char c ;; k d) =
  k (bit_at bits i).
Proof.
  intros Hb Hi.
  rewrite (getitem_nth _ i (char_of_bit 0)) by (rewrite length_map; lia).
  rewrite bind_ret, map_nth.
  rewrite int_of_char_bit by (apply bit_at_is_bit; assumption).
  rewrite bind_ret. reflexivity.
Qed.

Lemma group_value_range (bits : list Z) (i : Z) :
  Forall is_bit bits -> in_byte_range (group_value bits i).
Proof.
  intros H. unfold group_value, in_byte_range.
  pose proof (bit_at_is_bit bits i H).
  pose proof (bit_at_is_bit bits (i + 1) H).
  pose proof (bit_at_is_bit bits (i + 2) H).
  pose proof (bit_at_is_bit bits (i + 3) H).
  pose proof (bit_at_is_bit bits (i + 4) H).
  pose proof (bit_at_is_bit bits (i + 5) H).
  pose proof (bit_at_is_bit bits (i + 6) H).
  pose proof (bit_at_is_bit bits (i + 7) H).
  unfold is_bit in *. lia.
Qed.

Lemma coil_byte_step_ok (bits : list Z) (i : Z) (packet : bytes) :
  Forall is_bit bits -> 0 <= i -> i + 8 <= Z.of_nat (length bits) ->
  exists b,
    coil_byte_step (map char_of_bit bits) i packet = ret (packet ++ [b]) /\
    int_of_byte b = group_value bits i.
Proof.
  intros Hb Hi Hl. unfold coil_byte_step, for_in_range.
  change (range_len 0 4 1) with 4%nat. cbn [for_range]. unfold nibble_step.
  repeat (first [rewrite read_bit by (auto; lia) | rewrite bind_ret];
          cbv beta iota zeta).
  change (2 ^ 0) with 1. change (2 ^ (0 + 1)) with 2.
  change (2 ^ (0 + 1 + 1)) with 4. change (2 ^ (0 + 1 + 1 + 1)) with 8.
  destruct (byte_of_int_in_range (group_value bits i)
              (group_value_range bits i Hb)) as [b [Eb Hv]].
  exists b. split; [|exact Hv].
  unfold struct_pack. simpl length. simpl Nat.eqb. cbv iota.
  unfold pack_bytes.
  match goal with
  | |- context [byte_of_int ?z] =>
      replace z with (group_value bits i)
  end.
  - rewrite Eb. rewrite !bind_ret. reflexivity.
  - unfold group_value.
    replace (i + 0) with i by lia.
    replace (i + 0 + 4) with (i + 4) by lia.
    replace (i + (0 + 1) + 4) with (i + 5) by lia.
    replace (i + (0 + 1)) with (i + 1) by lia.
    replace (i + (0 + 1 + 1) + 4) with (i + 6) by lia.
    replace (i + (0 + 1 + 1)) with (i + 2) by lia.
    replace (i + (0 + 1 + 1 + 1) + 4) with (i + 7) by lia.
    replace (i + (0 + 1 + 1 + 1)) with (i + 3) by lia.
    lia.
Qed.

Lemma coil_loop_ok (bits : list Z) (n : nat) :
  Forall is_bit bits ->
  forall (i : Z) (packet : bytes),
    0 <= i -> i + 8 * Z.of_nat n <= Z.of_nat (length bits) ->
    exists bs,
      for_range n i 8 (coil_byte_step (map char_of_bit bits)) packet =
        ret (packet ++ bs) /\
      length bs = n /\
      forall k, (k < n)%nat ->
        int_of_byte (nth k bs x00) = group_value bits (i + 8 * Z.of_nat k).
Proof.
  intros Hb. induction n as [|n IH]; intros i packet Hi Hl.
  - exists []. rewrite app_nil_r. split; [reflexivity|].
    split; [reflexivity|]. intros k Hk; lia.
  - destruct (coil_byte_step_ok bits i packet Hb Hi) as [b [E Hv]]; [lia|].
    destruct (IH (i + 8) (packet ++ [b])) as [bs [E' [L Hk]]]; [lia | lia |].
    exists (b :: bs). cbn [for_range]. rewrite E, bind_ret, E'.
    rewrite <- app_assoc. split; [reflexivity|].
    split; [simpl; lia|].
    intros [|k] Hlt.
    + simpl nth. rewrite Hv. f_equal. lia.
    + simpl nth. rewrite Hk by lia. f_equal. lia.
Qed.

Lemma ceil_div8_bounds (count : Z) :
  0 <= count -> count <= 8 * ceil_div8 count < count + 8.
Proof.
  intros H. unfold ceil_div8. Z.div_mod_to_equations. lia.
Qed.

Lemma append_coils_ok (values : list Z) (packet : bytes) :
  Forall is_bit values ->
  exists packed,
    append_coils values (ceil_div8 (Z.of_nat (length values))) packet =
      ret (packet ++ packed) /\
    Z.of_nat (length packed) = ceil_div8 (Z.of_nat (length values)) /\
    forall k, (k < length packed)%nat ->
      int_of_byte (nth k packed x00) = group_value values (8 * Z.of_nat k).
Proof.
  intros Hb. unfold append_coils.
  set (cb := ceil_div8 (Z.of_nat (length values))).
  pose proof (ceil_div8_bounds (Z.of_nat (length values)) (Nat2Z.is_nonneg _))
    as Hcb. fold cb in Hcb.
  rewrite concat_str_bits by assumption. rewrite ljust_bits.
  set (pad := (Z.to_nat (cb * 8) - length values)%nat).
  assert (length (values ++ repeat 0 pad) = Z.to_nat (cb * 8)) as Hlen
    by (rewrite length_app, repeat_length; unfold pad; lia).
  unfold for_in_range. rewrite length_map, Hlen.
  assert (range_len 0 (Z.of_nat (Z.to_nat (cb * 8))) 8 = Z.to_nat cb) as ->.
  { unfold range_len. f_equal. Z.div_mod_to_equations. lia. }
  destruct (coil_loop_ok (values ++ repeat 0 pad) (Z.to_nat cb)
              (padded_bits values pad Hb) 0 packet) as [bs [E [L Hk]]];
    [lia | lia |].
  exists bs. split; [exact E|]. split; [lia|].
  intros k Hlt. rewrite Hk by lia. unfold group_value.
  rewrite !bit_at_padded. reflexivity.
Qed.

Lemma group_value_testbit (bits : list Z) (i b : Z) :
  Forall is_bit bits -> 0 <= b < 8 ->
  Z.testbit (group_value bits i) b = (bit_at bits (i + b) =? 1).
Proof.
  intros H Hb. unfold group_value.
  pose proof (bit_at_is_bit bits i H) as H0.
  pose proof (bit_at_is_bit bits (i + 1) H) as H1.
  pose proof (bit_at_is_bit bits (i + 2) H) as H2.
  pose proof (bit_at_is_bit bits (i + 3) H) as H3.
  pose proof (bit_at_is_bit bits (i + 4) H) as H4.
  pose proof (bit_at_is_bit bits (i + 5) H) as H5.
  pose proof (bit_at_is_bit bits (i + 6) H) as H6.
  pose proof (bit_at_is_bit bits (i + 7) H) as H7.
  assert (b = 0 \/ b = 1 \/ b = 2 \/ b = 3 \/ b = 4 \/ b = 5 \/ b = 6 \/
          b = 7) as Cb by lia.
  replace (i + b) with
    (if b =? 0 then i else i + b)
    by (destruct (Z.eqb_spec b 0); lia).
  clear Hb.
  repeat (destruct Cb as [-> | Cb]); try subst b; cbv iota beta;
    simpl Z.eqb; cbv iota;
    destruct H0 as [-> | ->], H1 as [-> | ->], H2 as [-> | ->],
      H3 as [-> | ->], H4 as [-> | ->], H5 as [-> | ->], H6 as [-> | ->],
      H7 as [-> | ->]; reflexivity.
Qed.

Lemma append_coils_lsb_first (values : list Z) (packet : bytes) :
  Forall is_bit values ->
  exists packed,
    append_coils values (ceil_div8 (Z.of_nat (length values))) packet =
      ret (packet ++ packed) /\
    lsb_first_packing values packed.
Proof.
  intros Hb. destruct (append_coils_ok values packet Hb) as [packed [E [L Hk]]].
  exists packed. split; [exact E|]. split; [exact L|].
  intros i b Hi Hlt. rewrite Hk by assumption.
  rewrite group_value_testbit by (auto; lia).
  unfold bit_at. do 2 f_equal. lia.
Qed.

Lemma build_multiple_coils (address transaction_id : Z) (values : list Z) :
  u16 address -> u16 transaction_id -> Forall is_bit values ->
  (length values <= 1984)%nat ->
  exists header packed,
    _build_packet_writing address transaction_id WRITE_MULTIPLE_COILS 1
      values = ([Send (header ++ packed)], Ok tt) /\
    ints header =
      mbap transaction_id (7 + ceil_div8 (Z.of_nat (length values))) 1
        WRITE_MULTIPLE_COILS ++
      [address / 256; address mod 256] ++
      be16 (Z.of_nat (length values)) ++
      [ceil_div8 (Z.of_nat (length values))] /\
    lsb_first_packing values packed.
Proof.
  intros Ha Ht Hb Hn. unfold _build_packet_writing.
  rewrite !decimal_to_bytes_eq.
  destruct (decimal_to_bytes_range _ Ha), (decimal_to_bytes_range _ Ht).
  change (WRITE_MULTIPLE_COILS =? WRITE_SINGLE_REGISTER) with false.
  change (WRITE_MULTIPLE_COILS =? WRITE_MULTIPLE_REGISTERS) with false.
  change (WRITE_MULTIPLE_COILS =? WRITE_SINGLE_COIL) with false.
  cbv iota.
  assert (u16 (Z.of_nat (length values))) as Hc by (unfold u16; lia).
  destruct (decimal_to_bytes_range _ Hc).
  pose proof (ceil_div8_bounds (Z.of_nat (length values)) (Nat2Z.is_nonneg _)).
  pack_succeeds header E Hp; [all_bytes|].
  rewrite bind_ret.
  destruct (append_coils_lsb_first values header Hb) as [packed [E' Hl]].
  rewrite E', bind_ret. exists header, packed.
  split; [reflexivity|]. split; [exact Hp | exact Hl].
Qed.

(** C3: WriteMultipleCoils packs a boolean sequence least-significant bit
    first.  The packing loop turns every sequence of 0/1 values into
    ceil(count / 8) bytes in which bit b of byte i is the value at index
    8 * i + b, zeros standing in past the end; the frame that is sent
    consists of the 13 header bytes followed by exactly those bytes (a frame
    is produced for up to 1984 coils, the length byte 7 + ceil(count / 8)
    having to fit in 8 bits).  The sequence 1,0,1,1,0,0,0,1,1 packs into
    8D 01. *)
Theorem write_multiple_coils_packing (values : list Z) :
  Forall is_bit values ->
  (forall packet, exists packed,
     append_coils values (ceil_div8 (Z.of_nat (length values))) packet =
       ret (packet ++ packed) /\
     lsb_first_packing values packed) /\
  (forall address transaction_id,
     u16 address -> u16 transaction_id -> (length values <= 1984)%nat ->
     exists header packed,
       _build_packet_writing address transaction_id WRITE_MULTIPLE_COILS 1
         values = ([Send (header ++ packed)], Ok tt) /\
       ints header =
         mbap transaction_id (7 + ceil_div8 (Z.of_nat (length values))) 1 15 ++
         [address / 256; address mod 256] ++
         be16 (Z.of_nat (length values)) ++
         [ceil_div8 (Z.of_nat (length values))] /\
       lsb_first_packing values packed) /\
  _build_packet_writing 5 1 WRITE_MULTIPLE_COILS 1 [1; 0; 1; 1; 0; 0; 0; 1; 1] =
    ([Send [x00; x01; x00; x00; x00; x09; x01; x0f; x00; x05; x00; x09; x02;
            x8d; x01]],
     Ok tt).
Proof.
  intros Hb. split; [|split].
  - intros packet. apply append_coils_lsb_first. exact Hb.
  - intros address transaction_id Ha Ht Hn.
    apply build_multiple_coils; assumption.
  - reflexivity.
Qed.

Lemma write_multiple_coils_packing_witness :
  exists packed,
    append_coils [1; 0; 1; 1; 0; 0; 0; 1; 1] 2 [] = ret packed /\
    lsb_first_packing [1; 0; 1; 1; 0; 0; 0; 1; 1] packed.
Proof.
  destruct (write_multiple_coils_packing [1; 0; 1; 1; 0; 0; 0; 1; 1])
    as [H _].
  - repeat constructor; unfold is_bit; lia.
  - exact (H []).
Defined.

(** ** Decoding a response *)

Lemma print_header_ok (response : bytes) :
  (9 <= length response)%nat ->
  print_header response = (header_lines response, Ok (byte_at response 8)).
Proof.
  intros H.
  destruct response as [|b0 [|b1 [|b2 [|b3 [|b4 [|b5 [|b6 [|b7 [|b8 rest]]]]]]]]];
    simpl in H; try lia.
  reflexivity.
Qed.

Lemma print_header_short (response : bytes) :
  (length response < 9)%nat ->
  outcome (print_header response) = Raise IndexError.
Proof.
  intros H.
  destruct response as [|b0 [|b1 [|b2 [|b3 [|b4 [|b5 [|b6 [|b7 [|b8 rest]]]]]]]]];
    simpl in H; try lia; reflexivity.
Qed.

Lemma unpack_byte (b : byte) :
  map bit_of_char (rev (zfill 8 (format_b (int_of_byte b)))) = byte_bits b.
Proof. destruct b; reflexivity. Qed.

Lemma skipn_nth_cons {A} (l : list A) (k : nat) (d : A) :
  (k < length l)%nat -> skipn k l = nth k l d :: skipn (S k) l.
Proof.
  revert k. induction l as [|x l IH]; intros k H; simpl in H; [lia|].
  destruct k as [|k]; [reflexivity|].
  simpl. rewrite (IH k) by lia. reflexivity.
Qed.

Lemma unpack_loop_ok (response : bytes) (n : nat) :
  forall (i : Z) (coils : list Z),
    0 <= i -> 9 + i + Z.of_nat n <= Z.of_nat (length response) ->
    for_range n i 1 (unpack_step response) coils =
      ret (coils ++
           flat_map byte_bits (firstn n (skipn (Z.to_nat (9 + i)) response))).
Proof.
  induction n as [|n IH]; intros i coils Hi Hl.
  - simpl. rewrite app_nil_r. reflexivity.
  - cbn [for_range]. unfold unpack_step at 1.
    rewrite (getitem_nth _ _ x00) by lia. rewrite !bind_ret.
    rewrite unpack_byte. rewrite IH by lia.
    rewrite (skipn_nth_cons response (Z.to_nat (9 + i)) x00) by lia.
    cbn [firstn flat_map]. rewrite <- app_assoc.
    replace (Z.to_nat (9 + (i + 1))) with (S (Z.to_nat (9 + i))) by lia.
    reflexivity.
Qed.

Lemma unpack_loop_short (response : bytes) (n : nat) :
  forall (i : Z) (coils : list Z),
    0 <= i -> 9 + i <= Z.of_nat (length response) ->
    Z.of_nat (length response) < 9 + i + Z.of_nat n ->
    for_range n i 1 (unpack_step response) coils = raise IndexError.
Proof.
  induction n as [|n IH]; intros i coils Hi Hl Hs; [lia|].
  cbn [for_range]. unfold unpack_step at 1.
  destruct (Z.eq_dec (9 + i) (Z.of_nat (length response))) as [E | E].
  - rewrite getitem_beyond by lia. reflexivity.
  - rewrite (getitem_nth _ _ x00) by lia. rewrite !bind_ret.
    apply IH; lia.
Qed.

Lemma print_registers_all (address count : Z) (xs : list Z) :
  forall num, count - 1 < num ->
    print_registers address count num xs =
      (register_lines address num xs, Ok tt).
Proof.
  induction xs as [|x rest IH]; intros num H; [reflexivity|].
  cbn [print_registers register_lines]. rewrite bind_emit.
  destruct (Z.eqb_spec num (count - 1)); [lia|].
  rewrite IH by lia. reflexivity.
Qed.

Lemma print_registers_upto (address count : Z) (xs : list Z) :
  forall num, num <= count - 1 ->
    print_registers address count num xs =
      (register_lines address num (firstn (Z.to_nat (count - num)) xs), Ok tt).
Proof.
  induction xs as [|x rest IH]; intros num H.
  - rewrite firstn_nil. reflexivity.
  - cbn [print_registers]. rewrite bind_emit.
    replace (Z.to_nat (count - num)) with (S (Z.to_nat (count - (num + 1))))
      by lia.
    cbn [firstn register_lines].
    destruct (Z.eqb_spec num (count - 1)) as [E | E].
    + replace (Z.to_nat (count - (num + 1))) with 0%nat by lia.
      reflexivity.
    + rewrite IH by lia. reflexivity.
Qed.

Lemma print_registers_shown (address count : Z) (xs : list Z) :
  print_registers address count 0 xs =
    (register_lines address 0 (shown count xs), Ok tt).
Proof.
  unfold shown. destruct (Z.leb_spec 1 count).
  - rewrite print_registers_upto by lia. rewrite Z.sub_0_r. reflexivity.
  - apply print_registers_all. lia.
Qed.

Lemma sign_extend16_eq (value : Z) :
  (if value <? 32768 then value else value - 65536) = sign_extend16 value.
Proof.
  unfold sign_extend16.
  destruct (Z.ltb_spec value 32768), (Z.leb_spec 32768 value); lia.
Qed.

Lemma register_loop_ok (response : bytes) (n : nat) :
  forall (k0 : nat) (regs : list Z),
    (9 + 2 * (k0 + n) <= length response)%nat ->
    for_range n (2 * Z.of_nat k0) 2 (register_step response) regs =
      ret (regs ++ map (register_at response) (seq k0 n)).
Proof.
  induction n as [|n IH]; intros k0 regs Hl.
  - simpl. rewrite app_nil_r. reflexivity.
  - cbn [for_range]. unfold register_step at 1.
    rewrite (getitem_nth _ _ x00) by lia. rewrite bind_ret.
    rewrite (getitem_nth _ _ x00) by lia. rewrite !bind_ret.
    replace (2 * Z.of_nat k0 + 2) with (2 * Z.of_nat (S k0)) by lia.
    rewrite IH by lia. cbn [seq map]. rewrite <- app_assoc.
    rewrite sign_extend16_eq. unfold register_at, byte_at.
    change (16 ^ 2) with 256.
    replace (Z.to_nat (9 + 2 * Z.of_nat k0)) with (9 + 2 * k0)%nat by lia.
    replace (Z.to_nat (9 + 2 * Z.of_nat k0 + 1)) with (9 + 2 * k0 + 1)%nat
      by lia.
    reflexivity.
Qed.

Lemma register_loop_short (response : bytes) (n : nat) :
  forall (i : Z) (regs : list Z),
    0 <= i -> 9 + i <= Z.of_nat (length response) ->
    Z.of_nat (length response) < 9 + i + 2 * Z.of_nat n ->
    for_range n i 2 (register_step response) regs = raise IndexError.
Proof.
  induction n as [|n IH]; intros i regs Hi Hl Hs; [lia|].
  cbn [for_range]. unfold register_step at 1.
  destruct (Z.eq_dec (9 + i) (Z.of_nat (length response))) as [E | E].
  - rewrite getitem_beyond by lia. reflexivity.
  - rewrite (getitem_nth _ _ x00) by lia. rewrite bind_ret.
    destruct (Z.eq_dec (9 + i + 1) (Z.of_nat (length response))) as [E' | E'].
    + rewrite getitem_beyond by lia. reflexivity.
    + rewrite (getitem_nth _ _ x00) by lia. rewrite !bind_ret.
      apply IH; lia.
Qed.

Lemma unpack_coils_ok (response : bytes) (byte_count : Z) :
  0 <= byte_count -> 9 + byte_count <= Z.of_nat (length response) ->
  unpack_coils response byte_count =
    ret (flat_map byte_bits (firstn (Z.to_nat byte_count) (skipn 9 response))).
Proof.
  intros H0 Hl. unfold unpack_coils, for_in_range.
  assert (range_len 0 byte_count 1 = Z.to_nat byte_count) as ->.
  { unfold range_len. f_equal. Z.div_mod_to_equations. lia. }
  rewrite unpack_loop_ok by lia. reflexivity.
Qed.

Lemma unpack_coils_short (response : bytes) (byte_count : Z) :
  (9 <= length response)%nat ->
  Z.of_nat (length response) < 9 + byte_count ->
  unpack_coils response byte_count = raise IndexError.
Proof.
  intros H9 Hs. unfold unpack_coils, for_in_range.
  assert (range_len 0 byte_count 1 = Z.to_nat byte_count) as ->.
  { unfold range_len. f_equal. Z.div_mod_to_equations. lia. }
  apply unpack_loop_short; lia.
Qed.

Lemma decode_registers_ok (response : bytes) (n : nat) :
  (9 + 2 * n <= length response)%nat ->
  decode_registers response (2 * Z.of_nat n) =
    ret (map (register_at response) (seq 0 n)).
Proof.
  intros Hl. unfold decode_registers, for_in_range.
  assert (range_len 0 (2 * Z.of_nat n) 2 = n) as ->.
  { unfold range_len. rewrite <- (Nat2Z.id n) at 2. f_equal.
    Z.div_mod_to_equations. lia. }
  apply (register_loop_ok response n 0 []). lia.
Qed.

Lemma decode_registers_short (response : bytes) (byte_count : Z) :
  (9 <= length response)%nat ->
  Z.of_nat (length response) < 9 + byte_count ->
  decode_registers response byte_count = raise IndexError.
Proof.
  intros H9 Hs. unfold decode_registers, for_in_range.
  apply register_loop_short; [lia | lia |].
  unfold range_len. Z.div_mod_to_equations. lia.
Qed.

Lemma read_discrete_inputs_eq (address transaction_id count : Z) received :
  read_discrete_inputs address transaction_id count received =
  (_build_packet_reading address transaction_id READ_DISCRETE_INPUTS 1 count ;;;
   reply unpack_coils address count received).
Proof. reflexivity. Qed.

Lemma read_coils_eq (address transaction_id count : Z) received :
  read_coils address transaction_id count received =
  (_build_packet_reading address transaction_id READ_COILS 1 count ;;;
   reply unpack_coils address count received).
Proof. reflexivity. Qed.

Lemma read_holding_registers_eq (address transaction_id count : Z) received :
  read_holding_registers address transaction_id count received =
  (_build_packet_reading address transaction_id READ_HOLDING_REGISTERS 1 count ;;;
   reply decode_registers address count received).
Proof. reflexivity. Qed.

Lemma read_input_registers_eq (address transaction_id count : Z) received :
  read_input_registers address transaction_id count received =
  (_build_packet_reading address transaction_id READ_INPUT_REGISTERS 1 count ;;;
   reply decode_registers address count received).
Proof. reflexivity. Qed.

(** The reply handling, for any decoding loop. *)
Section Reply.

Variable decode : bytes -> Z -> io (list Z).
Variables address count : Z.

Lemma reply_enter (response : bytes) :
  (2 <= length response)%nat ->
  reply decode address count response =
  if exception_flagged response then
    r2 <- getitem response 2 ;;
    _error_display (int_of_byte r2)
  else
    byte_count <- print_header response ;;
    xs <- decode response byte_count ;;
    print_registers address count 0 xs.
Proof.
  intros H. destruct response as [|b0 [|b1 rest]]; simpl in H; try lia.
  unfold reply. cbn [_recv_packet]. rewrite bind_ret.
  change (getitem (b0 :: b1 :: rest) 1) with (@ret byte b1).
  rewrite bind_ret. reflexivity.
Qed.

Lemma reply_normal (response : bytes) (xs : list Z) :
  (9 <= length response)%nat ->
  exception_flagged response = false ->
  decode response (byte_at response 8) = ret xs ->
  reply decode address count response =
    (header_lines response ++ register_lines address 0 (shown count xs),
     Ok tt).
Proof.
  intros H9 Hf Hd. rewrite reply_enter by lia. rewrite Hf.
  rewrite print_header_ok by assumption.
  unfold bind at 1. rewrite Hd, bind_ret, print_registers_shown.
  reflexivity.
Qed.

Lemma reply_truncated (response : bytes) :
  response <> [] ->
  exception_flagged response = false ->
  ((length response < 9)%nat \/
   decode response (byte_at response 8) = raise IndexError) ->
  outcome (reply decode address count response) = Raise IndexError.
Proof.
  intros Hne Hf Hs.
  destruct response as [|b0 [|b1 rest]]; [congruence | reflexivity |].
  rewrite reply_enter by (simpl; lia). rewrite Hf.
  destruct (Nat.lt_ge_cases (length (b0 :: b1 :: rest)) 9) as [L | L].
  - rewrite outcome_bind, print_header_short by assumption. reflexivity.
  - destruct Hs as [Hs | Hs]; [lia|].
    rewrite print_header_ok by assumption.
    unfold bind at 1. rewrite Hs. reflexivity.
Qed.

Lemma reply_flagged (response : bytes) :
  (3 <= length response)%nat ->
  exception_flagged response = true ->
  reply decode address count response = _error_display (byte_at response 2).
Proof.
  intros H Hf. rewrite reply_enter by lia. rewrite Hf.
  destruct response as [|b0 [|b1 [|b2 rest]]]; simpl in H; try lia.
  change (getitem (b0 :: b1 :: b2 :: rest) 2) with (@ret byte b2).
  rewrite bind_ret. reflexivity.
Qed.

End Reply.

(** A read method as a whole: the request goes out, then the reply is
    handled. *)
Lemma after_request {B} (address transaction_id function_code count : Z)
  (k : io B) :
  u16 address -> u16 transaction_id -> u16 count ->
  read_function_code function_code ->
  exists request,
    ints request =
      mbap transaction_id 6 1 function_code ++
      [address / 256; address mod 256; count / 256; count mod 256] /\
    (_build_packet_reading address transaction_id function_code 1 count ;;; k)
    = (Send request :: trace k, outcome k).
Proof.
  intros Ha Ht Hc Hf.
  destruct (build_reading_ok address transaction_id function_code 1 count)
    as [request [E Hr]]; auto.
  - apply read_function_code_byte; assumption.
  - unfold in_byte_range; lia.
  - exists request. split; [exact Hr|]. rewrite E.
    unfold bind. destruct k. reflexivity.
Qed.

(** ** What a decoded response prints *)

Lemma register_lines_numbered (address : Z) (xs : list Z) :
  forall num,
    register_lines address num xs =
    map (fun k => PrintRegister (address + (num + Z.of_nat k)) (nth k xs 0))
      (seq 0 (length xs)).
Proof.
  induction xs as [|x rest IH]; intros num; [reflexivity|].
  cbn [register_lines length seq map nth]. f_equal.
  - f_equal. lia.
  - rewrite IH, <- seq_shift, map_map. apply map_ext.
    intros k. cbn [nth]. f_equal. lia.
Qed.

(** The first [c] values of [xs], one line each, numbered from [address]. *)
Lemma shown_lines (address : Z) (c : nat) (xs : list Z) :
  (1 <= c <= length xs)%nat ->
  register_lines address 0 (shown (Z.of_nat c) xs) =
  map (fun k => PrintRegister (address + Z.of_nat k) (nth k xs 0)) (seq 0 c).
Proof.
  intros H. unfold shown. destruct (Z.leb_spec 1 (Z.of_nat c)); [|lia].
  rewrite Nat2Z.id, register_lines_numbered.
  rewrite firstn_length_le by lia. apply map_ext_in.
  intros k Hk. apply in_seq in Hk. rewrite nth_firstn.
  destruct (Nat.ltb_spec k c); [reflexivity | lia].
Qed.

Lemma byte_bits_length (l : bytes) :
  length (flat_map byte_bits l) = (8 * length l)%nat.
Proof.
  rewrite (flat_map_constant_length (c := 8)); [lia|]. reflexivity.
Qed.

Lemma group_shift (k : nat) :
  (8 <= k)%nat ->
  (k / 8 = S ((k - 8) / 8))%nat /\ (k mod 8 = (k - 8) mod 8)%nat.
Proof.
  intros L. replace k with ((k - 8) + 1 * 8)%nat at 1 3 by lia.
  rewrite Nat.div_add by lia. rewrite Nat.Div0.mod_add. lia.
Qed.

(** Candidate [k] is bit [k mod 8] of payload byte [k / 8]. *)
Lemma byte_bits_nth (l : bytes) :
  forall k, (k < 8 * length l)%nat ->
    nth k (flat_map byte_bits l) 0 =
    Z.b2z (Z.testbit (int_of_byte (nth (k / 8) l x00)) (Z.of_nat (k mod 8))).
Proof.
  induction l as [|b rest IH]; intros k Hk; [simpl in Hk; lia|].
  cbn [flat_map]. destruct (Nat.lt_ge_cases k 8) as [L | L].
  - rewrite app_nth1 by (simpl; lia).
    do 8 (destruct k as [|k]; [reflexivity|]). lia.
  - rewrite app_nth2 by (simpl; lia).
    change (length (byte_bits b)) with 8%nat.
    rewrite IH by (simpl in Hk; lia).
    destruct (group_shift k L) as [-> ->]. reflexivity.
Qed.

Lemma candidates_nth (response : bytes) (n k : nat) :
  (k < 8 * n)%nat -> (9 + n <= length response)%nat ->
  nth k (flat_map byte_bits (firstn n (skipn 9 response))) 0 =
  coil_at response k.
Proof.
  intros Hk Hl.
  assert (length (firstn n (skipn 9 response)) = n) as Hn
    by (rewrite firstn_length_le; [reflexivity | rewrite length_skipn; lia]).
  rewrite byte_bits_nth by lia.
  rewrite nth_firstn, nth_skipn. unfold coil_at, byte_at.
  destruct (Nat.ltb_spec (k / 8) n) as [L | L]; [reflexivity|].
  assert (k / 8 < n)%nat by (apply Nat.Div0.div_lt_upper_bound; lia). lia.
Qed.

Lemma sign_extend16_spec (hi lo : byte) :
  let pattern := int_of_byte hi * 256 + int_of_byte lo in
  0 <= pattern <= 65535 /\
  -32768 <= sign_extend16 pattern <= 32767 /\
  sign_extend16 pattern mod 65536 = pattern.
Proof.
  pose proof (int_of_byte_range hi). pose proof (int_of_byte_range lo).
  cbv zeta. unfold sign_extend16.
  destruct (Z.leb_spec 32768 (int_of_byte hi * 256 + int_of_byte lo)).
  - repeat split; try lia.
    rewrite <- (Z_mod_plus_full _ 1 65536). rewrite Z.mod_small; lia.
  - repeat split; try lia. rewrite Z.mod_small; lia.
Qed.

Lemma read_normal (decode : bytes -> Z -> io (list Z))
  (address transaction_id function_code count : Z) (response : bytes)
  (xs : list Z) :
  u16 address -> u16 transaction_id -> u16 count ->
  read_function_code function_code ->
  (9 <= length response)%nat ->
  exception_flagged response = false ->
  decode response (byte_at response 8) = ret xs ->
  exists request,
    ints request =
      mbap transaction_id 6 1 function_code ++
      [address / 256; address mod 256; count / 256; count mod 256] /\
    (_build_packet_reading address transaction_id function_code 1 count ;;;
     reply decode address count response) =
    (Send request ::
       header_lines response ++ register_lines address 0 (shown count xs),
     Ok tt).
Proof.
  intros Ha Ht Hc Hfc H9 Hf Hd.
  destruct (after_request address transaction_id function_code count
              (reply decode address count response) Ha Ht Hc Hfc)
    as [request [Hr E]].
  exists request. split; [exact Hr|]. rewrite E.
  rewrite (reply_normal decode address count response xs H9 Hf Hd).
  reflexivity.
Qed.

Lemma read_truncated (decode : bytes -> Z -> io (list Z))
  (address transaction_id function_code count : Z) (response : bytes) :
  u16 address -> u16 transaction_id -> u16 count ->
  read_function_code function_code ->
  response <> [] ->
  exception_flagged response = false ->
  ((length response < 9)%nat \/
   decode response (byte_at response 8) = raise IndexError) ->
  outcome
    (_build_packet_reading address transaction_id function_code 1 count ;;;
     reply decode address count response) = Raise IndexError.
Proof.
  intros Ha Ht Hc Hfc Hne Hf Hs.
  destruct (after_request address transaction_id function_code count
              (reply decode address count response) Ha Ht Hc Hfc)
    as [request [Hr E]].
  rewrite E. unfold outcome at 1. cbn [snd].
  apply reply_truncated; assumption.
Qed.

(** C4: the register decoder takes the payload two bytes at a time, reads
    each pair big-endian as a 16-bit pattern and sign-extends it (patterns
    from 32768 on become pattern - 65536, so the result is the signed number
    in [-32768, 32767] congruent to the pattern).  ReadHoldingRegisters and
    ReadInputRegisters print these numbers for a response they treat as a
    normal one; FF FF gives -1, 80 00 gives -32768 and 7F FF gives 32767. *)
Theorem register_response_decoding (response : bytes) (n : nat) :
  (9 + 2 * n <= length response)%nat ->
  decode_registers response (2 * Z.of_nat n) =
    ret (map (register_at response) (seq 0 n)) /\
  (forall k, (k < n)%nat ->
     let pattern :=
       byte_at response (9 + 2 * k) * 256 + byte_at response (9 + 2 * k + 1) in
     0 <= pattern <= 65535 /\
     register_at response k =
       (if 32768 <=? pattern then pattern - 65536 else pattern) /\
     -32768 <= register_at response k <= 32767 /\
     register_at response k mod 65536 = pattern) /\
  (forall address transaction_id count,
     u16 address -> u16 transaction_id -> u16 count ->
     byte_at response 8 = 2 * Z.of_nat n ->
     exception_flagged response = false ->
     exists request,
       read_holding_registers address transaction_id count response =
         (Send request ::
            header_lines response ++
            register_lines address 0
              (shown count (map (register_at response) (seq 0 n))),
          Ok tt)) /\
  (forall address transaction_id count,
     u16 address -> u16 transaction_id -> u16 count ->
     byte_at response 8 = 2 * Z.of_nat n ->
     exception_flagged response = false ->
     exists request,
       read_input_registers address transaction_id count response =
         (Send request ::
            header_lines response ++
            register_lines address 0
              (shown count (map (register_at response) (seq 0 n))),
          Ok tt)) /\
  trace (read_holding_registers 0 1 3
           [x00; x01; x00; x00; x00; x09; x01; x03; x06;
            xff; xff; x80; x00; x7f; xff]) =
    [Send [x00; x01; x00; x00; x00; x06; x01; x03; x00; x00; x00; x03];
     PrintField "Transaction Identifier:" 1;
     PrintField "Protocol Identifier:" 0;
     PrintField "Response length:" 9;
     PrintField "Unit identifier:" 1;
     PrintField "Function code:" 3;
     PrintField "Byte count:" 6;
     PrintRegister 0 (-1); PrintRegister 1 (-32768); PrintRegister 2 32767].
Proof.
  intros Hl. split; [|split; [|split; [|split]]].
  - apply decode_registers_ok. exact Hl.
  - intros k Hk. unfold register_at, byte_at.
    destruct (sign_extend16_spec (nth (9 + 2 * k) response x00)
                (nth (9 + 2 * k + 1) response x00)) as [P [R M]].
    cbv zeta. repeat split; try apply P; try apply R; try exact M.
  - intros address transaction_id count Ha Ht Hc Hb Hf.
    rewrite read_holding_registers_eq.
    destruct (read_normal decode_registers address transaction_id
                READ_HOLDING_REGISTERS count response
                (map (register_at response) (seq 0 n))) as [request [_ E]];
      auto; try lia.
    + auto with modbus.
    + rewrite Hb. apply decode_registers_ok. exact Hl.
    + exists request. exact E.
  - intros address transaction_id count Ha Ht Hc Hb Hf.
    rewrite read_input_registers_eq.
    destruct (read_normal decode_registers address transaction_id
                READ_INPUT_REGISTERS count response
                (map (register_at response) (seq 0 n))) as [request [_ E]];
      auto; try lia.
    + auto with modbus.
    + rewrite Hb. apply decode_registers_ok. exact Hl.
    + exists request. exact E.
  - reflexivity.
Qed.

Lemma register_response_decoding_witness :
  decode_registers
    [x00; x01; x00; x00; x00; x07; x01; x04; x04; xff; xfe; x01; x02] 4 =
    ret [-2; 258] /\
  exists request,
    read_input_registers 16 1 2
      [x00; x01; x00; x00; x00; x07; x01; x04; x04; xff; xfe; x01; x02] =
      (Send request ::
         header_lines
           [x00; x01; x00; x00; x00; x07; x01; x04; x04; xff; xfe; x01; x02] ++
         [PrintRegister 16 (-2); PrintRegister 17 258],
       Ok tt).
Proof.
  destruct (register_response_decoding
              [x00; x01; x00; x00; x00; x07; x01; x04; x04; xff; xfe; x01; x02]
              2) as [D [_ [_ [R _]]]]; [simpl; lia|].
  split; [exact D|].
  apply (R 16 1 2); try (unfold u16; lia); reflexivity.
Defined.

Lemma shown_coil_lines (address count : Z) (response : bytes) :
  1 <= count ->
  9 + ceil_div8 count <= Z.of_nat (length response) ->
  register_lines address 0
    (shown count
       (flat_map byte_bits
          (firstn (Z.to_nat (ceil_div8 count)) (skipn 9 response)))) =
  map (fun k => PrintRegister (address + Z.of_nat k) (coil_at response k))
    (seq 0 (Z.to_nat count)).
Proof.
  intros Hc Hl. pose proof (ceil_div8_bounds count) as Hcb.
  set (n := Z.to_nat (ceil_div8 count)).
  assert (length (firstn n (skipn 9 response)) = n) as Hn
    by (rewrite firstn_length_le; [reflexivity
                                  | rewrite length_skipn; unfold n; lia]).
  rewrite <- (Z2Nat.id count) at 1 by lia.
  rewrite shown_lines by (rewrite byte_bits_length, Hn; unfold n; lia).
  apply map_ext_in. intros k Hk. apply in_seq in Hk.
  rewrite candidates_nth by (unfold n; lia). reflexivity.
Qed.

Lemma shown_register_lines (address count : Z) (response : bytes) :
  1 <= count ->
  register_lines address 0
    (shown count (map (register_at response) (seq 0 (Z.to_nat count)))) =
  map (fun k => PrintRegister (address + Z.of_nat k) (register_at response k))
    (seq 0 (Z.to_nat count)).
Proof.
  intros Hc. set (n := Z.to_nat count).
  rewrite <- (Z2Nat.id count) at 1 by lia. fold n.
  rewrite shown_lines by (rewrite length_map, length_seq; unfold n; lia).
  apply map_ext_in. intros k Hk. apply in_seq in Hk.
  rewrite (nth_indep _ 0 (register_at response 0))
    by (rewrite length_map, length_seq; lia).
  rewrite map_nth, seq_nth by lia. reflexivity.
Qed.

Lemma bit_read_lines (address transaction_id function_code count : Z)
  (response : bytes) :
  u16 address -> u16 transaction_id -> 1 <= count <= 2000 ->
  read_function_code function_code ->
  byte_at response 8 = ceil_div8 count ->
  9 + ceil_div8 count <= Z.of_nat (length response) ->
  exception_flagged response = false ->
  exists request,
    (_build_packet_reading address transaction_id function_code 1 count ;;;
     reply unpack_coils address count response) =
    (Send request ::
       header_lines response ++
       map (fun k => PrintRegister (address + Z.of_nat k) (coil_at response k))
         (seq 0 (Z.to_nat count)),
     Ok tt).
Proof.
  intros Ha Ht Hc Hfc Hb Hl Hf.
  pose proof (ceil_div8_bounds count) as Hcb.
  set (n := Z.to_nat (ceil_div8 count)).
  destruct (read_normal unpack_coils address transaction_id function_code
              count response
              (flat_map byte_bits (firstn n (skipn 9 response))))
    as [request [_ E]]; auto; try (unfold u16; lia).
  - rewrite Hb. apply unpack_coils_ok; lia.
  - exists request. rewrite E. do 3 f_equal.
    apply shown_coil_lines; lia.
Qed.

Lemma register_read_lines (address transaction_id function_code count : Z)
  (response : bytes) :
  u16 address -> u16 transaction_id -> 1 <= count <= 125 ->
  read_function_code function_code ->
  byte_at response 8 = 2 * count ->
  9 + 2 * count <= Z.of_nat (length response) ->
  exception_flagged response = false ->
  exists request,
    (_build_packet_reading address transaction_id function_code 1 count ;;;
     reply decode_registers address count response) =
    (Send request ::
       header_lines response ++
       map (fun k =>
              PrintRegister (address + Z.of_nat k) (register_at response k))
         (seq 0 (Z.to_nat count)),
     Ok tt).
Proof.
  intros Ha Ht Hc Hfc Hb Hl Hf.
  set (n := Z.to_nat count).
  destruct (read_normal decode_registers address transaction_id function_code
              count response (map (register_at response) (seq 0 n)))
    as [request [_ E]]; auto; try (unfold u16; lia).
  - rewrite Hb. replace count with (Z.of_nat n) by (unfold n; lia).
    apply decode_registers_ok. lia.
  - exists request. rewrite E. do 3 f_equal.
    apply shown_register_lines; lia.
Qed.

(** C6: decoding a matching response gives exactly [count] values in
    ascending address order.  For a bit space (count in 1..2000, byte count
    ceil(count / 8)) the unpacking loop produces 8 * byteCount candidates,
    candidate k being bit k mod 8 of payload byte k / 8, and the first
    [count] of them are printed as addresses address, address + 1, ...; for
    a register space (count in 1..125, byte count 2 * count) the [count]
    decoded registers are printed in the same way.  The printed lines are
    those of a response the method treats as a normal one. *)
Theorem read_response_values (address transaction_id count : Z)
  (response : bytes) :
  u16 address -> u16 transaction_id ->
  (1 <= count <= 2000 ->
   byte_at response 8 = ceil_div8 count ->
   Z.of_nat (length response) = 9 + ceil_div8 count ->
   exists candidates,
     unpack_coils response (byte_at response 8) = ret candidates /\
     Z.of_nat (length candidates) = 8 * byte_at response 8 /\
     (forall k, (k < length candidates)%nat ->
        nth k candidates 0 = coil_at response k) /\
     shown count candidates = firstn (Z.to_nat count) candidates /\
     Z.of_nat (length (shown count candidates)) = count /\
     print_registers address count 0 candidates =
       (map (fun k =>
               PrintRegister (address + Z.of_nat k) (coil_at response k))
          (seq 0 (Z.to_nat count)),
        Ok tt) /\
     (exception_flagged response = false ->
      (exists request,
         read_coils address transaction_id count response =
           (Send request ::
              header_lines response ++
              map (fun k =>
                     PrintRegister (address + Z.of_nat k) (coil_at response k))
                (seq 0 (Z.to_nat count)),
            Ok tt)) /\
      (exists request,
         read_discrete_inputs address transaction_id count response =
           (Send request ::
              header_lines response ++
              map (fun k =>
                     PrintRegister (address + Z.of_nat k) (coil_at response k))
                (seq 0 (Z.to_nat count)),
            Ok tt)))) /\
  (1 <= count <= 125 ->
   byte_at response 8 = 2 * count ->
   Z.of_nat (length response) = 9 + 2 * count ->
   decode_registers response (byte_at response 8) =
     ret (map (register_at response) (seq 0 (Z.to_nat count))) /\
   print_registers address count 0
     (map (register_at response) (seq 0 (Z.to_nat count))) =
     (map (fun k =>
             PrintRegister (address + Z.of_nat k) (register_at response k))
        (seq 0 (Z.to_nat count)),
      Ok tt) /\
   (exception_flagged response = false ->
    (exists request,
       read_holding_registers address transaction_id count response =
         (Send request ::
            header_lines response ++
            map (fun k =>
                   PrintRegister (address + Z.of_nat k)
                     (register_at response k))
              (seq 0 (Z.to_nat count)),
          Ok tt)) /\
    (exists request,
       read_input_registers address transaction_id count response =
         (Send request ::
            header_lines response ++
            map (fun k =>
                   PrintRegister (address + Z.of_nat k)
                     (register_at response k))
              (seq 0 (Z.to_nat count)),
          Ok tt)))).
Proof.
  intros Ha Ht. split.
  - intros Hc Hb Hl. pose proof (ceil_div8_bounds count) as Hcb.
    set (n := Z.to_nat (ceil_div8 count)).
    assert (length (firstn n (skipn 9 response)) = n) as Hn
      by (rewrite firstn_length_le; [reflexivity
                                    | rewrite length_skipn; unfold n; lia]).
    exists (flat_map byte_bits (firstn n (skipn 9 response))).
    split; [rewrite Hb; apply unpack_coils_ok; lia|].
    split; [rewrite byte_bits_length, Hn, Hb; unfold n; lia|].
    split.
    { intros k Hk. rewrite byte_bits_length, Hn in Hk.
      apply candidates_nth; unfold n in *; lia. }
    assert (shown count (flat_map byte_bits (firstn n (skipn 9 response))) =
            firstn (Z.to_nat count)
              (flat_map byte_bits (firstn n (skipn 9 response)))) as Hs
      by (unfold shown; destruct (Z.leb_spec 1 count); [reflexivity | lia]).
    split; [exact Hs|].
    split.
    { rewrite Hs, firstn_length_le; [lia|].
      rewrite byte_bits_length, Hn. unfold n. lia. }
    split.
    { rewrite print_registers_shown. f_equal.
      apply shown_coil_lines; lia. }
    intros Hf. split.
    + rewrite read_coils_eq. apply bit_read_lines; auto; try lia.
      auto with modbus.
    + rewrite read_discrete_inputs_eq. apply bit_read_lines; auto; try lia.
      auto with modbus.
  - intros Hc Hb Hl. split.
    + rewrite Hb. rewrite <- (Z2Nat.id count) at 1 by lia.
      apply decode_registers_ok. lia.
    + split.
      { rewrite print_registers_shown. f_equal.
        apply shown_register_lines; lia. }
      intros Hf. split.
      * rewrite read_holding_registers_eq.
        apply register_read_lines; auto; try lia.
        auto with modbus.
      * rewrite read_input_registers_eq.
        apply register_read_lines; auto; try lia.
        auto with modbus.
Qed.

Lemma read_response_values_witness :
  exists request,
    read_coils 7 1 9 [x00; x01; x00; x00; x00; x05; x01; x01; x02; x8d; x01] =
      (Send request ::
         header_lines
           [x00; x01; x00; x00; x00; x05; x01; x01; x02; x8d; x01] ++
         [PrintRegister 7 1; PrintRegister 8 0; PrintRegister 9 1;
          PrintRegister 10 1; PrintRegister 11 0; PrintRegister 12 0;
          PrintRegister 13 0; PrintRegister 14 1; PrintRegister 15 1],
       Ok tt).
Proof.
  destruct (read_response_values 7 1 9
              [x00; x01; x00; x00; x00; x05; x01; x01; x02; x8d; x01])
    as [B _]; [unfold u16; lia | unfold u16; lia |].
  destruct B as [candidates [_ [_ [_ [_ [_ [_ R]]]]]]];
    [lia | reflexivity | reflexivity |].
  destruct (R eq_refl) as [C _]. exact C.
Defined.

Lemma reply_truncated_lines (decode : bytes -> Z -> io (list Z))
  (address count : Z) (response : bytes) :
  response <> [] ->
  exception_flagged response = false ->
  ((length response < 9)%nat \/
   decode response (byte_at response 8) = raise IndexError) ->
  reply decode address count response =
    (header_read response, Raise IndexError).
Proof.
  intros Hne Hf Hs.
  destruct (Nat.lt_ge_cases (length response) 9) as [L | L].
  - destruct response
      as [|b0 [|b1 [|b2 [|b3 [|b4 [|b5 [|b6 [|b7 [|b8 rest]]]]]]]]];
      simpl in L; try lia; try congruence; try reflexivity;
      (rewrite reply_enter by (simpl; lia)); rewrite Hf; reflexivity.
  - destruct Hs as [Hs | Hs]; [lia|].
    rewrite reply_enter by lia. rewrite Hf.
    rewrite print_header_ok by assumption.
    unfold bind at 1. rewrite Hs. unfold raise.
    destruct response
      as [|b0 [|b1 [|b2 [|b3 [|b4 [|b5 [|b6 [|b7 [|b8 rest]]]]]]]]];
      simpl in L; try lia.
    reflexivity.
Qed.

Lemma read_truncated_lines (decode : bytes -> Z -> io (list Z))
  (address transaction_id function_code count : Z) (response : bytes) :
  u16 address -> u16 transaction_id -> u16 count ->
  read_function_code function_code ->
  response <> [] ->
  exception_flagged response = false ->
  ((length response < 9)%nat \/
   decode response (byte_at response 8) = raise IndexError) ->
  exists request,
    ints request =
      mbap transaction_id 6 1 function_code ++
      [address / 256; address mod 256; count / 256; count mod 256] /\
    (_build_packet_reading address transaction_id function_code 1 count ;;;
     reply decode address count response) =
    (Send request :: header_read response, Raise IndexError).
Proof.
  intros Ha Ht Hc Hfc Hne Hf Hs.
  destruct (after_request address transaction_id function_code count
              (reply decode address count response) Ha Ht Hc Hfc)
    as [request [Hr E]].
  exists request. split; [exact Hr|]. rewrite E.
  rewrite (reply_truncated_lines decode address count response Hne Hf Hs).
  reflexivity.
Qed.




(** C1: the exception test of the program reads offset 1 and takes the
    code from offset 2, while the function code it prints is the byte at
    offset 7.  The exception response 83 02 to a ReadHoldingRegisters
    request is therefore not reported as "Illegal data address": its byte at
    offset 1 is the low byte of the transaction id, the method goes on to
    decode registers and ends with [IndexError].  The table itself maps
    code 2 to "Illegal data address" and a code outside 1..4, such as 11, to
    "Unknown exception".  A normal response to transaction 128 is, the other
    way round, reported as an exception. *)
Theorem exception_response_offsets :
  read_holding_registers 0 1 1
    [x00; x01; x00; x00; x00; x03; x01; x83; x02] =
    ([Send [x00; x01; x00; x00; x00; x06; x01; x03; x00; x00; x00; x01];
      PrintField "Transaction Identifier:" 1;
      PrintField "Protocol Identifier:" 0;
      PrintField "Response length:" 3;
      PrintField "Unit identifier:" 1;
      PrintField "Function code:" 131;
      PrintField "Byte count:" 2],
     Raise IndexError) /\
  exception_flagged [x00; x01; x00; x00; x00; x03; x01; x83; x02] = false /\
  _error_display 2 = raise (Exception "Illegal data address") /\
  _error_display 11 = raise (Exception "Unknown exception") /\
  read_holding_registers 0 128 1
    [x00; x80; x00; x00; x00; x05; x01; x03; x02; xff; xff] =
    ([Send [x00; x80; x00; x00; x00; x06; x01; x03; x00; x00; x00; x01]],
     Raise (Exception "Unknown exception")).
Proof.
  repeat split.
Qed.

(** ** The length field *)

Lemma declared_length_header (header rest : bytes) (a0 a1 a2 a3 len : Z)
  (more : list Z) :
  ints header = a0 :: a1 :: a2 :: a3 :: 0 :: len :: more ->
  declared_length (header ++ rest) = ret len.
Proof.
  intros H.
  destruct header as [|h0 [|h1 [|h2 [|h3 [|h4 [|h5 tl]]]]]]; try discriminate.
  injection H as _ _ _ _ E4 E5 _.
  unfold declared_length, slice. cbn [app skipn firstn Nat.sub ints map].
  rewrite E4, E5. reflexivity.
Qed.

Lemma send_inv (packet : bytes) (t : list event) (r : result unit) :
  _send_packet packet = (t, r) -> t = [Send packet].
Proof. intros H. inversion H. reflexivity. Qed.

(** Runs the first [struct.pack] of hypothesis [H], which ends normally. *)
Ltac pack_in H bs E :=
  match type of H with
  | context [struct_pack ?n ?args] =>
      destruct (struct_pack_cases n args) as [[bs E] | E];
      rewrite E in H;
      [rewrite bind_ret in H; apply struct_pack_inv in E
      | try rewrite bind_raise in H; try discriminate H]
  end.

Lemma append_registers_inv (values : list Z) :
  forall (packet p : bytes) (t : list event),
    append_registers values packet = (t, Ok p) ->
    t = [] /\ exists bs, p = packet ++ bs /\
                         (length bs = 2 * length values)%nat.
Proof.
  induction values as [|v rest IH]; intros packet p t H.
  - inversion H. split; [reflexivity|]. exists [].
    rewrite app_nil_r. split; reflexivity.
  - cbn [append_registers] in H. rewrite decimal_to_bytes_eq in H.
    pack_in H two E. destruct E as [_ [_ [L _]]].
    destruct (IH _ _ _ H) as [Et [bs [Ep Lb]]].
    split; [exact Et|]. exists (two ++ bs).
    rewrite Ep, app_assoc. split; [reflexivity|].
    rewrite length_app. simpl length. lia.
Qed.

Lemma reading_length_field
  (address transaction_id function_code id count : Z) (t : list event) :
  _build_packet_reading address transaction_id function_code id count =
    (t, Ok tt) ->
  length_field_exact t 6.
Proof.
  unfold _build_packet_reading. rewrite !decimal_to_bytes_eq. intros H.
  pack_in H packet E. destruct E as [_ [Hp [L _]]].
  exists packet. split; [exact (send_inv _ _ _ H)|]. split.
  - rewrite <- (app_nil_r packet).
    eapply declared_length_header. exact Hp.
  - rewrite L. reflexivity.
Qed.

Lemma single_register_length_field
  (address transaction_id id : Z) (values : list Z) (t : list event) :
  _build_packet_writing address transaction_id WRITE_SINGLE_REGISTER id values
    = (t, Ok tt) ->
  length_field_exact t 6.
Proof.
  unfold _build_packet_writing. rewrite !decimal_to_bytes_eq.
  change (WRITE_SINGLE_REGISTER =? WRITE_SINGLE_REGISTER) with true. cbv iota.
  intros H. destruct values as [|v rest]; [discriminate H|].
  change (getitem (v :: rest) 0) with (@ret Z v) in H.
  rewrite bind_ret, decimal_to_bytes_eq in H.
  pack_in H packet E. destruct E as [_ [Hp [L _]]].
  exists packet. split; [exact (send_inv _ _ _ H)|]. split.
  - rewrite <- (app_nil_r packet).
    eapply declared_length_header. exact Hp.
  - rewrite L. reflexivity.
Qed.

Lemma single_coil_length_field
  (address transaction_id id : Z) (values : list Z) (t : list event) :
  _build_packet_writing address transaction_id WRITE_SINGLE_COIL id values
    = (t, Ok tt) ->
  length_field_exact t 6.
Proof.
  unfold _build_packet_writing. rewrite !decimal_to_bytes_eq.
  change (WRITE_SINGLE_COIL =? WRITE_SINGLE_REGISTER) with false.
  change (WRITE_SINGLE_COIL =? WRITE_MULTIPLE_REGISTERS) with false.
  change (WRITE_SINGLE_COIL =? WRITE_SINGLE_COIL) with true. cbv iota.
  intros H. destruct values as [|v rest]; [discriminate H|].
  change (getitem (v :: rest) 0) with (@ret Z v) in H.
  rewrite bind_ret in H.
  pack_in H packet E. destruct E as [_ [Hp [L _]]].
  exists packet. split; [exact (send_inv _ _ _ H)|]. split.
  - rewrite <- (app_nil_r packet).
    eapply declared_length_header. exact Hp.
  - rewrite L. reflexivity.
Qed.

Lemma multiple_registers_length_field
  (address transaction_id id : Z) (values : list Z) (t : list event) :
  _build_packet_writing address transaction_id WRITE_MULTIPLE_REGISTERS id
    values = (t, Ok tt) ->
  length_field_exact t (7 + 2 * Z.of_nat (length values)).
Proof.
  unfold _build_packet_writing. rewrite !decimal_to_bytes_eq.
  change (WRITE_MULTIPLE_REGISTERS =? WRITE_SINGLE_REGISTER) with false.
  change (WRITE_MULTIPLE_REGISTERS =? WRITE_MULTIPLE_REGISTERS) with true.
  cbv iota. intros H.
  pack_in H header E. destruct E as [_ [Hp [L _]]].
  destruct (append_registers values header) as [t' [p | e]] eqn:Ea;
    [|discriminate H].
  destruct (append_registers_inv _ _ _ _ Ea) as [-> [bs [-> Lb]]].
  change (@nil event, Ok (header ++ bs)) with (ret (header ++ bs)) in H.
  rewrite bind_ret in H.
  exists (header ++ bs). split; [exact (send_inv _ _ _ H)|]. split.
  - replace (7 + 2 * Z.of_nat (length values))
      with (7 + Z.of_nat (length values) * 2) by lia.
    eapply declared_length_header. exact Hp.
  - rewrite length_app, L, Lb. lia.
Qed.

Lemma multiple_coils_length_field
  (address transaction_id id : Z) (values : list Z) (t : list event) :
  Forall is_bit values ->
  _build_packet_writing address transaction_id WRITE_MULTIPLE_COILS id values
    = (t, Ok tt) ->
  length_field_exact t (7 + ceil_div8 (Z.of_nat (length values))).
Proof.
  intros Hb. unfold _build_packet_writing. rewrite !decimal_to_bytes_eq.
  change (WRITE_MULTIPLE_COILS =? WRITE_SINGLE_REGISTER) with false.
  change (WRITE_MULTIPLE_COILS =? WRITE_MULTIPLE_REGISTERS) with false.
  change (WRITE_MULTIPLE_COILS =? WRITE_SINGLE_COIL) with false.
  cbv iota. intros H.
  pack_in H header E. destruct E as [_ [Hp [L _]]].
  destruct (append_coils_ok values header Hb) as [packed [Ea [Lp _]]].
  rewrite Ea, !bind_ret in H.
  exists (header ++ packed). split; [exact (send_inv _ _ _ H)|]. split.
  - eapply declared_length_header. exact Hp.
  - rewrite length_app, L. lia.
Qed.

Lemma bind_silent {A B} (m : io A) (k : A -> io B) :
  trace m = [] -> (forall a, trace (k a) = []) -> trace (bind m k) = [].
Proof.
  intros Hm Hk. destruct m as [t [a | e]]; cbn in Hm; subst t.
  - specialize (Hk a). unfold bind. destruct (k a) as [t' r].
    exact Hk.
  - reflexivity.
Qed.

Lemma getitem_silent {A} (l : list A) (i : Z) : trace (getitem l i) = [].
Proof.
  unfold getitem. cbv zeta.
  destruct (_ <? 0) in |- *; [reflexivity|].
  destruct (nth_error _ _); reflexivity.
Qed.

Lemma int_of_char_silent (c : ascii) : trace (int_of_char c) = [].
Proof. unfold int_of_char. cbv zeta. destruct (_ && _)%bool; reflexivity. Qed.

Lemma nibble_loop_silent (value : list ascii) (i : Z) (n : nat) :
  forall j acc, trace (for_range n j 1 (nibble_step value i) acc) = [].
Proof.
  induction n as [|n IH]; intros j acc; [reflexivity|].
  cbn [for_range]. apply bind_silent; [|intros acc'; apply IH].
  unfold nibble_step. destruct acc as [byte_1 byte_2].
  apply bind_silent; [apply getitem_silent|]. intros c_lo.
  apply bind_silent; [apply int_of_char_silent|]. intros d_lo.
  apply bind_silent; [apply getitem_silent|]. intros c_hi.
  apply bind_silent; [apply int_of_char_silent|]. intros d_hi.
  reflexivity.
Qed.

(** A turn of the packing loop that returns has appended one byte. *)
Lemma coil_byte_step_inv (value : list ascii) (i : Z) (packet p : bytes)
  (t : list event) :
  coil_byte_step value i packet = (t, Ok p) ->
  t = [] /\ exists one, p = packet ++ one /\ length one = 1%nat.
Proof.
  unfold coil_byte_step, for_in_range. intros H.
  pose proof (nibble_loop_silent value i (range_len 0 4 1) 0 (0, 0)) as T.
  destruct (for_range (range_len 0 4 1) 0 1 (nibble_step value i) (0, 0))
    as [t1 [[byte_1 byte_2] | e]]; cbn in T; subst t1; [|discriminate H].
  change (@nil event, Ok (byte_1, byte_2)) with (ret (byte_1, byte_2)) in H.
  rewrite bind_ret in H.
  pack_in H packed E. destruct E as [_ [_ [L _]]].
  inversion H. split; [reflexivity|]. exists packed. split; [reflexivity|].
  exact L.
Qed.

Lemma coil_loop_inv (value : list ascii) (n : nat) :
  forall (i : Z) (packet p : bytes) (t : list event),
    for_range n i 8 (coil_byte_step value) packet = (t, Ok p) ->
    t = [] /\ exists bs, p = packet ++ bs /\ length bs = n.
Proof.
  induction n as [|n IH]; intros i packet p t H.
  - inversion H. split; [reflexivity|]. exists [].
    rewrite app_nil_r. split; reflexivity.
  - cbn [for_range] in H.
    destruct (coil_byte_step value i packet) as [t1 [p1 | e]] eqn:E1;
      [|discriminate H].
    destruct (coil_byte_step_inv _ _ _ _ _ E1) as [-> [one [-> L1]]].
    change (@nil event, Ok (packet ++ one)) with (ret (packet ++ one)) in H.
    rewrite bind_ret in H.
    destruct (IH _ _ _ _ H) as [Et [bs [Ep Lb]]].
    split; [exact Et|]. exists (one ++ bs).
    rewrite Ep, app_assoc. split; [reflexivity|].
    rewrite length_app. lia.
Qed.

(** The data bytes appended for any list of values, when the packing
    returns: one for every eight characters of the padded text. *)
Lemma append_coils_inv (values : list Z) (packet p : bytes)
  (t : list event) :
  append_coils values (ceil_div8 (Z.of_nat (length values))) packet =
    (t, Ok p) ->
  t = [] /\ exists bs, p = packet ++ bs /\
                       Z.of_nat (length bs) = coil_data_bytes values.
Proof.
  unfold append_coils, for_in_range. cbv zeta. intros H.
  destruct (coil_loop_inv _ _ _ _ _ _ H) as [Et [bs [Ep Lb]]].
  split; [exact Et|]. exists bs. split; [exact Ep|].
  rewrite Lb. unfold range_len, ljust, coil_data_bytes, coil_text, ceil_div8.
  rewrite length_app, repeat_length.
  set (T := length (concat (map str values))).
  set (count := length values).
  rewrite Z2Nat.id by (apply Z.div_pos; lia).
  Z.div_mod_to_equations. lia.
Qed.

Lemma multiple_coils_frame_length
  (address transaction_id id : Z) (values : list Z) (t : list event) :
  _build_packet_writing address transaction_id WRITE_MULTIPLE_COILS id values
    = (t, Ok tt) ->
  exists packet,
    t = [Send packet] /\
    declared_length packet =
      ret (7 + ceil_div8 (Z.of_nat (length values))) /\
    Z.of_nat (length packet) - 6 = 7 + coil_data_bytes values.
Proof.
  unfold _build_packet_writing. rewrite !decimal_to_bytes_eq.
  change (WRITE_MULTIPLE_COILS =? WRITE_SINGLE_REGISTER) with false.
  change (WRITE_MULTIPLE_COILS =? WRITE_MULTIPLE_REGISTERS) with false.
  change (WRITE_MULTIPLE_COILS =? WRITE_SINGLE_COIL) with false.
  cbv iota. intros H.
  pack_in H header E. destruct E as [_ [Hp [L _]]].
  destruct (append_coils values (ceil_div8 (Z.of_nat (length values)))
              header) as [t' [p | e]] eqn:Ea; [|discriminate H].
  destruct (append_coils_inv _ _ _ _ Ea) as [-> [bs [-> Lb]]].
  change (@nil event, Ok (header ++ bs)) with (ret (header ++ bs)) in H.
  rewrite bind_ret in H.
  exists (header ++ bs). split; [exact (send_inv _ _ _ H)|]. split.
  - eapply declared_length_header. exact Hp.
  - rewrite length_app, L. lia.
Qed.

(** C9, as the program has it: in every request frame the encoder
    produces, the length field is the number of bytes that follow it for
    the four read requests, WriteSingleCoil and WriteSingleRegister (6) and
    for WriteMultipleRegisters (7 + 2 * count).  For WriteMultipleCoils the
    field always declares 7 + ceil(count / 8), while the frame carries one
    data byte for every eight characters of the decimal text of the values:
    the field is exact when every value is 0 or 1, and for any list of
    values the bytes that follow number
    7 + max(ceil(count / 8), ceil(characters / 8)). *)
Theorem length_field_matches (address transaction_id : Z) :
  (forall function_code count t,
     read_function_code function_code ->
     _build_packet_reading address transaction_id function_code 1 count =
       (t, Ok tt) ->
     length_field_exact t 6) /\
  (forall values t,
     _build_packet_writing address transaction_id WRITE_SINGLE_COIL 1 values
       = (t, Ok tt) ->
     length_field_exact t 6) /\
  (forall values t,
     _build_packet_writing address transaction_id WRITE_SINGLE_REGISTER 1
       values = (t, Ok tt) ->
     length_field_exact t 6) /\
  (forall values t,
     _build_packet_writing address transaction_id WRITE_MULTIPLE_REGISTERS 1
       values = (t, Ok tt) ->
     length_field_exact t (7 + 2 * Z.of_nat (length values))) /\
  (forall values t,
     Forall is_bit values ->
     _build_packet_writing address transaction_id WRITE_MULTIPLE_COILS 1
       values = (t, Ok tt) ->
     length_field_exact t (7 + ceil_div8 (Z.of_nat (length values)))) /\
  (forall values t,
     _build_packet_writing address transaction_id WRITE_MULTIPLE_COILS 1
       values = (t, Ok tt) ->
     exists packet,
       t = [Send packet] /\
       declared_length packet =
         ret (7 + ceil_div8 (Z.of_nat (length values))) /\
       Z.of_nat (length packet) - 6 = 7 + coil_data_bytes values).
Proof.
  split; [|split; [|split; [|split; [|split]]]].
  - intros function_code count t _. apply reading_length_field.
  - intros values t. apply single_coil_length_field.
  - intros values t. apply single_register_length_field.
  - intros values t. apply multiple_registers_length_field.
  - intros values t. apply multiple_coils_length_field.
  - intros values t. apply multiple_coils_frame_length.
Qed.

Lemma length_field_matches_witness :
  length_field_exact
    [Send [x00; x01; x00; x00; x00; x06; x01; x03; x00; x10; x00; x7d]] 6 /\
  length_field_exact
    [Send [x00; x01; x00; x00; x00; x0d; x01; x10; x00; x05; x00; x03; x06;
           xff; xff; x7f; xff; x80; x00]] 13 /\
  length_field_exact
    [Send [x00; x01; x00; x00; x00; x09; x01; x0f; x00; x05; x00; x09; x02;
           x8d; x01]] 9.
Proof.
  destruct (length_field_matches 16 1) as [R _].
  destruct (length_field_matches 5 1) as [_ [_ [_ [M [C _]]]]].
  split; [|split].
  - apply (R READ_HOLDING_REGISTERS 125).
    + right; right; left; reflexivity.
    + reflexivity.
  - apply (M [-1; 32767; -32768]). reflexivity.
  - apply (C [1; 0; 1; 1; 0; 0; 0; 1; 1]).
    + repeat constructor; unfold is_bit; lia.
    + reflexivity.
Defined.

(** C9, counterexample: WriteMultipleCoils for eight values 10, which the
    menu accepts, sends a frame whose length field declares 8 while 9 bytes
    follow it: the text of the values has 16 characters and is packed into
    two data bytes, the byte count and the length field reckon with one. *)
Lemma length_field_counterexample :
  _build_packet_writing 5 1 WRITE_MULTIPLE_COILS 1
    [10; 10; 10; 10; 10; 10; 10; 10] =
    ([Send [x00; x01; x00; x00; x00; x08; x01; x0f; x00; x05; x00; x08; x01;
            x55; x55]], Ok tt) /\
  declared_length
    [x00; x01; x00; x00; x00; x08; x01; x0f; x00; x05; x00; x08; x01;
     x55; x55] = ret 8 /\
  Z.of_nat
    (length [x00; x01; x00; x00; x00; x08; x01; x0f; x00; x05; x00; x08; x01;
             x55; x55]) - 6 = 9 /\
  forall len,
    ~ length_field_exact
        [Send [x00; x01; x00; x00; x00; x08; x01; x0f; x00; x05; x00; x08;
               x01; x55; x55]] len.
Proof.
  split; [reflexivity|]. split; [reflexivity|]. split; [reflexivity|].
  intros len [packet [E [D L]]]. injection E as <-.
  vm_compute in D. vm_compute in L. congruence.
Qed.


(** * Further properties of the program *)

(** ** The exception table and the conversion helpers *)

(** [_error_display] never returns and prints nothing; the message it
    raises tells the codes 1, 2, 3 and 4 apart, and is the same for every
    other code. *)
Theorem error_display_messages (c1 c2 : Z) :
  (exists msg, _error_display c1 = ([], Raise (Exception msg))) /\
  (_error_display c1 = _error_display c2 <->
   c1 = c2 \/ ((c1 < 1 \/ 4 < c1) /\ (c2 < 1 \/ 4 < c2))).
Proof.
  unfold _error_display, ILLEGAL_FUNCTION, ILLEGAL_DATA_ADDRESS,
    ILLEGAL_DATA_VALUE, SERVER_DEVICE_FAILURE, raise.
  split.
  - destruct (c1 =? 1); [eauto|]. destruct (c1 =? 2); [eauto|].
    destruct (c1 =? 3); [eauto|]. destruct (c1 =? 4); eauto.
  - destruct (Z.eqb_spec c1 1), (Z.eqb_spec c1 2), (Z.eqb_spec c1 3),
      (Z.eqb_spec c1 4), (Z.eqb_spec c2 1), (Z.eqb_spec c2 2),
      (Z.eqb_spec c2 3), (Z.eqb_spec c2 4);
      try lia; (split; [intros H; try discriminate H; lia | reflexivity])
      || (split; [intros H; try discriminate H; lia | intros H; exfalso; lia]).
Qed.

(** [bytes_to_dec] undoes [decimal_to_bytes] on every integer, not only on
    16-bit ones; the low half is always a byte, and the high half is a byte
    exactly for the numbers 0..65535. *)
Theorem decimal_bytes_any_integer (num : Z) :
  bytes_to_dec [fst (decimal_to_bytes num); snd (decimal_to_bytes num)] =
    ret num /\
  0 <= snd (decimal_to_bytes num) <= 255 /\
  (0 <= fst (decimal_to_bytes num) <= 255 <-> 0 <= num <= 65535).
Proof.
  rewrite decimal_to_bytes_eq. cbn [fst snd].
  pose proof (Z.div_mod num 256) as D.
  pose proof (Z.mod_pos_bound num 256) as M.
  split; [|split; [lia|]].
  - unfold bytes_to_dec.
    rewrite (getitem_nth _ 0 0) by (simpl; lia). rewrite bind_ret.
    rewrite (getitem_nth _ 1 0) by (simpl; lia). rewrite bind_ret.
    simpl nth. change (16 ^ 2) with 256. do 2 f_equal. lia.
  - split; intros H; [lia|].
    apply (decimal_to_bytes_range num H).
Qed.

(** The other way round: a byte pair read by [bytes_to_dec] and split again
    by [decimal_to_bytes] is the same pair, whenever the low item is a
    byte. *)
Theorem bytes_dec_bytes (b0 b1 : Z) :
  0 <= b1 <= 255 ->
  bytes_to_dec [b0; b1] = ret (b0 * 256 + b1) /\
  decimal_to_bytes (b0 * 256 + b1) = (b0, b1).
Proof.
  intros H. split; [reflexivity|].
  rewrite decimal_to_bytes_eq. f_equal.
  - rewrite Z.div_add_l by lia. rewrite Z.div_small; lia.
  - rewrite Z.add_comm, Z.mod_add by lia. apply Z.mod_small. lia.
Qed.

Lemma bytes_dec_bytes_witness :
  bytes_to_dec [-3; 200] = ret (-568) /\ decimal_to_bytes (-568) = (-3, 200).
Proof. apply (bytes_dec_bytes (-3) 200). lia. Defined.

(** ** The read request *)

Lemma byte_range_dec (z : Z) : in_byte_range z \/ (z < 0 \/ 255 < z).
Proof. unfold in_byte_range. lia. Qed.

Lemma high_byte_dec (z : Z) : u16 z \/ (z / 256 < 0 \/ 255 < z / 256).
Proof.
  unfold u16. destruct (Z_lt_dec z 0) as [N | N].
  - right. left. apply Z.div_lt_upper_bound; lia.
  - destruct (Z_le_dec z 65535) as [L | L]; [left; lia|].
    right. right.
    assert (256 <= z / 256) by (apply Z.div_le_lower_bound; lia). lia.
Qed.

(** [_build_packet_reading] accepts exactly the arguments that fit their
    fields: address, transaction id and count in 0..65535, unit id and
    function code in 0..255.  Then one 12-byte frame is sent; otherwise
    [struct.error] is raised and nothing is sent. *)
Theorem read_request_domain (address transaction_id function_code id count : Z) :
  (u16 address /\ u16 transaction_id /\ u16 count /\
   in_byte_range function_code /\ in_byte_range id ->
   exists packet,
     _build_packet_reading address transaction_id function_code id count =
       ([Send packet], Ok tt) /\
     length packet = 12%nat) /\
  (~ (u16 address /\ u16 transaction_id /\ u16 count /\
      in_byte_range function_code /\ in_byte_range id) ->
   _build_packet_reading address transaction_id function_code id count =
     ([], Raise StructError)).
Proof.
  split.
  - intros [Ha [Ht [Hc [Hf Hi]]]].
    destruct (build_reading_ok address transaction_id function_code id count)
      as [packet [E Hp]]; auto.
    exists packet. split; [exact E|].
    rewrite <- ints_length, Hp. reflexivity.
  - intros N. unfold _build_packet_reading. rewrite !decimal_to_bytes_eq.
    rewrite struct_pack_error; [reflexivity|].
    destruct (high_byte_dec transaction_id) as [Ht | Ht];
      [|apply Exists_cons_hd; exact Ht].
    destruct (byte_range_dec id) as [Hi | Hi];
      [|do 6 apply Exists_cons_tl; apply Exists_cons_hd; exact Hi].
    destruct (byte_range_dec function_code) as [Hf | Hf];
      [|do 7 apply Exists_cons_tl; apply Exists_cons_hd; exact Hf].
    destruct (high_byte_dec address) as [Ha | Ha];
      [|do 8 apply Exists_cons_tl; apply Exists_cons_hd; exact Ha].
    destruct (high_byte_dec count) as [Hc | Hc];
      [|do 10 apply Exists_cons_tl; apply Exists_cons_hd; exact Hc].
    exfalso. apply N. auto.
Qed.

Lemma read_request_domain_witness :
  (exists packet,
     _build_packet_reading 65535 65535 READ_COILS 255 65535 =
       ([Send packet], Ok tt) /\ length packet = 12%nat) /\
  _build_packet_reading (-1) 1 READ_COILS 1 1 = ([], Raise StructError).
Proof.
  split.
  - apply (read_request_domain 65535 65535 READ_COILS 255 65535).
    unfold u16, in_byte_range, READ_COILS. lia.
  - apply (read_request_domain (-1) 1 READ_COILS 1 1).
    unfold u16. lia.
Defined.

Lemma ints_slice (l : bytes) (a b : nat) :
  ints (slice l a b) = slice (ints l) a b.
Proof. unfold ints, slice. rewrite skipn_map, firstn_map. reflexivity. Qed.

Lemma bytes_to_dec_halves (z : Z) : bytes_to_dec [z / 256; z mod 256] = ret z.
Proof.
  change (bytes_to_dec [z / 256; z mod 256])
    with (@ret Z (z / 256 * 16 ^ 2 + z mod 256)).
  change (16 ^ 2) with 256. do 2 f_equal.
  pose proof (Z.div_mod z 256). lia.
Qed.

(** The fields of a read request can be read back from the frame with the
    program's own [bytes_to_dec]: transaction id, protocol id 0, length 6,
    unit id, function code, address and count. *)
Theorem read_request_fields
  (address transaction_id function_code id count : Z) (t : list event) :
  _build_packet_reading address transaction_id function_code id count =
    (t, Ok tt) ->
  exists packet,
    t = [Send packet] /\
    bytes_to_dec (ints (slice packet 0 2)) = ret transaction_id /\
    bytes_to_dec (ints (slice packet 2 4)) = ret 0 /\
    bytes_to_dec (ints (slice packet 4 6)) = ret 6 /\
    byte_at packet 6 = id /\
    byte_at packet 7 = function_code /\
    bytes_to_dec (ints (slice packet 8 10)) = ret address /\
    bytes_to_dec (ints (slice packet 10 12)) = ret count.
Proof.
  unfold _build_packet_reading. rewrite !decimal_to_bytes_eq. intros H.
  pack_in H frame E. destruct E as [_ [Hp [L _]]].
  exists frame. split; [exact (send_inv _ _ _ H)|].
  unfold byte_at. rewrite !ints_slice.
  assert (forall i, int_of_byte (nth i frame x00) = nth i (ints frame) 0) as N.
  { intros i. unfold ints.
    change 0 with (int_of_byte x00) at 1. rewrite map_nth. reflexivity. }
  rewrite !N, Hp. unfold slice. cbn [skipn firstn Nat.sub nth].
  rewrite !bytes_to_dec_halves. repeat split; reflexivity.
Qed.

Lemma read_request_fields_witness :
  exists packet,
    [Send [x12; x34; x00; x00; x00; x06; x01; x03; x01; x00; x00; x7d]] =
      [Send packet] /\
    bytes_to_dec (ints (slice packet 0 2)) = ret 4660 /\
    bytes_to_dec (ints (slice packet 8 10)) = ret 256 /\
    bytes_to_dec (ints (slice packet 10 12)) = ret 125.
Proof.
  destruct (read_request_fields 256 4660 READ_HOLDING_REGISTERS 1 125
              [Send [x12; x34; x00; x00; x00; x06; x01; x03; x01; x00; x00;
                     x7d]] eq_refl)
    as [packet [E [T [_ [_ [_ [_ [A C]]]]]]]].
  exists packet. auto.
Defined.

(** ** Write requests are sent whole or not at all *)

Lemma builds_ret {A} (P : A -> Prop) (a : A) : P a -> builds P (ret a).
Proof.
  intros H. split; [split; [reflexivity | discriminate]|].
  intros a' E. inversion E. subst. exact H.
Qed.

Lemma builds_raise {A} (P : A -> Prop) (e : exn) :
  builtin_error e -> builds P (raise e).
Proof.
  intros H. split; [split; [reflexivity|] | discriminate].
  intros e' E. inversion E. subst. exact H.
Qed.

Lemma builds_weaken {A} (P Q : A -> Prop) (m : io A) :
  (forall a, P a -> Q a) -> builds P m -> builds Q m.
Proof. intros I [Hq Hp]. split; auto. Qed.

Lemma builds_bind {A B} (P : A -> Prop) (Q : B -> Prop) (m : io A)
  (k : A -> io B) :
  builds P m -> (forall a, P a -> builds Q (k a)) -> builds Q (bind m k).
Proof.
  intros [[Tm Em] Pm] Hk. destruct m as [t [a | e]]; cbn in Tm; subst t.
  - change (@nil event, Ok a) with (ret a). rewrite bind_ret.
    apply Hk. apply Pm. reflexivity.
  - apply builds_raise. apply Em. reflexivity.
Qed.

Lemma builds_getitem {A} (l : list A) (i : Z) :
  builds (fun _ => True) (getitem l i).
Proof.
  unfold getitem. destruct (_ <? 0).
  - apply builds_raise. left. reflexivity.
  - destruct (nth_error l _).
    + apply builds_ret. exact I.
    + apply builds_raise. left. reflexivity.
Qed.

Lemma builds_int_of_char (c : ascii) : builds (fun _ => True) (int_of_char c).
Proof.
  unfold int_of_char. destruct (_ && _)%bool.
  - apply builds_ret. exact I.
  - apply builds_raise. right; right. reflexivity.
Qed.

Lemma builds_struct_pack (n : nat) (args : list Z) :
  builds (fun p => ints p = args /\ length p = n) (struct_pack n args).
Proof.
  destruct (struct_pack_cases n args) as [[bs E] | E]; rewrite E.
  - apply builds_ret. apply struct_pack_inv in E. tauto.
  - apply builds_raise. right; left. reflexivity.
Qed.

Lemma builds_for_range {S} (P : S -> Prop) (body : Z -> S -> io S)
  (step : Z) (n : nat) :
  (forall i s, P s -> builds P (body i s)) ->
  forall i s, P s -> builds P (for_range n i step body s).
Proof.
  intros Hb. induction n as [|n IH]; intros i s Hs.
  - apply builds_ret. exact Hs.
  - cbn [for_range]. apply (builds_bind P); auto.
Qed.

Lemma extends_refl (header : bytes) : extends header header.
Proof. exists []. rewrite app_nil_r. reflexivity. Qed.

Lemma extends_app (header packet more : bytes) :
  extends header packet -> extends header (packet ++ more).
Proof.
  intros [bs ->]. exists (bs ++ more). rewrite app_assoc. reflexivity.
Qed.

Lemma append_registers_builds (header : bytes) (values : list Z) :
  forall packet, extends header packet ->
    builds (extends header) (append_registers values packet).
Proof.
  induction values as [|v rest IH]; intros packet Hp.
  - apply builds_ret. exact Hp.
  - cbn [append_registers]. rewrite decimal_to_bytes_eq.
    eapply builds_bind; [apply builds_struct_pack|].
    intros two _. apply IH. apply extends_app. exact Hp.
Qed.

Lemma coil_byte_step_builds (header : bytes) (value : list ascii) (i : Z)
  (packet : bytes) :
  extends header packet ->
  builds (extends header) (coil_byte_step value i packet).
Proof.
  intros Hp. unfold coil_byte_step.
  eapply (builds_bind (fun _ => True)).
  - unfold for_in_range. apply builds_for_range; [|exact I].
    intros j [byte_1 byte_2] _. unfold nibble_step.
    eapply builds_bind; [apply builds_getitem|]. intros c_lo _.
    eapply builds_bind; [apply builds_int_of_char|]. intros d_lo _.
    eapply builds_bind; [apply builds_getitem|]. intros c_hi _.
    eapply builds_bind; [apply builds_int_of_char|]. intros d_hi _.
    apply builds_ret. exact I.
  - intros [byte_1 byte_2] _.
    eapply builds_bind; [apply builds_struct_pack|].
    intros one _. apply builds_ret. apply extends_app. exact Hp.
Qed.

Lemma append_coils_builds (values : list Z) (count_byte : Z)
  (header : bytes) :
  builds (extends header) (append_coils values count_byte header).
Proof.
  unfold append_coils, for_in_range. apply builds_for_range.
  - intros i s Hs. apply coil_byte_step_builds. exact Hs.
  - apply extends_refl.
Qed.

Lemma header_of_extension (header packet : bytes) (h : list Z) (rest : list Z) :
  ints header = h ++ rest -> length h = 8%nat -> extends header packet ->
  firstn 8 (ints packet) = h.
Proof.
  intros Hh L [bs ->]. unfold ints in *. rewrite map_app, Hh, <- app_assoc.
  rewrite firstn_app, L, Nat.sub_diag, firstn_O, app_nil_r.
  rewrite <- L. apply firstn_all.
Qed.

(** The inner computation of [_build_packet_writing], before the send. *)
Lemma send_built (P : bytes -> Prop) (inner : io bytes) :
  builds P inner ->
  (exists e, (packet <- inner ;; _send_packet packet) = ([], Raise e) /\
             builtin_error e) \/
  (exists packet, (packet <- inner ;; _send_packet packet) =
                    ([Send packet], Ok tt) /\ P packet).
Proof.
  intros [[T E] HP]. destruct inner as [t [p | e]]; cbn in T; subst t.
  - right. exists p. split; [reflexivity|]. apply HP. reflexivity.
  - left. exists e. split; [reflexivity|]. apply E. reflexivity.
Qed.

Lemma build_writing_cases
  (address transaction_id function_code id : Z) (values : list Z) :
  (exists e,
     _build_packet_writing address transaction_id function_code id values =
       ([], Raise e) /\
     builtin_error e) \/
  (exists packet len,
     _build_packet_writing address transaction_id function_code id values =
       ([Send packet], Ok tt) /\
     firstn 8 (ints packet) = mbap transaction_id len id function_code /\
     0 <= len <= 255).
Proof.
  unfold _build_packet_writing. rewrite !decimal_to_bytes_eq.
  match goal with
  | |- context [bind ?inner (fun packet => _send_packet packet)] =>
      set (m := inner)
  end.
  assert (builds
            (fun packet => exists len,
               firstn 8 (ints packet) =
                 mbap transaction_id len id function_code /\
               0 <= len <= 255) m) as Hm.
  { unfold m. destruct (function_code =? WRITE_SINGLE_REGISTER).
    - eapply builds_bind; [apply builds_getitem|]. intros v0 _.
      rewrite decimal_to_bytes_eq.
      eapply builds_weaken; [|apply builds_struct_pack].
      intros p [Hp _]. exists 6. unfold ints in *.
      rewrite Hp. split; [reflexivity | lia].
    - destruct (function_code =? WRITE_MULTIPLE_REGISTERS).
      + eapply builds_bind; [apply builds_struct_pack|].
        intros header [Hh _]. cbv beta in Hh.
        eapply builds_weaken; [|apply append_registers_builds,
                                  extends_refl].
        intros p Hp. exists (7 + Z.of_nat (length values) * 2). split.
        * eapply header_of_extension; [exact Hh | reflexivity | exact Hp].
        * apply (f_equal (fun l => pack_bytes l)) in Hh.
          fold (ints header) in Hh.
          destruct (pack_bytes_in_range (ints header)) as [bs [E _]].
          { clear. unfold ints. induction header as [|b l IH];
              constructor; auto. apply int_of_byte_range. }
          rewrite E in Hh. symmetry in Hh.
          apply pack_bytes_some in Hh as [_ F].
          inversion F as [|? ? _ F1]; subst.
          inversion F1 as [|? ? _ F2]; subst.
          inversion F2 as [|? ? _ F3]; subst.
          inversion F3 as [|? ? _ F4]; subst.
          inversion F4 as [|? ? _ F5]; subst.
          inversion F5 as [|? ? R _]; subst. exact R.
      + destruct (function_code =? WRITE_SINGLE_COIL).
        * eapply builds_bind; [apply builds_getitem|]. intros v0 _.
          eapply builds_weaken; [|apply builds_struct_pack].
          intros p [Hp _]. exists 6. unfold ints in *.
          rewrite Hp. split; [reflexivity | lia].
        * eapply builds_bind; [apply builds_struct_pack|].
          intros header [Hh _]. cbv beta in Hh.
          eapply builds_weaken; [|apply append_coils_builds].
          intros p Hp.
          exists (7 + ceil_div8 (Z.of_nat (length values))). split.
          -- eapply header_of_extension; [exact Hh | reflexivity | exact Hp].
          -- apply (f_equal (fun l => pack_bytes l)) in Hh.
             fold (ints header) in Hh.
             destruct (pack_bytes_in_range (ints header)) as [bs [E _]].
             { clear. unfold ints. induction header as [|b l IH];
                 constructor; auto. apply int_of_byte_range. }
             rewrite E in Hh. symmetry in Hh.
             apply pack_bytes_some in Hh as [_ F].
             inversion F as [|? ? _ F1]; subst.
             inversion F1 as [|? ? _ F2]; subst.
             inversion F2 as [|? ? _ F3]; subst.
             inversion F3 as [|? ? _ F4]; subst.
             inversion F4 as [|? ? _ F5]; subst.
             inversion F5 as [|? ? R _]; subst. exact R. }
  destruct (send_built _ m Hm) as [[e [E B]] | [packet [E [len [H L]]]]].
  - left. exists e. auto.
  - right. exists packet, len. auto.
Qed.

(** [_build_packet_writing], for any function code and any list of ints,
    either raises a built-in exception ([IndexError], [struct.error],
    [ValueError]) with nothing sent, or sends exactly one frame; that frame
    begins with the transaction id, protocol id 0, a length below 256, the
    unit id and the function code it was given. *)
Theorem write_request_atomic
  (address transaction_id function_code id : Z) (values : list Z) :
  (exists e,
     _build_packet_writing address transaction_id function_code id values =
       ([], Raise e) /\
     builtin_error e) \/
  (exists packet len,
     _build_packet_writing address transaction_id function_code id values =
       ([Send packet], Ok tt) /\
     firstn 8 (ints packet) = mbap transaction_id len id function_code /\
     0 <= len <= 255).
Proof. apply build_writing_cases. Qed.

(** ** The response to a write request *)

Lemma error_display_raises (code : Z) :
  _error_display code = ([], outcome (_error_display code)).
Proof.
  unfold _error_display.
  destruct (code =? _); [reflexivity|]. destruct (code =? _); [reflexivity|].
  destruct (code =? _); [reflexivity|]. destruct (code =? _); reflexivity.
Qed.

Lemma write_reply_closed :
  write_reply [] = ([], Raise (Exception "Connection closed")).
Proof. reflexivity. Qed.

Lemma write_reply_success (received : bytes) :
  (2 <= length received)%nat -> exception_flagged received = false ->
  write_reply received = ([PrintSuccess], Ok tt).
Proof.
  intros H Hf. destruct received as [|b0 [|b1 rest]]; simpl in H; try lia.
  unfold write_reply. cbn [_recv_packet]. rewrite bind_ret.
  change (getitem (b0 :: b1 :: rest) 1) with (@ret byte b1).
  rewrite bind_ret.
  change (negb (Z.land (int_of_byte b1) 128 =? 0))
    with (exception_flagged (b0 :: b1 :: rest)).
  rewrite Hf. reflexivity.
Qed.

Lemma write_reply_exception (received : bytes) :
  (3 <= length received)%nat -> exception_flagged received = true ->
  write_reply received = ([], outcome (_error_display (byte_at received 2))).
Proof.
  intros H Hf.
  destruct received as [|b0 [|b1 [|b2 rest]]]; simpl in H; try lia.
  unfold write_reply. cbn [_recv_packet]. rewrite bind_ret.
  change (getitem (b0 :: b1 :: b2 :: rest) 1) with (@ret byte b1).
  rewrite bind_ret.
  change (negb (Z.land (int_of_byte b1) 128 =? 0))
    with (exception_flagged (b0 :: b1 :: b2 :: rest)).
  rewrite Hf.
  change (getitem (b0 :: b1 :: b2 :: rest) 2) with (@ret byte b2).
  rewrite bind_ret. apply error_display_raises.
Qed.

Lemma write_reply_short (received : bytes) :
  length received = 1%nat \/
  (length received = 2%nat /\ exception_flagged received = true) ->
  write_reply received = ([], Raise IndexError).
Proof.
  intros [H | [H Hf]].
  - destruct received as [|b0 [|b1 rest]]; simpl in H; try lia. reflexivity.
  - destruct received as [|b0 [|b1 [|b2 rest]]]; simpl in H; try lia.
    unfold write_reply. cbn [_recv_packet]. rewrite bind_ret.
    change (getitem [b0; b1] 1) with (@ret byte b1). rewrite bind_ret.
    change (negb (Z.land (int_of_byte b1) 128 =? 0))
      with (exception_flagged [b0; b1]).
    rewrite Hf. reflexivity.
Qed.

Lemma sent_then_reply (build : io unit) (packet : bytes) :
  build = ([Send packet], Ok tt) ->
  handles_reply (fun received => build ;;; write_reply received) packet.
Proof.
  intros ->. unfold handles_reply. split; [reflexivity|].
  split; [|split].
  - intros received H Hf. rewrite write_reply_success by assumption.
    reflexivity.
  - intros received H Hf. rewrite write_reply_exception by assumption.
    reflexivity.
  - intros received H. rewrite write_reply_short by assumption. reflexivity.
Qed.

Lemma write_method_total (address transaction_id function_code : Z)
  (values : list Z) :
  (exists e,
     builtin_error e /\
     forall received,
       (_build_packet_writing address transaction_id function_code 1 values
          ;;; write_reply received) = ([], Raise e)) \/
  (exists packet,
     handles_reply
       (fun received =>
          _build_packet_writing address transaction_id function_code 1 values
            ;;; write_reply received) packet).
Proof.
  destruct (build_writing_cases address transaction_id function_code 1 values)
    as [[e [E B]] | [packet [len [E _]]]].
  - left. exists e. split; [exact B|]. intros received. rewrite E.
    reflexivity.
  - right. exists packet. apply sent_then_reply. exact E.
Qed.

(** Each write method either fails while building its frame, with a
    built-in exception, nothing sent, nothing printed and the response not
    read, or sends one frame and then ends in one of four ways decided by
    the first three bytes of the response alone: an empty read raises
    "Connection closed"; two or more bytes with bit 0x80 of byte 1 clear
    print "Success!", whatever else the response contains; with that bit set
    the message for byte 2 is raised; a response too short for the byte
    needed raises [IndexError]. *)
Theorem write_methods_outcomes (address transaction_id : Z) (values : list Z) :
  ((exists e, builtin_error e /\
      forall received,
        write_single_register address transaction_id values received =
          ([], Raise e)) \/
   (exists packet,
      handles_reply (write_single_register address transaction_id values)
        packet)) /\
  ((exists e, builtin_error e /\
      forall received,
        write_multiple_registers address transaction_id values received =
          ([], Raise e)) \/
   (exists packet,
      handles_reply (write_multiple_registers address transaction_id values)
        packet)) /\
  ((exists e, builtin_error e /\
      forall received,
        write_single_coil address transaction_id values received =
          ([], Raise e)) \/
   (exists packet,
      handles_reply (write_single_coil address transaction_id values)
        packet)) /\
  ((exists e, builtin_error e /\
      forall received,
        write_multiple_coils address transaction_id values received =
          ([], Raise e)) \/
   (exists packet,
      handles_reply (write_multiple_coils address transaction_id values)
        packet)).
Proof.
  split; [|split; [|split]].
  - apply (write_method_total address transaction_id WRITE_SINGLE_REGISTER).
  - apply (write_method_total address transaction_id WRITE_MULTIPLE_REGISTERS).
  - apply (write_method_total address transaction_id WRITE_SINGLE_COIL).
  - apply (write_method_total address transaction_id WRITE_MULTIPLE_COILS).
Qed.

(** ** Responses that are not decoded *)

Section ReplyFailures.

Variable decode : bytes -> Z -> io (list Z).
Variables address count : Z.

Lemma reply_closed :
  reply decode address count [] = ([], Raise (Exception "Connection closed")).
Proof. reflexivity. Qed.

Lemma reply_exception (received : bytes) :
  (3 <= length received)%nat -> exception_flagged received = true ->
  reply decode address count received =
    ([], outcome (_error_display (byte_at received 2))).
Proof.
  intros H Hf. rewrite reply_flagged by assumption.
  apply error_display_raises.
Qed.

Lemma reply_too_short (received : bytes) :
  length received = 1%nat \/
  (length received = 2%nat /\ exception_flagged received = true) ->
  reply decode address count received = ([], Raise IndexError).
Proof.
  intros [H | [H Hf]].
  - destruct received as [|b0 [|b1 rest]]; simpl in H; try lia. reflexivity.
  - rewrite reply_enter by lia. rewrite Hf.
    destruct received as [|b0 [|b1 [|b2 rest]]]; simpl in H; try lia.
    reflexivity.
Qed.

Lemma print_header_partial (response : bytes) :
  (2 <= length response < 9)%nat ->
  print_header response =
    (firstn (fields_read (length response)) (header_lines response),
     Raise IndexError).
Proof.
  intros H.
  destruct response as [|b0 [|b1 [|b2 [|b3 [|b4 [|b5 [|b6 [|b7 [|b8 rest]]]]]]]]];
    simpl in H; try lia; reflexivity.
Qed.

Lemma reply_partial (response : bytes) :
  (2 <= length response < 9)%nat -> exception_flagged response = false ->
  reply decode address count response =
    (firstn (fields_read (length response)) (header_lines response),
     Raise IndexError).
Proof.
  intros H Hf. rewrite reply_enter by lia. rewrite Hf.
  rewrite print_header_partial by assumption. reflexivity.
Qed.

End ReplyFailures.

Lemma read_method_failures (decode : bytes -> Z -> io (list Z))
  (address transaction_id function_code count : Z) :
  u16 address -> u16 transaction_id -> u16 count ->
  read_function_code function_code ->
  exists request,
    ints request =
      mbap transaction_id 6 1 function_code ++
      [address / 256; address mod 256; count / 256; count mod 256] /\
    handles_failure
      (fun received =>
         _build_packet_reading address transaction_id function_code 1 count
           ;;; reply decode address count received) request /\
    forall response,
      (2 <= length response < 9)%nat -> exception_flagged response = false ->
      (_build_packet_reading address transaction_id function_code 1 count
         ;;; reply decode address count response) =
      (Send request ::
         firstn (fields_read (length response)) (header_lines response),
       Raise IndexError).
Proof.
  intros Ha Ht Hc Hf.
  destruct (build_reading_ok address transaction_id function_code 1 count)
    as [request [E Hr]]; auto.
  { apply read_function_code_byte; assumption. }
  { unfold in_byte_range; lia. }
  exists request. split; [exact Hr|]. rewrite E. split.
  - split; [reflexivity|]. split.
    + intros received H F. rewrite reply_exception by assumption.
      reflexivity.
    + intros received H. rewrite reply_too_short by assumption. reflexivity.
  - intros response H F. rewrite reply_partial by assumption. reflexivity.
Qed.

(** A read method whose arguments fit their fields sends its request and
    then, without printing anything: raises "Connection closed" on an empty
    read; raises the message for byte 2 when the response has at least three
    bytes and bit 0x80 of byte 1 set; raises [IndexError] when the response
    is too short to look at the byte needed. *)
Theorem read_methods_failures (address transaction_id count : Z) :
  u16 address -> u16 transaction_id -> u16 count ->
  (exists request,
     handles_failure (read_coils address transaction_id count) request) /\
  (exists request,
     handles_failure (read_discrete_inputs address transaction_id count)
       request) /\
  (exists request,
     handles_failure (read_holding_registers address transaction_id count)
       request) /\
  (exists request,
     handles_failure (read_input_registers address transaction_id count)
       request).
Proof.
  intros Ha Ht Hc. split; [|split; [|split]].
  - destruct (read_method_failures unpack_coils address transaction_id
                READ_COILS count) as [request [_ [H _]]]; auto with modbus.
    exists request. exact H.
  - destruct (read_method_failures unpack_coils address transaction_id
                READ_DISCRETE_INPUTS count) as [request [_ [H _]]];
      auto with modbus.
    exists request. exact H.
  - destruct (read_method_failures decode_registers address transaction_id
                READ_HOLDING_REGISTERS count) as [request [_ [H _]]];
      auto with modbus.
    exists request. exact H.
  - destruct (read_method_failures decode_registers address transaction_id
                READ_INPUT_REGISTERS count) as [request [_ [H _]]];
      auto with modbus.
    exists request. exact H.
Qed.

Lemma read_methods_failures_witness :
  exists request,
    read_holding_registers 0 1 1 [] =
      ([Send request], Raise (Exception "Connection closed")) /\
    read_holding_registers 0 1 1 [x00; x81; x02] =
      ([Send request], Raise (Exception "Illegal data address")).
Proof.
  destruct (read_methods_failures 0 1 1) as [_ [_ [[request [C [E _]]] _]]];
    try (unfold u16; lia).
  exists request. split; [exact C|].
  apply (E [x00; x81; x02]); [simpl; lia | reflexivity].
Defined.

(** A response of 2 to 8 bytes that is not taken for an exception report
    makes a read method print the header fields that are complete, in
    order, one line for bytes 0-1, one for 2-3, one for 4-5, one for byte 6
    and one for byte 7, and then raise [IndexError]. *)
Theorem short_response_partial_output (address transaction_id count : Z)
  (response : bytes) :
  u16 address -> u16 transaction_id -> u16 count ->
  (2 <= length response < 9)%nat -> exception_flagged response = false ->
  (exists request,
     read_coils address transaction_id count response =
       (Send request ::
          firstn (fields_read (length response)) (header_lines response),
        Raise IndexError)) /\
  (exists request,
     read_discrete_inputs address transaction_id count response =
       (Send request ::
          firstn (fields_read (length response)) (header_lines response),
        Raise IndexError)) /\
  (exists request,
     read_holding_registers address transaction_id count response =
       (Send request ::
          firstn (fields_read (length response)) (header_lines response),
        Raise IndexError)) /\
  (exists request,
     read_input_registers address transaction_id count response =
       (Send request ::
          firstn (fields_read (length response)) (header_lines response),
        Raise IndexError)).
Proof.
  intros Ha Ht Hc Hl Hf. split; [|split; [|split]].
  - destruct (read_method_failures unpack_coils address transaction_id
                READ_COILS count) as [request [_ [_ H]]]; auto with modbus.
    exists request. apply H; assumption.
  - destruct (read_method_failures unpack_coils address transaction_id
                READ_DISCRETE_INPUTS count) as [request [_ [_ H]]];
      auto with modbus.
    exists request. apply H; assumption.
  - destruct (read_method_failures decode_registers address transaction_id
                READ_HOLDING_REGISTERS count) as [request [_ [_ H]]];
      auto with modbus.
    exists request. apply H; assumption.
  - destruct (read_method_failures decode_registers address transaction_id
                READ_INPUT_REGISTERS count) as [request [_ [_ H]]];
      auto with modbus.
    exists request. apply H; assumption.
Qed.

Lemma short_response_partial_output_witness :
  exists request,
    read_coils 0 1 8 [x00; x01; x00; x00; x00; x04; x01] =
      ([Send request;
        PrintField "Transaction Identifier:" 1;
        PrintField "Protocol Identifier:" 0;
        PrintField "Response length:" 4;
        PrintField "Unit identifier:" 1],
       Raise IndexError).
Proof.
  destruct (short_response_partial_output 0 1 8
              [x00; x01; x00; x00; x00; x04; x01]) as [[request H] _];
    try (unfold u16; lia); [simpl; lia | reflexivity |].
  exists request. exact H.
Defined.

(** ** The byte count of the response is trusted *)

Lemma shown_length (count : Z) (xs : list Z) :
  length (shown count xs) = lines_shown count (length xs).
Proof.
  unfold shown, lines_shown. destruct (1 <=? count); [|reflexivity].
  apply length_firstn.
Qed.

Lemma shown_nth (count : Z) (xs : list Z) (k : nat) :
  (k < length (shown count xs))%nat -> nth k (shown count xs) 0 = nth k xs 0.
Proof.
  unfold shown. destruct (1 <=? count); [|reflexivity].
  rewrite length_firstn, nth_firstn. intros H.
  destruct (Nat.ltb_spec k (Z.to_nat count)); [reflexivity | lia].
Qed.

Lemma shown_lines_any (address count : Z) (xs : list Z) :
  register_lines address 0 (shown count xs) =
  map (fun k => PrintRegister (address + Z.of_nat k) (nth k xs 0))
    (seq 0 (lines_shown count (length xs))).
Proof.
  rewrite register_lines_numbered, shown_length.
  apply map_ext_in. intros k Hk. apply in_seq in Hk.
  rewrite shown_nth by (rewrite shown_length; lia). reflexivity.
Qed.

Lemma bit_read_any_count (address transaction_id function_code count : Z)
  (response : bytes) :
  u16 address -> u16 transaction_id -> u16 count ->
  read_function_code function_code ->
  exception_flagged response = false ->
  9 + byte_at response 8 <= Z.of_nat (length response) ->
  exists request,
    (_build_packet_reading address transaction_id function_code 1 count ;;;
     reply unpack_coils address count response) =
    (Send request ::
       header_lines response ++
       map (fun k => PrintRegister (address + Z.of_nat k) (coil_at response k))
         (seq 0 (lines_shown count (8 * Z.to_nat (byte_at response 8)))),
     Ok tt).
Proof.
  intros Ha Ht Hc Hfc Hf Hl.
  pose proof (int_of_byte_range (nth 8 response x00)) as Hb.
  fold (byte_at response 8) in Hb.
  set (n := Z.to_nat (byte_at response 8)).
  destruct (read_normal unpack_coils address transaction_id function_code
              count response
              (flat_map byte_bits (firstn n (skipn 9 response))))
    as [request [_ E]]; auto; try lia.
  - apply unpack_coils_ok; lia.
  - exists request. rewrite E. do 3 f_equal.
    assert (length (firstn n (skipn 9 response)) = n) as Hn
      by (rewrite firstn_length_le; [reflexivity
                                    | rewrite length_skipn; unfold n; lia]).
    rewrite shown_lines_any, byte_bits_length, Hn.
    apply map_ext_in. intros k Hk. apply in_seq in Hk. f_equal.
    apply candidates_nth; [|unfold n; lia].
    revert Hk. unfold lines_shown. destruct (1 <=? count); lia.
Qed.

(** The bit-space read methods print as many values as the response's own
    byte count provides, not as many as were asked for: for a response with
    byte count b whose payload is present and which is not taken for an
    exception report, min(count, 8 * b) lines are printed when count >= 1,
    and all 8 * b when count is 0, line k being bit k mod 8 of payload byte
    k / 8 at address + k.  A byte count that does not match the request is
    never an error. *)
Theorem bit_read_trusts_byte_count (address transaction_id count : Z)
  (response : bytes) :
  u16 address -> u16 transaction_id -> u16 count ->
  exception_flagged response = false ->
  9 + byte_at response 8 <= Z.of_nat (length response) ->
  (exists request,
     read_coils address transaction_id count response =
       (Send request ::
          header_lines response ++
          map (fun k =>
                 PrintRegister (address + Z.of_nat k) (coil_at response k))
            (seq 0 (lines_shown count (8 * Z.to_nat (byte_at response 8)))),
        Ok tt)) /\
  (exists request,
     read_discrete_inputs address transaction_id count response =
       (Send request ::
          header_lines response ++
          map (fun k =>
                 PrintRegister (address + Z.of_nat k) (coil_at response k))
            (seq 0 (lines_shown count (8 * Z.to_nat (byte_at response 8)))),
        Ok tt)).
Proof.
  intros Ha Ht Hc Hf Hl. split.
  - rewrite read_coils_eq. apply bit_read_any_count; auto with modbus.
  - rewrite read_discrete_inputs_eq.
    apply bit_read_any_count; auto with modbus.
Qed.

Lemma bit_read_trusts_byte_count_witness :
  exists request,
    read_coils 7 1 0 [x00; x01; x00; x00; x00; x04; x01; x01; x01; x05] =
      (Send request ::
         header_lines [x00; x01; x00; x00; x00; x04; x01; x01; x01; x05] ++
         [PrintRegister 7 1; PrintRegister 8 0; PrintRegister 9 1;
          PrintRegister 10 0; PrintRegister 11 0; PrintRegister 12 0;
          PrintRegister 13 0; PrintRegister 14 0],
       Ok tt).
Proof.
  destruct (bit_read_trusts_byte_count 7 1 0
              [x00; x01; x00; x00; x00; x04; x01; x01; x01; x05])
    as [[request H] _]; try (unfold u16; lia);
    [reflexivity | vm_compute; discriminate |].
  exists request. exact H.
Defined.

Lemma register_range_len (byte_count : Z) :
  range_len 0 byte_count 2 = Z.to_nat ((byte_count + 1) / 2).
Proof. unfold range_len. f_equal. f_equal. lia. Qed.

Lemma decode_registers_any (response : bytes) (byte_count : Z) :
  (9 <= length response)%nat ->
  (9 + 2 * ((byte_count + 1) / 2) <= Z.of_nat (length response) ->
   decode_registers response byte_count =
     ret (map (register_at response)
            (seq 0 (Z.to_nat ((byte_count + 1) / 2))))) /\
  (Z.of_nat (length response) < 9 + 2 * ((byte_count + 1) / 2) ->
   decode_registers response byte_count = raise IndexError).
Proof.
  intros H9. split.
  - intros Hl. unfold decode_registers, for_in_range.
    rewrite register_range_len.
    apply (register_loop_ok response _ 0 []). lia.
  - intros Hs. unfold decode_registers, for_in_range.
    rewrite register_range_len. apply register_loop_short; lia.
Qed.

(** The register loop runs ceil(byteCount / 2) times and reads two bytes
    each time, so an odd byte count makes it read one byte past the payload
    the response declares: with that byte present the loop returns
    ceil(byteCount / 2) registers, without it [IndexError] is raised. *)
Theorem register_loop_any_byte_count (response : bytes) (byte_count : Z) :
  (9 <= length response)%nat ->
  (9 + 2 * ((byte_count + 1) / 2) <= Z.of_nat (length response) ->
   decode_registers response byte_count =
     ret (map (register_at response)
            (seq 0 (Z.to_nat ((byte_count + 1) / 2))))) /\
  (Z.of_nat (length response) < 9 + 2 * ((byte_count + 1) / 2) ->
   decode_registers response byte_count = raise IndexError) /\
  (Z.odd byte_count = true -> 0 < byte_count ->
   Z.of_nat (length response) = 9 + byte_count ->
   decode_registers response byte_count = raise IndexError).
Proof.
  intros H9. destruct (decode_registers_any response byte_count H9)
    as [Long Short].
  split; [exact Long|]. split; [exact Short|].
  intros Ho Hp Hl. apply Short. rewrite Hl.
  rewrite Z.odd_spec in Ho. destruct Ho as [m ->].
  replace (2 * m + 1 + 1) with ((m + 1) * 2) by lia.
  rewrite Z.div_mul by lia. lia.
Qed.

Lemma register_loop_any_byte_count_witness :
  decode_registers
    [x00; x01; x00; x00; x00; x06; x01; x03; x03; x00; x01; x00; x02] 3 =
    ret [1; 2] /\
  decode_registers
    [x00; x01; x00; x00; x00; x06; x01; x03; x03; x00; x01; x00] 3 =
    raise IndexError.
Proof.
  split.
  - apply (register_loop_any_byte_count
             [x00; x01; x00; x00; x00; x06; x01; x03; x03; x00; x01; x00; x02]
             3); [simpl; lia | vm_compute; discriminate].
  - apply (register_loop_any_byte_count
             [x00; x01; x00; x00; x00; x06; x01; x03; x03; x00; x01; x00]
             3); [simpl; lia | reflexivity | lia | reflexivity].
Defined.

(** ** What is written can be read back *)

Lemma nth_pairs (f : Z -> Z) (values : list Z) :
  forall k, (k < length values)%nat ->
    nth (2 * k) (flat_map (fun v => be16 (f v)) values) 0 =
      f (nth k values 0) / 256 /\
    nth (2 * k + 1) (flat_map (fun v => be16 (f v)) values) 0 =
      f (nth k values 0) mod 256.
Proof.
  induction values as [|v rest IH]; intros k Hk; simpl in Hk; [lia|].
  destruct k as [|k].
  - split; reflexivity.
  - replace (2 * S k)%nat with (S (S (2 * k))) by lia.
    replace (S (S (2 * k)) + 1)%nat with (S (S (2 * k + 1))) by lia.
    cbn [flat_map be16 app nth]. apply IH. lia.
Qed.

Lemma byte_at_payload (header payload : bytes) (n j : nat) :
  length header = n ->
  byte_at (header ++ payload) (n + j) = nth j (ints payload) 0.
Proof.
  intros <-. unfold byte_at, ints. rewrite app_nth2_plus.
  change 0 with (int_of_byte x00). rewrite map_nth. reflexivity.
Qed.

Lemma sign_extend16_wrap (v : Z) :
  int16 v ->
  sign_extend16 (v mod 65536 / 256 * 256 + v mod 65536 mod 256) = v.
Proof.
  intros H. unfold int16 in H.
  replace (v mod 65536 / 256 * 256 + v mod 65536 mod 256) with (v mod 65536)
    by (pose proof (Z.div_mod (v mod 65536) 256); lia).
  unfold sign_extend16. destruct (Z_lt_dec v 0) as [N | N].
  - rewrite <- (Z_mod_plus_full v 1 65536).
    rewrite Z.mod_small by lia.
    destruct (Z.leb_spec 32768 (v + 1 * 65536)); lia.
  - rewrite Z.mod_small by lia. destruct (Z.leb_spec 32768 v); lia.
Qed.

Lemma map_nth_seq (values : list Z) (f : nat -> Z) :
  (forall k, (k < length values)%nat -> f k = nth k values 0) ->
  map f (seq 0 (length values)) = values.
Proof.
  intros H. apply (nth_ext _ _ 0 0).
  - rewrite length_map, length_seq. reflexivity.
  - intros k Hk. rewrite length_map, length_seq in Hk.
    rewrite (nth_indep _ 0 (f 0%nat)) by (rewrite length_map, length_seq; lia).
    rewrite map_nth, seq_nth by lia. apply H. exact Hk.
Qed.

(** Registers written by WriteMultipleRegisters are read back unchanged by
    the register decoder: for up to 124 signed 16-bit values, the data bytes
    of the frame that is sent (from offset 13 on), placed as the payload of
    a response (from offset 9 on), decode to the very list that was
    written. *)
Theorem registers_round_trip (address transaction_id : Z) (values : list Z)
  (header : bytes) :
  u16 address -> u16 transaction_id ->
  Forall int16 values -> (length values <= 124)%nat ->
  length header = 9%nat ->
  exists frame,
    _build_packet_writing address transaction_id WRITE_MULTIPLE_REGISTERS 1
      values = ([Send frame], Ok tt) /\
    decode_registers (header ++ skipn 13 frame)
      (2 * Z.of_nat (length values)) = ret values.
Proof.
  intros Ha Ht Hv Hn Hh.
  destruct (build_multiple_registers address transaction_id values)
    as [frame [E Hp]]; auto.
  exists frame. split; [exact E|].
  assert (ints (skipn 13 frame) =
          flat_map (fun v => be16 (v mod 65536)) values) as Hd.
  { unfold ints in *. rewrite <- skipn_map, Hp. reflexivity. }
  assert (length (skipn 13 frame) = (2 * length values)%nat) as Ld.
  { rewrite <- ints_length, Hd.
    rewrite (flat_map_constant_length (c := 2)); [lia | reflexivity]. }
  rewrite decode_registers_ok by (rewrite length_app, Hh, Ld; lia).
  f_equal. apply map_nth_seq. intros k Hk.
  unfold register_at.
  replace (9 + 2 * k + 1)%nat with (9 + (2 * k + 1))%nat by lia.
  rewrite !(byte_at_payload header _ 9) by exact Hh. rewrite Hd.
  destruct (nth_pairs (fun v => v mod 65536) values k Hk) as [-> ->].
  apply sign_extend16_wrap.
  rewrite Forall_forall in Hv. apply Hv. apply nth_In. exact Hk.
Qed.

Lemma registers_round_trip_witness :
  exists frame,
    _build_packet_writing 5 1 WRITE_MULTIPLE_REGISTERS 1 [-1; 32767; -32768] =
      ([Send frame], Ok tt) /\
    decode_registers
      ([x00; x01; x00; x00; x00; x09; x01; x03; x06] ++ skipn 13 frame) 6 =
      ret [-1; 32767; -32768].
Proof.
  apply (registers_round_trip 5 1 [-1; 32767; -32768]
           [x00; x01; x00; x00; x00; x09; x01; x03; x06]);
    try (unfold u16; lia); try (simpl; lia).
  repeat constructor; unfold int16; lia.
Defined.

Lemma bit_value (v : Z) : is_bit v -> Z.b2z (v =? 1) = v.
Proof. intros [-> | ->]; reflexivity. Qed.

(** Coils written by WriteMultipleCoils are read back by the bit unpacking:
    for up to 1984 values 0/1, the data bytes of the frame that is sent,
    placed as the payload of a response, unpack to the list that was
    written followed by the zeros that pad the last byte. *)
Theorem coils_round_trip (address transaction_id : Z) (values : list Z)
  (header : bytes) :
  u16 address -> u16 transaction_id ->
  Forall is_bit values -> (length values <= 1984)%nat ->
  length header = 9%nat ->
  exists frame,
    _build_packet_writing address transaction_id WRITE_MULTIPLE_COILS 1
      values = ([Send frame], Ok tt) /\
    unpack_coils (header ++ skipn 13 frame)
      (ceil_div8 (Z.of_nat (length values))) =
      ret (values ++
           repeat 0 (8 * Z.to_nat (ceil_div8 (Z.of_nat (length values))) -
                     length values)).
Proof.
  intros Ha Ht Hv Hn Hh.
  pose proof (ceil_div8_bounds (Z.of_nat (length values))
                (Nat2Z.is_nonneg _)) as Hcb.
  destruct (build_multiple_coils address transaction_id values)
    as [head [packed [E [Hp [Lp Hbits]]]]]; auto.
  exists (head ++ packed). split; [exact E|].
  assert (length head = 13%nat) as Lh
    by (rewrite <- ints_length, Hp; reflexivity).
  rewrite <- Lh at 1. rewrite skipn_app, Nat.sub_diag, skipn_all, skipn_O.
  cbn [app].
  set (n := Z.to_nat (ceil_div8 (Z.of_nat (length values)))) in *.
  assert (length packed = n) as Ln by (unfold n; lia).
  rewrite unpack_coils_ok by (try rewrite length_app; lia).
  fold n. rewrite <- Hh at 1. rewrite skipn_app, Nat.sub_diag, skipn_all.
  cbn [skipn app]. rewrite <- Ln at 1. rewrite firstn_all.
  f_equal. apply (nth_ext _ _ 0 0).
  - rewrite byte_bits_length, length_app, repeat_length. lia.
  - intros k Hk. rewrite byte_bits_length in Hk.
    rewrite byte_bits_nth by exact Hk.
    assert (k / 8 < length packed)%nat as Hq
      by (apply Nat.Div0.div_lt_upper_bound; lia).
    assert (k mod 8 < 8)%nat as Hr by (apply Nat.mod_upper_bound; lia).
    rewrite (Hbits (k / 8)%nat (k mod 8)%nat Hq Hr).
    rewrite <- (Nat.div_mod_eq k 8).
    pose proof (bit_at_padded values
                  (8 * n - length values) (Z.of_nat k)) as Hpad.
    unfold bit_at in Hpad. rewrite Nat2Z.id in Hpad. rewrite Hpad.
    apply bit_value.
    pose proof (bit_at_is_bit values (Z.of_nat k) Hv) as Hb.
    unfold bit_at in Hb. rewrite Nat2Z.id in Hb. exact Hb.
Qed.

Lemma coils_round_trip_witness :
  exists frame,
    _build_packet_writing 5 1 WRITE_MULTIPLE_COILS 1
      [1; 0; 1; 1; 0; 0; 0; 1; 1] = ([Send frame], Ok tt) /\
    unpack_coils
      ([x00; x01; x00; x00; x00; x05; x01; x01; x02] ++ skipn 13 frame) 2 =
      ret [1; 0; 1; 1; 0; 0; 0; 1; 1; 0; 0; 0; 0; 0; 0; 0].
Proof.
  apply (coils_round_trip 5 1 [1; 0; 1; 1; 0; 0; 0; 1; 1]
           [x00; x01; x00; x00; x00; x05; x01; x01; x02]);
    try (unfold u16; lia); try (simpl; lia).
  repeat constructor; unfold is_bit; lia.
Defined.

(** ** What the write requests accept *)

Lemma wrap_negative_range (v : Z) :
  -65536 <= v <= 65535 -> u16 (wrap_negative v).
Proof.
  unfold u16, wrap_negative. intros H. destruct (Z.gtb_spec v (-1)); lia.
Qed.

Lemma wrap_negative_outside (v : Z) :
  v < -65536 \/ 65535 < v ->
  wrap_negative v / 256 < 0 \/ 255 < wrap_negative v / 256.
Proof.
  intros H. unfold wrap_negative. destruct (Z.gtb_spec v (-1)).
  - right. assert (256 <= v / 256) by (apply Z.div_le_lower_bound; lia). lia.
  - left. apply Z.div_lt_upper_bound; lia.
Qed.

(** WriteSingleRegister does not check that its value is a signed 16-bit
    number.  Every value in [-65536, 65535] is encoded, as the two bytes of
    value mod 65536, so that a negative value and that value plus 65536 give
    the same frame; a value outside that range is refused by the byte
    packing ([struct.error], nothing sent); an empty list raises
    [IndexError]; items after the first are ignored. *)
Theorem single_register_domain (address transaction_id v : Z)
  (rest : list Z) :
  u16 address -> u16 transaction_id ->
  (-65536 <= v <= 65535 ->
   exists packet,
     _build_packet_writing address transaction_id WRITE_SINGLE_REGISTER 1
       (v :: rest) = ([Send packet], Ok tt) /\
     ints packet =
       mbap transaction_id 6 1 6 ++
       [address / 256; address mod 256] ++ be16 (v mod 65536)) /\
  (-65536 <= v < 0 ->
   _build_packet_writing address transaction_id WRITE_SINGLE_REGISTER 1
     (v :: rest) =
   _build_packet_writing address transaction_id WRITE_SINGLE_REGISTER 1
     [v + 65536]) /\
  (v < -65536 \/ 65535 < v ->
   _build_packet_writing address transaction_id WRITE_SINGLE_REGISTER 1
     (v :: rest) = ([], Raise StructError)) /\
  _build_packet_writing address transaction_id WRITE_SINGLE_REGISTER 1 [] =
    ([], Raise IndexError).
Proof.
  intros Ha Ht.
  assert (forall w tl,
            _build_packet_writing address transaction_id
              WRITE_SINGLE_REGISTER 1 (w :: tl) =
            (packet <-
               struct_pack 12
                 (mbap transaction_id 6 1 6 ++
                  [address / 256; address mod 256;
                   wrap_negative w / 256; wrap_negative w mod 256]) ;;
             _send_packet packet)) as Shape.
  { intros w tl. unfold _build_packet_writing.
    rewrite !decimal_to_bytes_eq.
    change (WRITE_SINGLE_REGISTER =? WRITE_SINGLE_REGISTER) with true.
    cbv iota. change (getitem (w :: tl) 0) with (@ret Z w).
    rewrite bind_ret, decimal_to_bytes_eq. reflexivity. }
  destruct (decimal_to_bytes_range _ Ha), (decimal_to_bytes_range _ Ht).
  split; [|split; [|split]].
  - intros Hv. rewrite Shape.
    destruct (decimal_to_bytes_range _ (wrap_negative_range v Hv)).
    unfold mbap. cbn [app].
    pack_succeeds packet E Hp; [all_bytes|].
    rewrite bind_ret. exists packet. split; [reflexivity|].
    rewrite Hp, wrap_negative_mod by lia. reflexivity.
  - intros Hv. rewrite !Shape.
    replace (wrap_negative (v + 65536)) with (wrap_negative v); [reflexivity|].
    unfold wrap_negative.
    destruct (Z.gtb_spec v (-1)), (Z.gtb_spec (v + 65536) (-1)); lia.
  - intros Hv. rewrite Shape. rewrite struct_pack_error; [reflexivity|].
    unfold mbap. cbn [app].
    do 10 apply Exists_cons_tl. apply Exists_cons_hd.
    apply wrap_negative_outside. exact Hv.
  - unfold _build_packet_writing. rewrite !decimal_to_bytes_eq. reflexivity.
Qed.

Lemma single_register_domain_witness :
  (exists packet,
     _build_packet_writing 5 1 WRITE_SINGLE_REGISTER 1 [40000] =
       ([Send packet], Ok tt) /\
     ints packet = [0; 1; 0; 0; 0; 6; 1; 6; 0; 5; 156; 64]) /\
  _build_packet_writing 5 1 WRITE_SINGLE_REGISTER 1 [-25536] =
  _build_packet_writing 5 1 WRITE_SINGLE_REGISTER 1 [40000] /\
  _build_packet_writing 5 1 WRITE_SINGLE_REGISTER 1 [65536] =
    ([], Raise StructError).
Proof.
  assert (u16 5 /\ u16 1) as [H5 H1] by (unfold u16; lia).
  split; [|split].
  - destruct (single_register_domain 5 1 40000 [] H5 H1) as [H _].
    apply H. lia.
  - destruct (single_register_domain 5 1 (-25536) [] H5 H1) as [_ [H _]].
    apply H. lia.
  - destruct (single_register_domain 5 1 65536 [] H5 H1) as [_ [_ [H _]]].
    apply H. lia.
Defined.

(** WriteMultipleRegisters has no check of its own on the number of values:
    an empty list is encoded and sent as a 13-byte frame with count 0, and a
    list of 125 or more values is refused only because the length byte
    7 + 2 * count no longer fits ([struct.error], nothing sent).  Lists of
    signed 16-bit values are therefore sent exactly when they hold at most
    124 values. *)
Theorem multiple_registers_limits (address transaction_id : Z)
  (values : list Z) :
  u16 address -> u16 transaction_id ->
  ((125 <= length values)%nat ->
   _build_packet_writing address transaction_id WRITE_MULTIPLE_REGISTERS 1
     values = ([], Raise StructError)) /\
  (exists packet,
     _build_packet_writing address transaction_id WRITE_MULTIPLE_REGISTERS 1
       [] = ([Send packet], Ok tt) /\
     ints packet =
       mbap transaction_id 7 1 16 ++ [address / 256; address mod 256; 0; 0; 0])
  /\
  (Forall int16 values ->
   ((exists packet,
       _build_packet_writing address transaction_id WRITE_MULTIPLE_REGISTERS 1
         values = ([Send packet], Ok tt)) <->
    (length values <= 124)%nat)).
Proof.
  intros Ha Ht.
  assert ((125 <= length values)%nat ->
          _build_packet_writing address transaction_id
            WRITE_MULTIPLE_REGISTERS 1 values = ([], Raise StructError))
    as Long.
  { intros Hn. unfold _build_packet_writing. rewrite !decimal_to_bytes_eq.
    change (WRITE_MULTIPLE_REGISTERS =? WRITE_SINGLE_REGISTER) with false.
    change (WRITE_MULTIPLE_REGISTERS =? WRITE_MULTIPLE_REGISTERS) with true.
    cbv iota. rewrite struct_pack_error; [reflexivity|].
    do 5 apply Exists_cons_tl. apply Exists_cons_hd. lia. }
  split; [exact Long|]. split.
  - destruct (build_multiple_registers address transaction_id [])
      as [packet [E Hp]]; auto; [simpl; lia|].
    exists packet. split; [exact E | exact Hp].
  - intros Hv. split.
    + intros [packet E].
      destruct (Nat.le_gt_cases (length values) 124) as [L | L]; [exact L|].
      rewrite Long in E by lia. discriminate E.
    + intros Hn.
      destruct (build_multiple_registers address transaction_id values)
        as [packet [E _]]; auto.
      exists packet. exact E.
Qed.

Lemma multiple_registers_limits_witness :
  _build_packet_writing 5 1 WRITE_MULTIPLE_REGISTERS 1 (repeat 7 125) =
    ([], Raise StructError) /\
  exists packet,
    _build_packet_writing 5 1 WRITE_MULTIPLE_REGISTERS 1 [] =
      ([Send packet], Ok tt) /\
    ints packet = [0; 1; 0; 0; 0; 7; 1; 16; 0; 5; 0; 0; 0].
Proof.
  destruct (multiple_registers_limits 5 1 (repeat 7 125)) as [L [S _]];
    try (unfold u16; lia).
  split; [apply L; rewrite repeat_length; lia | exact S].
Defined.

Lemma coil_branch (address transaction_id function_code id : Z)
  (values : list Z) :
  function_code <> WRITE_SINGLE_REGISTER ->
  function_code <> WRITE_MULTIPLE_REGISTERS ->
  function_code <> WRITE_SINGLE_COIL ->
  _build_packet_writing address transaction_id function_code id values =
  (packet <-
     (header <-
        struct_pack 13
          (mbap transaction_id (7 + ceil_div8 (Z.of_nat (length values))) id
             function_code ++
           [address / 256; address mod 256;
            Z.of_nat (length values) / 256; Z.of_nat (length values) mod 256;
            ceil_div8 (Z.of_nat (length values))]) ;;
      append_coils values (ceil_div8 (Z.of_nat (length values))) header) ;;
   _send_packet packet).
Proof.
  intros N1 N2 N3. unfold _build_packet_writing.
  rewrite !decimal_to_bytes_eq.
  destruct (Z.eqb_spec function_code WRITE_SINGLE_REGISTER); [contradiction|].
  destruct (Z.eqb_spec function_code WRITE_MULTIPLE_REGISTERS);
    [contradiction|].
  destruct (Z.eqb_spec function_code WRITE_SINGLE_COIL); [contradiction|].
  reflexivity.
Qed.

(** [_build_packet_writing] does not check its function code: every code
    other than 5, 6 and 16 takes the WriteMultipleCoils branch.  For such a
    code that fits a byte and up to 1984 values 0/1, the frame sent carries
    that code at offset 7, the count, the byte count ceil(count / 8) and the
    values packed least significant bit first. *)
Theorem other_function_codes_pack_coils
  (address transaction_id function_code : Z) (values : list Z) :
  function_code <> WRITE_SINGLE_COIL ->
  function_code <> WRITE_SINGLE_REGISTER ->
  function_code <> WRITE_MULTIPLE_REGISTERS ->
  in_byte_range function_code ->
  u16 address -> u16 transaction_id ->
  Forall is_bit values -> (length values <= 1984)%nat ->
  exists header packed,
    _build_packet_writing address transaction_id function_code 1 values =
      ([Send (header ++ packed)], Ok tt) /\
    ints header =
      mbap transaction_id (7 + ceil_div8 (Z.of_nat (length values))) 1
        function_code ++
      [address / 256; address mod 256] ++
      be16 (Z.of_nat (length values)) ++
      [ceil_div8 (Z.of_nat (length values))] /\
    lsb_first_packing values packed.
Proof.
  intros N1 N2 N3 Hf Ha Ht Hb Hn. rewrite coil_branch by assumption.
  destruct (decimal_to_bytes_range _ Ha), (decimal_to_bytes_range _ Ht).
  assert (u16 (Z.of_nat (length values))) as Hc by (unfold u16; lia).
  destruct (decimal_to_bytes_range _ Hc).
  pose proof (ceil_div8_bounds (Z.of_nat (length values)) (Nat2Z.is_nonneg _)).
  unfold mbap. cbn [app].
  pack_succeeds header E Hp; [all_bytes|].
  rewrite bind_ret.
  destruct (append_coils_lsb_first values header Hb) as [packed [E' Hl]].
  rewrite E', bind_ret. exists header, packed.
  split; [reflexivity|]. split; [exact Hp | exact Hl].
Qed.

Lemma other_function_codes_pack_coils_witness :
  exists header packed,
    _build_packet_writing 5 1 READ_HOLDING_REGISTERS 1 [1; 1; 0] =
      ([Send (header ++ packed)], Ok tt) /\
    ints header = [0; 1; 0; 0; 0; 8; 1; 3; 0; 5; 0; 3; 1] /\
    lsb_first_packing [1; 1; 0] packed.
Proof.
  apply (other_function_codes_pack_coils 5 1 READ_HOLDING_REGISTERS [1; 1; 0]);
    try discriminate; try (unfold u16, in_byte_range, READ_HOLDING_REGISTERS;
                           simpl; lia).
  repeat constructor; unfold is_bit; lia.
Defined.

(** WriteMultipleCoils has no check of its own on the number of values: an
    empty list is encoded and sent as a 13-byte frame with count 0 and byte
    count 0, and a list of 1985 or more values, whatever they are, is
    refused only because the length byte 7 + ceil(count / 8) no longer fits
    ([struct.error], nothing sent).  Lists of values 0/1 are therefore sent
    exactly when they hold at most 1984 values. *)
Theorem multiple_coils_limits (address transaction_id : Z)
  (values : list Z) :
  u16 address -> u16 transaction_id ->
  ((1985 <= length values)%nat ->
   _build_packet_writing address transaction_id WRITE_MULTIPLE_COILS 1
     values = ([], Raise StructError)) /\
  (exists packet,
     _build_packet_writing address transaction_id WRITE_MULTIPLE_COILS 1
       [] = ([Send packet], Ok tt) /\
     ints packet =
       mbap transaction_id 7 1 15 ++ [address / 256; address mod 256; 0; 0; 0])
  /\
  (Forall is_bit values ->
   ((exists packet,
       _build_packet_writing address transaction_id WRITE_MULTIPLE_COILS 1
         values = ([Send packet], Ok tt)) <->
    (length values <= 1984)%nat)).
Proof.
  intros Ha Ht.
  assert ((1985 <= length values)%nat ->
          _build_packet_writing address transaction_id
            WRITE_MULTIPLE_COILS 1 values = ([], Raise StructError))
    as Long.
  { intros Hn. rewrite coil_branch by discriminate.
    pose proof (ceil_div8_bounds (Z.of_nat (length values))
                  (Nat2Z.is_nonneg _)).
    rewrite struct_pack_error; [reflexivity|].
    unfold mbap. cbn [app].
    do 5 apply Exists_cons_tl. apply Exists_cons_hd. lia. }
  split; [exact Long|]. split.
  - destruct (build_multiple_coils address transaction_id [])
      as [header [packed [E [Hp [Lp _]]]]]; auto; [simpl; lia|].
    destruct packed as [|b packed]; [|simpl in Lp; discriminate Lp].
    exists (header ++ []). split; [exact E|].
    rewrite app_nil_r. exact Hp.
  - intros Hv. split.
    + intros [packet E].
      destruct (Nat.le_gt_cases (length values) 1984) as [L | L]; [exact L|].
      rewrite Long in E by lia. discriminate E.
    + intros Hn.
      destruct (build_multiple_coils address transaction_id values)
        as [header [packed [E _]]]; auto.
      exists (header ++ packed). exact E.
Qed.

Lemma multiple_coils_limits_witness :
  exists packet,
    _build_packet_writing 5 1 WRITE_MULTIPLE_COILS 1 [] =
      ([Send packet], Ok tt) /\
    ints packet = [0; 1; 0; 0; 0; 7; 1; 15; 0; 5; 0; 0; 0].
Proof.
  destruct (multiple_coils_limits 5 1 []) as [_ [S _]];
    try (unfold u16; lia).
  exact S.
Defined.

Lemma register_read_any_count
  (address transaction_id function_code count : Z) (response : bytes) :
  u16 address -> u16 transaction_id -> u16 count ->
  read_function_code function_code ->
  exception_flagged response = false ->
  9 + 2 * ((byte_at response 8 + 1) / 2) <= Z.of_nat (length response) ->
  exists request,
    (_build_packet_reading address transaction_id function_code 1 count ;;;
     reply decode_registers address count response) =
    (Send request ::
       header_lines response ++
       map (fun k =>
              PrintRegister (address + Z.of_nat k) (register_at response k))
         (seq 0 (lines_shown count
                   (Z.to_nat ((byte_at response 8 + 1) / 2)))),
     Ok tt).
Proof.
  intros Ha Ht Hc Hfc Hf Hl.
  pose proof (int_of_byte_range (nth 8 response x00)) as Hb.
  fold (byte_at response 8) in Hb.
  assert (0 <= (byte_at response 8 + 1) / 2) as Hq
    by (apply Z.div_pos; lia).
  set (n := Z.to_nat ((byte_at response 8 + 1) / 2)) in *.
  destruct (read_normal decode_registers address transaction_id function_code
              count response (map (register_at response) (seq 0 n)))
    as [request [_ E]]; auto; try lia.
  - apply decode_registers_any; lia.
  - exists request. rewrite E. do 3 f_equal.
    rewrite shown_lines_any, length_map, length_seq.
    apply map_ext_in. intros k Hk. apply in_seq in Hk. f_equal.
    rewrite (nth_indep _ 0 (register_at response 0))
      by (rewrite length_map, length_seq;
          revert Hk; unfold lines_shown; destruct (1 <=? count); lia).
    rewrite map_nth, seq_nth; [reflexivity|].
    revert Hk. unfold lines_shown. destruct (1 <=? count); lia.
Qed.

(** The register-space read methods likewise print what the response's byte
    count b provides: min(count, ceil(b / 2)) registers when count >= 1 and
    all ceil(b / 2) when count is 0, for a response that holds the bytes the
    loop reads and is not taken for an exception report. *)
Theorem register_read_trusts_byte_count (address transaction_id count : Z)
  (response : bytes) :
  u16 address -> u16 transaction_id -> u16 count ->
  exception_flagged response = false ->
  9 + 2 * ((byte_at response 8 + 1) / 2) <= Z.of_nat (length response) ->
  (exists request,
     read_holding_registers address transaction_id count response =
       (Send request ::
          header_lines response ++
          map (fun k =>
                 PrintRegister (address + Z.of_nat k) (register_at response k))
            (seq 0 (lines_shown count
                      (Z.to_nat ((byte_at response 8 + 1) / 2)))),
        Ok tt)) /\
  (exists request,
     read_input_registers address transaction_id count response =
       (Send request ::
          header_lines response ++
          map (fun k =>
                 PrintRegister (address + Z.of_nat k) (register_at response k))
            (seq 0 (lines_shown count
                      (Z.to_nat ((byte_at response 8 + 1) / 2)))),
        Ok tt)).
Proof.
  intros Ha Ht Hc Hf Hl. split.
  - rewrite read_holding_registers_eq.
    apply register_read_any_count; auto with modbus.
  - rewrite read_input_registers_eq.
    apply register_read_any_count; auto with modbus.
Qed.

Lemma register_read_trusts_byte_count_witness :
  exists request,
    read_holding_registers 40 1 5
      [x00; x01; x00; x00; x00; x07; x01; x03; x04; x00; x0a; xff; xf6] =
      (Send request ::
         header_lines
           [x00; x01; x00; x00; x00; x07; x01; x03; x04; x00; x0a; xff; xf6] ++
         [PrintRegister 40 10; PrintRegister 41 (-10)],
       Ok tt).
Proof.
  destruct (register_read_trusts_byte_count 40 1 5
              [x00; x01; x00; x00; x00; x07; x01; x03; x04; x00; x0a; xff; xf6])
    as [[request H] _]; try (unfold u16; lia);
    [reflexivity | vm_compute; discriminate |].
  exists request. exact H.
Defined.

(** ** The interactive loop *)

Lemma trace_of_bind {A B} (m : io A) (k : A -> io B) :
  trace (bind m k) =
  match outcome m with
  | Ok a => trace m ++ trace (k a)
  | Raise e => trace m
  end.
Proof.
  destruct m as [t [a | e]]; unfold bind, outcome, trace; simpl; [|reflexivity].
  destruct (k a); reflexivity.
Qed.

Lemma printing_bind {A B} (m : io A) (k : A -> io B) :
  printing m -> (forall a, printing (k a)) -> printing (bind m k).
Proof.
  unfold printing. intros Hm Hk. rewrite trace_of_bind.
  destruct (outcome m); [|exact Hm].
  apply Forall_app. split; [exact Hm | apply Hk].
Qed.

Lemma printing_quiet {A} (m : io A) : trace m = [] -> printing m.
Proof. unfold printing. intros ->. constructor. Qed.

Lemma printing_getitem {A} (l : list A) (i : Z) : printing (getitem l i).
Proof. apply printing_quiet. apply builds_getitem. Qed.

Lemma printing_for_range {S} (body : Z -> S -> io S) (step : Z) (n : nat) :
  (forall i s, printing (body i s)) ->
  forall i s, printing (for_range n i step body s).
Proof.
  intros Hb. induction n as [|n IH]; intros i s.
  - apply printing_quiet. reflexivity.
  - cbn [for_range]. apply printing_bind; auto.
Qed.

Lemma printing_emit (e : event) : printed e -> printing (emit e).
Proof. intros H. unfold printing. constructor; [exact H | constructor]. Qed.

Lemma printing_bytes_to_dec (byte : list Z) : printing (bytes_to_dec byte).
Proof.
  unfold bytes_to_dec.
  apply printing_bind; [apply printing_getitem|]. intros b0.
  apply printing_bind; [apply printing_getitem|]. intros b1.
  apply printing_quiet. reflexivity.
Qed.

Lemma printing_print_header (response : bytes) :
  printing (print_header response).
Proof.
  unfold print_header.
  repeat first
    [ apply printing_bind; [|intros ?]
    | apply printing_bytes_to_dec
    | apply printing_getitem
    | apply printing_emit; exact I
    | apply printing_quiet; reflexivity ].
Qed.

Lemma printing_print_registers (address count : Z) (xs : list Z) :
  forall num, printing (print_registers address count num xs).
Proof.
  induction xs as [|x rest IH]; intros num.
  - apply printing_quiet. reflexivity.
  - cbn [print_registers].
    apply printing_bind; [apply printing_emit; exact I|]. intros _.
    destruct (num =? count - 1); [apply printing_quiet; reflexivity|].
    apply IH.
Qed.

Lemma printing_error_display (code : Z) : printing (_error_display code).
Proof.
  apply printing_quiet. rewrite error_display_raises. reflexivity.
Qed.

Lemma printing_unpack_coils (response : bytes) (byte_count : Z) :
  printing (unpack_coils response byte_count).
Proof.
  unfold unpack_coils, for_in_range. apply printing_for_range.
  intros i s. unfold unpack_step.
  apply printing_bind; [apply printing_getitem|]. intros b.
  apply printing_quiet. reflexivity.
Qed.

Lemma printing_decode_registers (response : bytes) (byte_count : Z) :
  printing (decode_registers response byte_count).
Proof.
  unfold decode_registers, for_in_range. apply printing_for_range.
  intros i s. unfold register_step.
  apply printing_bind; [apply printing_getitem|]. intros hi.
  apply printing_bind; [apply printing_getitem|]. intros lo.
  apply printing_quiet. reflexivity.
Qed.

Lemma printing_recv (received : bytes) : printing (_recv_packet received).
Proof. apply printing_quiet. destruct received; reflexivity. Qed.

Lemma printing_reply (decode : bytes -> Z -> io (list Z))
  (address count : Z) (received : bytes) :
  (forall response byte_count, printing (decode response byte_count)) ->
  printing (reply decode address count received).
Proof.
  intros Hd. unfold reply.
  apply printing_bind; [apply printing_recv|]. intros response.
  apply printing_bind; [apply printing_getitem|]. intros r1.
  destruct (negb _).
  - apply printing_bind; [apply printing_getitem|]. intros r2.
    apply printing_error_display.
  - apply printing_bind; [apply printing_print_header|]. intros byte_count.
    apply printing_bind; [apply Hd|]. intros xs.
    apply printing_print_registers.
Qed.

Lemma printing_write_reply (received : bytes) :
  printing (write_reply received).
Proof.
  unfold write_reply.
  apply printing_bind; [apply printing_recv|]. intros response.
  apply printing_bind; [apply printing_getitem|]. intros r1.
  destruct (negb _).
  - apply printing_bind; [apply printing_getitem|]. intros r2.
    apply printing_error_display.
  - apply printing_emit. exact I.
Qed.

Lemma frame_id_of_header (packet : bytes) (tid len id fc : Z) :
  firstn 8 (ints packet) = mbap tid len id fc ->
  byte_at packet 0 * 256 + byte_at packet 1 = tid /\ u16 tid.
Proof.
  intros H. unfold byte_at.
  destruct packet as [|b0 [|b1 tl]]; try discriminate H.
  cbn [nth]. unfold mbap in H. cbn [ints map firstn] in H.
  injection H as E0 E1 _.
  pose proof (int_of_byte_range b0). pose proof (int_of_byte_range b1).
  rewrite E0, E1 in *. pose proof (Z.div_mod tid 256).
  unfold u16. split; lia.
Qed.

Lemma one_frame_then (tid : Z) (build reply_part : io unit) :
  ((exists e, build = ([], Raise e)) \/
   (exists packet len id fc,
      build = ([Send packet], Ok tt) /\
      firstn 8 (ints packet) = mbap tid len id fc)) ->
  printing reply_part ->
  one_frame tid (build ;;; reply_part).
Proof.
  intros [[e ->] | [packet [len [id [fc [-> H]]]]]] Hp.
  - left. split; [reflexivity|]. exists e. reflexivity.
  - right. exists packet, (trace reply_part).
    destruct (frame_id_of_header _ _ _ _ _ H) as [Hid Hu].
    split; [|auto]. unfold bind. destruct reply_part. reflexivity.
Qed.

Lemma build_reading_cases (address transaction_id function_code id count : Z) :
  (exists e,
     _build_packet_reading address transaction_id function_code id count =
       ([], Raise e)) \/
  (exists packet len id' fc,
     _build_packet_reading address transaction_id function_code id count =
       ([Send packet], Ok tt) /\
     firstn 8 (ints packet) = mbap transaction_id len id' fc).
Proof.
  unfold _build_packet_reading. rewrite !decimal_to_bytes_eq.
  match goal with
  | |- context [struct_pack ?n ?args] =>
      destruct (struct_pack_cases n args) as [[bs E] | E]; rewrite E
  end.
  - right. exists bs, 6, id, function_code. rewrite bind_ret.
    split; [reflexivity|]. apply struct_pack_inv in E as [_ [-> _]].
    reflexivity.
  - left. exists StructError. reflexivity.
Qed.

Lemma build_writing_frames
  (address transaction_id function_code id : Z) (values : list Z) :
  (exists e,
     _build_packet_writing address transaction_id function_code id values =
       ([], Raise e)) \/
  (exists packet len id' fc,
     _build_packet_writing address transaction_id function_code id values =
       ([Send packet], Ok tt) /\
     firstn 8 (ints packet) = mbap transaction_id len id' fc).
Proof.
  destruct (build_writing_cases address transaction_id function_code id values)
    as [[e [E _]] | [packet [len [E [H _]]]]].
  - left. exists e. exact E.
  - right. exists packet, len, id, function_code. auto.
Qed.

(** Each of the eight methods sends at most one frame, first of all, with
    the transaction id it was given. *)
Lemma methods_one_frame (address tid count : Z) (values : list Z)
  (received : bytes) :
  one_frame tid (read_coils address tid count received) /\
  one_frame tid (read_discrete_inputs address tid count received) /\
  one_frame tid (read_holding_registers address tid count received) /\
  one_frame tid (read_input_registers address tid count received) /\
  one_frame tid (write_single_coil address tid values received) /\
  one_frame tid (write_single_register address tid values received) /\
  one_frame tid (write_multiple_coils address tid values received) /\
  one_frame tid (write_multiple_registers address tid values received).
Proof.
  rewrite read_coils_eq, read_discrete_inputs_eq, read_holding_registers_eq,
    read_input_registers_eq.
  unfold write_single_coil, write_single_register, write_multiple_coils,
    write_multiple_registers.
  repeat split;
    apply one_frame_then;
    first [ apply build_reading_cases | apply build_writing_frames
          | apply printing_write_reply
          | apply printing_reply; first [ apply printing_unpack_coils
                                        | apply printing_decode_registers ] ].
Qed.

(** Every method sends at most one frame, and sends it before it prints
    anything: a call either raises with nothing sent and nothing printed, or
    logs first one frame carrying its transaction id in bytes 0-1 (which is
    then in 0..65535) and after that only printed lines. *)
Theorem methods_send_one_frame (address tid count : Z) (values : list Z)
  (received : bytes) :
  one_frame tid (read_coils address tid count received) /\
  one_frame tid (read_discrete_inputs address tid count received) /\
  one_frame tid (read_holding_registers address tid count received) /\
  one_frame tid (read_input_registers address tid count received) /\
  one_frame tid (write_single_coil address tid values received) /\
  one_frame tid (write_single_register address tid values received) /\
  one_frame tid (write_multiple_coils address tid values received) /\
  one_frame tid (write_multiple_registers address tid values received).
Proof. apply methods_one_frame. Qed.

Lemma frame_ids_app (l1 l2 : list console) :
  frame_ids (l1 ++ l2) = frame_ids l1 ++ frame_ids l2.
Proof.
  induction l1 as [|c l1 IH]; [reflexivity|].
  destruct c as [line | prompt | [packet | | |]]; cbn [app frame_ids];
    rewrite IH; reflexivity.
Qed.

Lemma frame_ids_printed (t : list event) :
  Forall printed t -> frame_ids (map Method t) = [].
Proof.
  induction 1 as [|e t He _ IH]; [reflexivity|].
  destruct e; [contradiction | | |]; cbn [map frame_ids]; exact IH.
Qed.

Section MainLoop.

Variable py_int : list ascii -> option Z.
Variable stdin : nat -> list ascii.
Variable peer : Z -> bytes.

Lemma mbind_frameless {A B} (m : mio A) (k : A -> mio B) :
  frameless m -> (forall a, frameless (k a)) -> frameless (mbind m k).
Proof.
  intros Hm Hk pos. unfold mbind. specialize (Hm pos).
  destruct (m pos) as [t [[a pos'] | e]]; cbn [fst] in *; [|exact Hm].
  specialize (Hk a pos'). destruct (k a pos') as [t' r]. cbn [fst] in *.
  rewrite frame_ids_app, Hm, Hk. reflexivity.
Qed.

Lemma frameless_input (prompt : string) : frameless (input stdin prompt).
Proof. intros pos. reflexivity. Qed.

Lemma frameless_say (line : string) : frameless (say line).
Proof. intros pos. reflexivity. Qed.

Lemma frameless_int (s : list ascii) : frameless (int py_int s).
Proof. intros pos. unfold int. destruct (py_int s); reflexivity. Qed.

Lemma frameless_mret {A} (a : A) : frameless (mret a).
Proof. intros pos. reflexivity. Qed.

Lemma frameless_int_each (values : list (list ascii)) :
  frameless (int_each py_int values).
Proof.
  induction values as [|v rest IH]; [apply frameless_mret|].
  cbn [int_each]. apply mbind_frameless; [apply frameless_int|]. intros z.
  apply mbind_frameless; [exact IH|]. intros zs. apply frameless_mret.
Qed.

Lemma frameless_say_each (lines : list string) : frameless (say_each lines).
Proof.
  induction lines as [|line rest IH]; [apply frameless_mret|].
  cbn [say_each]. apply mbind_frameless; [apply frameless_say|].
  intros _. exact IH.
Qed.

Lemma turn_after {A} (tn : Z) (m : mio A) (k : A -> mio flow) :
  frameless m -> (forall a, turn tn (k a)) -> turn tn (mbind m k).
Proof.
  intros Hm Hk pos. unfold mbind. specialize (Hm pos).
  destruct (m pos) as [t [[a pos'] | e]]; cbn [fst snd] in *.
  - specialize (Hk a pos'). destruct (k a pos') as [t' r].
    cbn [fst snd] in *. rewrite frame_ids_app, Hm. exact Hk.
  - left. split; [exact Hm|]. intros next pos' H. discriminate H.
Qed.

Lemma turn_break (tn : Z) : turn tn (mret Break).
Proof.
  intros pos. left. split; [reflexivity|].
  intros next pos' H. inversion H. left. reflexivity.
Qed.

Lemma turn_continue (tn : Z) : turn tn (mret (Continue tn)).
Proof.
  intros pos. left. split; [reflexivity|].
  intros next pos' H. inversion H. right. reflexivity.
Qed.

Lemma turn_call (tn : Z) (m : io unit) :
  one_frame (tn + 1) m ->
  turn tn (call m ;;~ mret (Continue (tn + 1))).
Proof.
  intros [[T [e E]] | [packet [rest [T [P [Hid Hu]]]]]] pos;
    unfold mbind, call, mret; rewrite T.
  - left. rewrite E. cbn [map fst snd]. split; [reflexivity|].
    intros next pos' H. discriminate H.
  - right. destruct (outcome m) as [[] | e]; cbn [map fst snd frame_ids app];
      rewrite ?app_nil_r, (frame_ids_printed rest P), Hid;
      (split; [reflexivity|]); (split; [exact Hu|]);
      intros next pos' H; [inversion H; reflexivity | discriminate H].
Qed.

Lemma iteration_turn (tn : Z) : turn tn (iteration py_int stdin peer tn).
Proof.
  unfold iteration.
  apply turn_after; [apply frameless_say_each|]. intros _.
  apply turn_after; [apply frameless_input|]. intros function_code.
  unfold dispatch.
  destruct (line_is function_code "0"); [apply turn_break|].
  apply turn_after; [apply frameless_input|]. intros a.
  apply turn_after; [apply frameless_int|]. intros address.
  repeat match goal with
  | |- turn _ (if ?c then _ else _) => destruct c
  end;
  try (apply turn_after; [apply frameless_input|]; intros line;
       apply turn_after;
         [first [apply frameless_int | apply frameless_int_each]|];
       intros arg; cbv zeta; apply turn_call;
       match goal with
       | |- one_frame ?tid (?f ?ad _ ?x ?r) =>
           first
             [ apply (methods_one_frame ad tid x [] r)
             | apply (methods_one_frame ad tid 0 x r) ]
       end).
  apply turn_after; [apply frameless_say|]. intros _. apply turn_continue.
Qed.

Lemma loop_ids (turns : nat) :
  forall tn pos, 0 <= tn ->
    exists n,
      frame_ids (fst (loop py_int stdin peer turns tn pos)) =
        map (fun k => tn + Z.of_nat k) (seq 1 n) /\
      tn + Z.of_nat n <= Z.max tn 65535.
Proof.
  induction turns as [|turns IH]; intros tn pos Htn.
  - exists 0%nat. split; [reflexivity | lia].
  - cbn [loop]. unfold mbind.
    pose proof (iteration_turn tn pos) as Ht.
    destruct (iteration py_int stdin peer tn pos) as [t [[next pos'] | e]];
      cbn [fst snd] in Ht.
    + destruct Ht as [[Hid Hn] | [Hid [Hu Hn]]].
      * destruct (Hn next pos' eq_refl) as [-> | ->].
        -- exists 0%nat. cbn [fst mret]. rewrite app_nil_r, Hid.
           split; [reflexivity | lia].
        -- destruct (IH tn pos' Htn) as [n [E B]].
           destruct (loop py_int stdin peer turns tn pos') as [t' r].
           cbn [fst] in *. exists n. rewrite frame_ids_app, Hid, E.
           split; [reflexivity | exact B].
      * rewrite (Hn next pos' eq_refl).
        destruct (IH (tn + 1) pos') as [n [E B]]; [lia|].
        destruct (loop py_int stdin peer turns (tn + 1) pos') as [t' r].
        cbn [fst] in *. exists (S n). rewrite frame_ids_app, Hid, E.
        split.
        -- cbn [seq map app]. f_equal.
           rewrite <- (seq_shift n 1), map_map. apply map_ext. intros k. lia.
        -- unfold u16 in Hu. lia.
    + destruct Ht as [[Hid _] | [Hid [Hu _]]]; cbn [fst].
      * exists 0%nat. rewrite Hid. split; [reflexivity | lia].
      * exists 1%nat. rewrite Hid. split; [reflexivity|].
        unfold u16 in Hu. lia.
Qed.

End MainLoop.

(** The transaction ids of a session are 1, 2, 3, ... in this order: the
    frames sent during any number of turns of the loop, whatever is typed
    and whatever the device answers, carry consecutive transaction ids
    starting at 1, and there are at most 65535 of them. *)
Theorem main_transaction_ids (py_int : list ascii -> option Z)
  (stdin : nat -> list ascii) (peer : Z -> bytes) (turns pos : nat) :
  exists n,
    frame_ids (fst (main py_int stdin peer turns pos)) =
      map Z.of_nat (seq 1 n) /\
    Z.of_nat n <= 65535.
Proof.
  destruct (loop_ids py_int stdin peer turns 0 pos) as [n [E B]]; [lia|].
  exists n. unfold main. rewrite E. split; [|lia].
  apply map_ext. intros k. lia.
Qed.

Lemma reading_bad_tid (address tid function_code id count : Z) :
  65535 < tid ->
  _build_packet_reading address tid function_code id count =
    ([], Raise StructError).
Proof.
  intros H. unfold _build_packet_reading. rewrite !decimal_to_bytes_eq.
  rewrite struct_pack_error; [reflexivity|]. apply Exists_cons_hd.
  right. assert (256 <= tid / 256) by (apply Z.div_le_lower_bound; lia). lia.
Qed.

Lemma writing_bad_tid (address tid function_code id : Z) (values : list Z) :
  65535 < tid -> values <> [] ->
  _build_packet_writing address tid function_code id values =
    ([], Raise StructError).
Proof.
  intros H Hv. destruct values as [|v rest]; [congruence|].
  assert (tid / 256 < 0 \/ 255 < tid / 256) as Hb.
  { right. assert (256 <= tid / 256) by (apply Z.div_le_lower_bound; lia).
    lia. }
  unfold _build_packet_writing. rewrite !decimal_to_bytes_eq.
  change (getitem (v :: rest) 0) with (@ret Z v).
  destruct (function_code =? WRITE_SINGLE_REGISTER).
  - rewrite bind_ret, decimal_to_bytes_eq.
    rewrite struct_pack_error; [reflexivity | apply Exists_cons_hd; exact Hb].
  - destruct (function_code =? WRITE_MULTIPLE_REGISTERS).
    + rewrite struct_pack_error; [reflexivity | apply Exists_cons_hd; exact Hb].
    + destruct (function_code =? WRITE_SINGLE_COIL).
      * rewrite bind_ret.
        rewrite struct_pack_error;
          [reflexivity | apply Exists_cons_hd; exact Hb].
      * rewrite struct_pack_error;
          [reflexivity | apply Exists_cons_hd; exact Hb].
Qed.

Lemma split_on_nonempty (sep : ascii) (s : list ascii) : split_on sep s <> [].
Proof.
  induction s as [|ch rest IH]; [discriminate|].
  cbn [split_on]. destruct (Ascii.eqb ch sep); [discriminate|].
  destruct (split_on sep rest); [contradiction | discriminate].
Qed.

Lemma split_on_app (sep : ascii) (pre post : list ascii) :
  split_on sep (pre ++ sep :: post) = split_on sep pre ++ split_on sep post.
Proof.
  induction pre as [|ch pre IH].
  - cbn [app split_on]. rewrite Ascii.eqb_refl. reflexivity.
  - cbn [app split_on]. rewrite IH.
    destruct (Ascii.eqb ch sep); [reflexivity|].
    pose proof (split_on_nonempty sep pre) as N.
    destruct (split_on sep pre) as [|w ws]; [contradiction | reflexivity].
Qed.

Lemma empty_item_split (line : list ascii) :
  has_empty_item line -> In [] (split_on " "%char line).
Proof.
  intros [-> | [pre [post [-> [-> | [-> | [post' ->]]]]]]].
  - left. reflexivity.
  - left. reflexivity.
  - rewrite split_on_app. apply in_or_app. right. left. reflexivity.
  - rewrite split_on_app. apply in_or_app. right. left. reflexivity.
Qed.

Lemma line_is_true (s : list ascii) (literal : string) :
  line_is s literal = true -> s = list_ascii_of_string literal.
Proof.
  unfold line_is. intros H. apply String.eqb_eq in H. rewrite <- H.
  symmetry. apply list_ascii_of_string_of_list_ascii.
Qed.

Section MainTurns.

Variable py_int : list ascii -> option Z.
Variable stdin : nat -> list ascii.
Variable peer : Z -> bytes.

Lemma int_each_ok (items : list (list ascii)) (pos : nat) :
  Forall (fun item => py_int item <> None) items ->
  exists zs,
    int_each py_int items pos = ([], Ok (zs, pos)) /\
    length zs = length items.
Proof.
  induction 1 as [|item rest Hi _ [zs [E L]]].
  - exists []. split; reflexivity.
  - destruct (py_int item) as [z|] eqn:Ez; [|congruence].
    exists (z :: zs). cbn [int_each]. unfold mbind, int. rewrite Ez.
    cbn. rewrite E. cbn. split; [reflexivity | congruence].
Qed.

Lemma int_each_empty_item (items : list (list ascii)) (pos : nat) :
  py_int [] = None -> In [] items ->
  int_each py_int items pos = ([], Raise ValueError).
Proof.
  intros Hn. induction items as [|item rest IH]; intros Hin; [contradiction|].
  cbn [int_each]. unfold mbind, int at 1.
  destruct (py_int item) as [z|] eqn:Ez; [|reflexivity].
  destruct Hin as [-> | Hin]; [congruence|].
  cbn. rewrite (IH Hin). reflexivity.
Qed.

Lemma say_menu (pos : nat) :
  say_each menu pos = (map Print menu, Ok (tt, pos)).
Proof. reflexivity. Qed.

Lemma mbind_ok {A B} (m : mio A) (k : A -> mio B) (pos pos' : nat)
  (t : list console) (a : A) :
  m pos = (t, Ok (a, pos')) ->
  mbind m k pos = (t ++ fst (k a pos'), snd (k a pos')).
Proof. intros E. unfold mbind. rewrite E. destruct (k a pos'). reflexivity. Qed.

Lemma mbind_raised {A B} (m : mio A) (k : A -> mio B) (pos : nat)
  (t : list console) (e : exn) :
  m pos = (t, Raise e) -> mbind m k pos = (t, Raise e).
Proof. intros E. unfold mbind. rewrite E. reflexivity. Qed.

(** A turn prints the menu, asks for the function and dispatches on the
    line typed. *)
Lemma iteration_eq (tn : Z) (pos : nat) :
  iteration py_int stdin peer tn pos =
  (map Print menu ++
     Input "Choose function: " ::
     fst (dispatch py_int stdin peer tn (stdin pos) (S pos)),
   snd (dispatch py_int stdin peer tn (stdin pos) (S pos))).
Proof.
  unfold iteration. rewrite (mbind_ok _ _ _ _ _ _ (say_menu pos)).
  rewrite (mbind_ok _ _ pos (S pos) [Input "Choose function: "] (stdin pos))
    by reflexivity.
  reflexivity.
Qed.

End MainTurns.

Lemma methods_bad_tid (address tid count : Z) (values : list Z)
  (received : bytes) :
  65535 < tid -> values <> [] ->
  read_coils address tid count received = ([], Raise StructError) /\
  read_discrete_inputs address tid count received = ([], Raise StructError) /\
  read_holding_registers address tid count received =
    ([], Raise StructError) /\
  read_input_registers address tid count received = ([], Raise StructError) /\
  write_single_coil address tid values received = ([], Raise StructError) /\
  write_single_register address tid values received =
    ([], Raise StructError) /\
  write_multiple_coils address tid values received = ([], Raise StructError) /\
  write_multiple_registers address tid values received =
    ([], Raise StructError).
Proof.
  intros H Hv.
  rewrite read_coils_eq, read_discrete_inputs_eq, read_holding_registers_eq,
    read_input_registers_eq.
  unfold write_single_coil, write_single_register, write_multiple_coils,
    write_multiple_registers.
  rewrite !reading_bad_tid by exact H.
  rewrite !writing_bad_tid by assumption.
  repeat split.
Qed.

Section MainCommands.

Variable py_int : list ascii -> option Z.
Variable stdin : nat -> list ascii.
Variable peer : Z -> bytes.

Lemma int_ok (s : list ascii) (z : Z) (pos : nat) :
  py_int s = Some z -> int py_int s pos = ([], Ok (z, pos)).
Proof. intros E. unfold int. rewrite E. reflexivity. Qed.

Lemma int_bad (s : list ascii) (pos : nat) :
  py_int s = None -> int py_int s pos = ([], Raise ValueError).
Proof. intros E. unfold int. rewrite E. reflexivity. Qed.

Lemma input_eq (prompt : string) (pos : nat) :
  input stdin prompt pos = ([Input prompt], Ok (stdin pos, S pos)).
Proof. reflexivity. Qed.

Lemma call_raised (m : io unit) (t : list event) (e : exn) (pos : nat) :
  m = (t, Raise e) -> call m pos = (map Method t, Raise e).
Proof. intros ->. reflexivity. Qed.

(** Evaluates the steps of a turn one after the other. *)
Ltac step :=
  first
    [ rewrite (mbind_ok _ _ _ _ _ _ (input_eq _ _))
    | match goal with
      | E : py_int ?s = Some ?z |- context [int py_int ?s] =>
          rewrite (mbind_ok _ _ _ _ _ _ (int_ok s z _ E))
      | E : py_int ?s = None |- context [int py_int ?s] =>
          rewrite (mbind_raised _ _ _ _ _ (int_bad s _ E))
      | E : int_each py_int ?l ?p = (_, Ok _) |- _ =>
          rewrite (mbind_ok _ _ _ _ _ _ E)
      | E : int_each py_int ?l ?p = (_, Raise _) |- _ =>
          rewrite (mbind_raised _ _ _ _ _ E)
      end ];
  cbn [fst snd app].

(** Decides the comparisons of a known choice with the literals. *)
Ltac choose :=
  unfold dispatch;
  repeat match goal with
  | |- context [line_is ?s ?l] =>
      let b := eval vm_compute in (line_is s l) in
      change (line_is s l) with b
  end;
  cbv iota.

Lemma dispatch_overflow (tn : Z) (choice : list ascii) (pos : nat) :
  65535 <= tn ->
  complete_command py_int choice (stdin pos) (stdin (S pos)) ->
  frame_ids (fst (dispatch py_int stdin peer tn choice pos)) = [] /\
  snd (dispatch py_int stdin peer tn choice pos) = Raise StructError.
Proof.
  intros Htn [Ha Hc].
  destruct (py_int (stdin pos)) as [address|] eqn:Ea; [|congruence].
  clear Ha.
  destruct Hc as [[Hin Hx] | [Hin Hx]].
  - destruct (py_int (stdin (S pos))) as [x|] eqn:Ex; [|congruence].
    destruct (methods_bad_tid address (tn + 1) x [x] (peer (tn + 1)))
      as [M1 [M2 [M3 [M4 [M5 [M6 _]]]]]]; [lia | discriminate|].
    cbn [map In] in Hin.
    destruct Hin as [<- | [<- | [<- | [<- | [<- | [<- | []]]]]]];
      choose; do 4 step; cbv zeta;
      erewrite mbind_raised by (apply call_raised; eassumption);
      split; reflexivity.
  - destruct (int_each_ok py_int (split_on " "%char (stdin (S pos))) (S (S pos))
                Hx) as [zs [Ez Lz]].
    assert (zs <> []) as Nz.
    { intros ->. apply (split_on_nonempty " "%char (stdin (S pos))).
      apply length_zero_iff_nil. symmetry. exact Lz. }
    destruct (methods_bad_tid address (tn + 1) 0 zs (peer (tn + 1)))
      as [_ [_ [_ [_ [_ [_ [M7 M8]]]]]]]; [lia | exact Nz|].
    cbn [map In] in Hin.
    destruct Hin as [<- | [<- | []]];
      choose; do 4 step; cbv zeta;
      erewrite mbind_raised by (apply call_raised; eassumption);
      split; reflexivity.
Qed.

Lemma frame_ids_turn (tn : Z) (pos : nat) :
  frame_ids (fst (iteration py_int stdin peer tn pos)) =
  frame_ids (fst (dispatch py_int stdin peer tn (stdin pos) (S pos))).
Proof.
  rewrite iteration_eq. cbn [fst].
  rewrite frame_ids_app. reflexivity.
Qed.

Lemma dispatch_empty_item (tn : Z) (choice : list ascii) (pos : nat) :
  py_int [] = None ->
  line_is choice "7" = true \/ line_is choice "8" = true ->
  py_int (stdin pos) <> None ->
  has_empty_item (stdin (S pos)) ->
  frame_ids (fst (dispatch py_int stdin peer tn choice pos)) = [] /\
  snd (dispatch py_int stdin peer tn choice pos) = Raise ValueError.
Proof.
  intros Hn Hc Ha He.
  destruct (py_int (stdin pos)) as [address|] eqn:Ea; [|congruence].
  pose proof (int_each_empty_item py_int _ (S (S pos)) Hn
                (empty_item_split _ He)) as Ez.
  destruct Hc as [Hc | Hc]; apply line_is_true in Hc; subst choice;
    choose; do 4 step; split; reflexivity.
Qed.

Lemma dispatch_unknown (tn : Z) (choice : list ascii) (pos : nat) :
  Forall (fun literal => line_is choice literal = false)
    ["0"; "1"; "2"; "3"; "4"; "5"; "6"; "7"; "8"]%string ->
  dispatch py_int stdin peer tn choice pos =
  match py_int (stdin pos) with
  | Some _ =>
      ([Input "Choose address: "; Print "Unknown command!"],
       Ok (Continue tn, S pos))
  | None => ([Input "Choose address: "], Raise ValueError)
  end.
Proof.
  intros H.
  repeat match goal with
  | H : Forall _ (_ :: _) |- _ => inversion H; subst; clear H
  end.
  unfold dispatch.
  repeat match goal with
  | E : line_is choice _ = false |- _ => rewrite E; clear E
  end.
  destruct (py_int (stdin pos)) as [address|] eqn:Ea; do 2 step;
    reflexivity.
Qed.

Lemma continues_bind {A} (m : mio A) (k : A -> mio flow) :
  (forall a, continues (k a)) -> continues (mbind m k).
Proof.
  intros Hk pos next pos' H. unfold mbind in H.
  destruct (m pos) as [t [[a p] | e]]; [|discriminate H].
  specialize (Hk a p next pos'). destruct (k a p) as [t' r].
  apply Hk. exact H.
Qed.

Lemma continues_continue (tn : Z) : continues (mret (Continue tn)).
Proof. intros pos next pos' H. inversion H. eauto. Qed.

Lemma dispatch_continues (tn : Z) (choice : list ascii) :
  line_is choice "0" = false -> continues (dispatch py_int stdin peer tn choice).
Proof.
  intros H. unfold dispatch. rewrite H.
  apply continues_bind. intros a. apply continues_bind. intros address.
  repeat match goal with
  | |- continues (if ?c then _ else _) => destruct c
  end;
  repeat first [ apply continues_continue
               | apply continues_bind; intros ? ].
Qed.

Lemma iteration_break (tn : Z) (pos pos' : nat) :
  snd (iteration py_int stdin peer tn pos) = Ok (Break, pos') ->
  line_is (stdin pos) "0" = true /\ pos' = S pos.
Proof.
  rewrite iteration_eq. cbn [snd]. intros H.
  destruct (line_is (stdin pos) "0") eqn:E.
  - split; [reflexivity|]. unfold dispatch in H. rewrite E in H.
    inversion H. reflexivity.
  - destruct (dispatch_continues tn (stdin pos) E _ _ _ H) as [tn' N].
    discriminate N.
Qed.

Lemma loop_break (turns : nat) :
  forall tn pos pos',
    snd (loop py_int stdin peer turns tn pos) = Ok (true, pos') ->
    exists p, pos' = S p /\ line_is (stdin p) "0" = true.
Proof.
  induction turns as [|turns IH]; intros tn pos pos' H; [discriminate H|].
  cbn [loop] in H. unfold mbind in H.
  destruct (iteration py_int stdin peer tn pos) as [t [[next p] | e]] eqn:E;
    [|discriminate H].
  destruct next as [|tn'].
  - cbn in H. inversion H. subst p.
    assert (snd (iteration py_int stdin peer tn pos) = Ok (Break, pos')) as B
      by (rewrite E; reflexivity).
    destruct (iteration_break tn pos pos' B) as [Z0 ->].
    exists pos. auto.
  - destruct (loop py_int stdin peer turns tn' p) as [t' r] eqn:El.
    cbn [snd] in H. subst r.
    apply (IH tn' p pos'). rewrite El. reflexivity.
Qed.

End MainCommands.

(** The transaction counter is never wrapped: once it has reached 65535,
    every complete command 1 to 8 of the menu ends the program with
    [struct.error], raised while the frame is packed, and sends nothing. *)
Theorem transaction_counter_overflow (py_int : list ascii -> option Z)
  (stdin : nat -> list ascii) (peer : Z -> bytes) (tn : Z) (pos : nat) :
  65535 <= tn ->
  complete_command py_int (stdin pos) (stdin (S pos)) (stdin (S (S pos))) ->
  frame_ids (fst (iteration py_int stdin peer tn pos)) = [] /\
  snd (iteration py_int stdin peer tn pos) = Raise StructError.
Proof.
  intros Htn Hc. rewrite frame_ids_turn, iteration_eq. cbn [snd].
  apply dispatch_overflow; assumption.
Qed.

Lemma transaction_counter_overflow_witness :
  snd (iteration decimal_int (typed ["3"; "0"; "1"]%string)
         (fun _ => [x00; x01]) 65535 0%nat) = Raise StructError.
Proof.
  apply (transaction_counter_overflow decimal_int
           (typed ["3"; "0"; "1"]%string) (fun _ => [x00; x01]) 65535 0%nat).
  - lia.
  - split; [discriminate|]. left. split; [|discriminate].
    right; right; left. reflexivity.
Defined.

(** The values of the multiple-write commands 7 and 8 are split at every
    single space, so an empty line, a space at either end or two spaces in
    a row leave an empty item, which [int] refuses: the program ends with
    [ValueError] and nothing is sent.  In particular the menu never sends
    an empty list of values. *)
Theorem value_line_empty_item (py_int : list ascii -> option Z)
  (stdin : nat -> list ascii) (peer : Z -> bytes) (tn : Z) (pos : nat) :
  py_int [] = None ->
  line_is (stdin pos) "7" = true \/ line_is (stdin pos) "8" = true ->
  py_int (stdin (S pos)) <> None ->
  has_empty_item (stdin (S (S pos))) ->
  frame_ids (fst (iteration py_int stdin peer tn pos)) = [] /\
  snd (iteration py_int stdin peer tn pos) = Raise ValueError.
Proof.
  intros Hn Hc Ha He. rewrite frame_ids_turn, iteration_eq. cbn [snd].
  apply dispatch_empty_item; assumption.
Qed.

Lemma value_line_empty_item_witness :
  snd (iteration decimal_int (typed ["7"; "5"; "1 0  1"]%string)
         (fun _ => [x00; x01]) 0 0%nat) = Raise ValueError.
Proof.
  apply (value_line_empty_item decimal_int
           (typed ["7"; "5"; "1 0  1"]%string) (fun _ => [x00; x01]) 0 0%nat).
  - reflexivity.
  - left. reflexivity.
  - discriminate.
  - right. exists (list_ascii_of_string "1 0"), (list_ascii_of_string " 1").
    split; [reflexivity|]. right; right. eexists. reflexivity.
Defined.

(** A function line that is none of 0 to 8 is found out only after the
    address has been asked for and parsed: an address that [int] refuses
    ends the program with [ValueError]; otherwise "Unknown command!" is
    printed, nothing is sent and the transaction counter stays as it is. *)
Theorem unknown_command (py_int : list ascii -> option Z)
  (stdin : nat -> list ascii) (peer : Z -> bytes) (tn : Z) (pos : nat) :
  Forall (fun literal => line_is (stdin pos) literal = false)
    ["0"; "1"; "2"; "3"; "4"; "5"; "6"; "7"; "8"]%string ->
  iteration py_int stdin peer tn pos =
  match py_int (stdin (S pos)) with
  | Some _ =>
      (map Print menu ++
         [Input "Choose function: "; Input "Choose address: ";
          Print "Unknown command!"],
       Ok (Continue tn, S (S pos)))
  | None =>
      (map Print menu ++ [Input "Choose function: "; Input "Choose address: "],
       Raise ValueError)
  end.
Proof.
  intros H. rewrite iteration_eq, dispatch_unknown by exact H.
  destruct (py_int (stdin (S pos))); reflexivity.
Qed.

Lemma unknown_command_witness :
  iteration decimal_int (typed ["9"; "x"]%string) (fun _ => []) 4 0%nat =
    (map Print menu ++ [Input "Choose function: "; Input "Choose address: "],
     Raise ValueError).
Proof.
  apply (unknown_command decimal_int (typed ["9"; "x"]%string)
           (fun _ => []) 4 0%nat).
  repeat constructor.
Defined.

(** The loop is left without an exception only through the line "0": a
    turn whose function line is "0" prints the menu, reads that one line
    and breaks, and whenever a run ends by [break] the last line read was
    "0". *)
Theorem loop_left_by_zero (py_int : list ascii -> option Z)
  (stdin : nat -> list ascii) (peer : Z -> bytes) (turns : nat) (tn : Z)
  (pos : nat) :
  (line_is (stdin pos) "0" = true ->
   loop py_int stdin peer (S turns) tn pos =
     (map Print menu ++ [Input "Choose function: "], Ok (true, S pos))) /\
  (forall pos',
     snd (loop py_int stdin peer turns tn pos) = Ok (true, pos') ->
     exists p, pos' = S p /\ line_is (stdin p) "0" = true).
Proof.
  split.
  - intros H. cbn [loop].
    assert (iteration py_int stdin peer tn pos =
            (map Print menu ++ [Input "Choose function: "],
             Ok (Break, S pos))) as E.
    { rewrite iteration_eq. unfold dispatch. rewrite H. reflexivity. }
    rewrite (mbind_ok _ _ _ _ _ _ E). cbn [fst snd mret].
    rewrite app_nil_r. reflexivity.
  - intros pos'. apply loop_break.
Qed.

Lemma loop_left_by_zero_witness :
  main decimal_int (typed ["0"]%string) (fun _ => []) 3 0%nat =
    (map Print menu ++ [Input "Choose function: "], Ok (true, 1%nat)).
Proof.
  destruct (loop_left_by_zero decimal_int (typed ["0"]%string)
              (fun _ => []) 2%nat 0 0%nat) as [H _].
  apply H. reflexivity.
Defined.
